(** * SynAI platform: the retrieval-augmented generation core

    A shallow embedding of the chunker, the retrieval engine, the citation
    ranker and the completion orchestrator of the backend
    ([app/services/vector_service.py], [app/routers/llm.py],
    [app/services/llm_service.py]), with the properties of its specification.

    Modelling conventions
    - a Python [str] is a list of Unicode code points ([pystr]); [len] is
      [length], slices and [rfind] take integer ([Z]) indices with Python's
      treatment of negative and out-of-range values;
    - a Python [float] is an exact rational ([Q]); [min], [max], [round]
      are the exact operations, and a comparison with a threshold is
      exact: where binary64 rounds a value across a threshold (a distance
      of 2.4 lowered by a boost of 0.6 is 1.7999999999999998 there, below
      1.8) the branch taken here is the one of the exact value;
    - an exception is a value of the error monad [exn]; [try/except] is
      [try_except];
    - a [while] loop takes fuel and returns [None] when it runs out;
    - what the code imports from other packages (the sentence and word
      tokenizers of pythainlp, [str.lower], the ChromaDB collection
      operations, the provider HTTP calls) is a section variable. *)

From Stdlib Require Import ZArith QArith Qabs Qminmax Qround Lia Lqa.
From Stdlib Require Import List Sorted.
From stdpp Require Import base option list gmap strings pretty.

Set Default Proof Using "Type".
Local Open Scope Z_scope.

(** ** Python strings *)

Module PyStr.

Abbreviation pystr := (list N).

(** An ASCII literal as a Python string. *)
Definition lit (s : string) : pystr :=
  map Ascii.N_of_ascii (String.list_ascii_of_string s).

Definition len (s : pystr) : Z := Z.of_nat (length s).

Definition space : N := 32%N.

(** The code points for which [str.isspace] holds; [str.split()] and
    [str.strip()] use this set. *)
Definition is_space (c : N) : bool :=
  ((9 <=? c) && (c <=? 13) || (28 <=? c) && (c <=? 32)
   || (c =? 133) || (c =? 160) || (c =? 5760)
   || (8192 <=? c) && (c <=? 8202)
   || (c =? 8232) || (c =? 8233) || (c =? 8239) || (c =? 8287)
   || (c =? 12288))%N.

Definition nonempty {A} (l : list A) : bool :=
  match l with [] => false | _ => true end.

(** [s.split()]: the maximal runs of non-whitespace, in order. [cur] holds
    the run being read, reversed. *)
Fixpoint split_from (cur : pystr) (s : pystr) : list pystr :=
  match s with
  | [] => if nonempty cur then [rev cur] else []
  | c :: s' =>
      if is_space c
      then (if nonempty cur then rev cur :: split_from [] s'
            else split_from [] s')
      else split_from (c :: cur) s'
  end.

Definition split (s : pystr) : list pystr := split_from [] s.

(** [sep.join(l)] *)
Fixpoint join (sep : pystr) (l : list pystr) : pystr :=
  match l with
  | [] => []
  | [w] => w
  | w :: l' => w ++ sep ++ join sep l'
  end.

Fixpoint lstrip (s : pystr) : pystr :=
  match s with
  | c :: s' => if is_space c then lstrip s' else s
  | [] => []
  end.

Definition rstrip (s : pystr) : pystr := rev (lstrip (rev s)).

(** [s.strip()] *)
Definition strip (s : pystr) : pystr := rstrip (lstrip s).

(** How a slice bound is read: a negative bound counts from the end, and
    every bound is brought into [0 .. len]. *)
Definition clamp (n i : Z) : Z :=
  if i <? 0 then Z.max 0 (i + n) else Z.min i n.

(** [s[start:stop]] *)
Definition slice (s : pystr) (start stop : Z) : pystr :=
  let a := clamp (len s) start in
  let b := clamp (len s) stop in
  take (Z.to_nat (b - a)) (drop (Z.to_nat a) s).

(** The highest index [i] with [a <= i < a + k] and [s[i] = c], or [-1]. *)
Fixpoint rfind_down (c : N) (s : pystr) (a k : nat) : Z :=
  match k with
  | O => -1
  | S k' =>
      match s !! (a + k')%nat with
      | Some c' => if (c' =? c)%N then Z.of_nat (a + k')
                   else rfind_down c s a k'
      | None => rfind_down c s a k'
      end
  end.

(** [s.rfind(c, start, stop)] for a one-character needle [c]. *)
Definition rfind (c : N) (s : pystr) (start stop : Z) : Z :=
  let a := clamp (len s) start in
  let b := clamp (len s) stop in
  rfind_down c s (Z.to_nat a) (Z.to_nat (b - a)).

Fixpoint startswith (p s : pystr) : bool :=
  match p, s with
  | [], _ => true
  | x :: p', y :: s' => (x =? y)%N && startswith p' s'
  | _ :: _, [] => false
  end.

(** [needle in hay] *)
Fixpoint contains (needle hay : pystr) : bool :=
  startswith needle hay
  || match hay with
     | [] => false
     | _ :: hay' => contains needle hay'
     end.

(** [str.lower] restricted to ASCII letters; the tests and examples use it
    where the development takes [str.lower] as a variable. *)
Definition ascii_lower (s : pystr) : pystr :=
  map (fun c => if (65 <=? c)%N && (c <=? 90)%N then (c + 32)%N else c) s.

End PyStr.

Import PyStr.

(** ** Exceptions *)

Inductive exn (A : Type) : Type :=
| Ok (a : A)
| Raise (msg : pystr).
Arguments Ok {A} a.
Arguments Raise {A} msg.

Definition bind {A B} (m : exn A) (k : A -> exn B) : exn B :=
  match m with
  | Ok a => k a
  | Raise msg => Raise msg
  end.

(** [try: body except Exception as e: handler(str(e))] *)
Definition try_except {A} (body : exn A) (handler : pystr -> exn A) : exn A :=
  match body with
  | Ok a => Ok a
  | Raise msg => handler msg
  end.

Notation "x <- m ;; k" := (bind m (fun x => k))
  (at level 100, m at next level, right associativity).

(** [l[i]], raising [IndexError] out of range. *)
Definition index {A} (l : list A) (i : nat) : exn A :=
  match l !! i with
  | Some a => Ok a
  | None => Raise (lit "list index out of range")
  end.

(** ** The chunker: [VectorService._split_text] *)

Module Chunker.

Section Chunker.

(** Whether the pythainlp import succeeded, and its sentence tokenizer
    [sent_tokenize(text, engine="whitespace+newline")]. *)
Variable HAS_PYTHAINLP : bool.
Variable sent_tokenize : pystr -> list pystr.

(** [re.search('[\u0e00-\u0e7f]', text)]: a code point of the Thai block. *)
Definition has_thai (text : pystr) : bool :=
  existsb (fun c => (3584 <=? c)%N && (c <=? 3711)%N) text.

(** The body of the loop over the sentences, with its two accumulators. *)
Fixpoint pack_sentences (chunk_size : Z) (sentences : list pystr)
    (current_chunk : pystr) (chunks : list pystr) : list pystr * pystr :=
  match sentences with
  | [] => (chunks, current_chunk)
  | sent :: rest =>
      if len current_chunk + len sent <=? chunk_size
      then pack_sentences chunk_size rest
             (current_chunk ++ sent ++ [space]) chunks
      else pack_sentences chunk_size rest (sent ++ [space])
             (if nonempty current_chunk
              then chunks ++ [strip current_chunk] else chunks)
  end.

Definition split_thai (text : pystr) (chunk_size : Z) : list pystr :=
  let '(chunks, current_chunk) :=
    pack_sentences chunk_size (sent_tokenize text) [] [] in
  if nonempty current_chunk then chunks ++ [strip current_chunk] else chunks.

(** The right edge of the window that starts at [start]. *)
Definition window_end (text : pystr) (chunk_size start : Z) : Z :=
  let end_ := start + chunk_size in
  if end_ <? len text then
    let last_space := rfind space text start end_ in
    if negb (last_space =? -1) && (start + chunk_size / 2 <? last_space)
    then last_space else end_
  else end_.

(** [start = end - overlap] *)
Definition next_start (text : pystr) (chunk_size overlap start : Z) : Z :=
  window_end text chunk_size start - overlap.

(** The [while start < len(text)] loop. *)
Fixpoint split_loop (fuel : nat) (text : pystr) (chunk_size overlap : Z)
    (start : Z) (chunks : list pystr) : option (list pystr) :=
  match fuel with
  | O => None
  | S fuel' =>
      if start <? len text then
        let end_ := window_end text chunk_size start in
        let chunk := slice text start end_ in
        split_loop fuel' text chunk_size overlap
          (next_start text chunk_size overlap start)
          (if nonempty (strip chunk) then chunks ++ [chunk] else chunks)
      else Some chunks
  end.

(** [" ".join(text.split())] *)
Definition normalize (text : pystr) : pystr := join [space] (split text).

Definition split_default (fuel : nat) (text : pystr)
    (chunk_size overlap : Z) : option (list pystr) :=
  split_loop fuel (normalize text) chunk_size overlap 0 [].

Definition _split_text (fuel : nat) (text : pystr)
    (chunk_size overlap : Z) : option (list pystr) :=
  if nonempty text then
    if has_thai text && HAS_PYTHAINLP
    then Some (split_thai text chunk_size)
    else split_default fuel text chunk_size overlap
  else Some [].

End Chunker.

(** Fuel that is enough for the default parameters. *)
Definition enough_fuel (text : pystr) : nat := S (length text).

End Chunker.

(** ** Statements about the chunker *)

Module ChunkerSpec.

Import Chunker.

(** Whether the window starting at [start] is backed off to a space. *)
Definition backs_off (text : pystr) (chunk_size start : Z) : Prop :=
  start + chunk_size < len text /\
  rfind space text start (start + chunk_size) <> -1 /\
  start + chunk_size / 2 < rfind space text start (start + chunk_size).

(** What the language-aware mode may emit: a chunk within the size, or one
    sentence longer than the size, stripped. *)
Definition thai_chunk_ok (chunk_size : Z) (sentences : list pystr)
    (c : pystr) : Prop :=
  len c <= chunk_size \/
  exists sent, sent ∈ sentences /\ chunk_size < len sent
               /\ c = strip (sent ++ [space]).

(** The next window start as the specification words it: the previous
    start plus [chunk_size - overlap]. *)
Definition spec_next_start (chunk_size overlap start : Z) : Z :=
  start + (chunk_size - overlap).

(** The right edge as the specification words it: backed off to the last
    space of the window when that space lies no earlier than
    [chunk_size / 2] into the window. *)
Definition spec_window_end (text : pystr) (chunk_size start : Z) : Z :=
  let end_ := start + chunk_size in
  let last_space := rfind space text start end_ in
  if negb (last_space =? -1) && (start + chunk_size / 2 <=? last_space)
  then last_space else end_.

(** Two words of 400 letters with one space between them. *)
Definition two_words : pystr :=
  replicate 400 97%N ++ [space] ++ replicate 400 98%N.

(** A text whose only space is exactly 300 characters into the first
    window. *)
Definition space_at_half : pystr :=
  replicate 300 97%N ++ [space] ++ replicate 500 98%N.

(** One Thai sentence of 601 characters. *)
Definition long_thai_sentence : pystr := replicate 601 3585%N.

End ChunkerSpec.

Import ChunkerSpec.

(** ** The retrieval engine: [VectorService.process_document] and
    [VectorService.search] *)

Module VectorService.

(** The metadata dictionary of a chunk; [{}] has no key. *)
Record Metadata := {
  md_file_id : option pystr;
  md_page : option pystr;
  md_user_id : option pystr;
  md_chunk_index : option Z
}.

Definition empty_metadata : Metadata :=
  {| md_file_id := None; md_page := None; md_user_id := None;
     md_chunk_index := None |}.

(** [{"file_id": f}] and [{"file_id": {"$in": fs}}] *)
Inductive Where :=
| WhereEq (file_id : pystr)
| WhereIn (file_ids : list pystr).

(** What [collection.query] answers: one inner list per query text. *)
Record QueryResult := {
  qr_documents : list (list pystr);
  qr_distances : list (list Q);
  qr_metadatas : option (list (list Metadata))
}.

(** What [collection.get] answers. *)
Record GetResult := {
  gr_documents : list pystr;
  gr_metadatas : list Metadata
}.

(** An entry of the list that [search] returns. *)
Record Document := {
  content : pystr;
  metadata : Metadata;
  distance : Q
}.

(** One unit of [_extract_with_metadata]. *)
Record ContentObject := {
  co_text : pystr;
  co_page : option Z;
  co_page_label : option pystr
}.

Definition to_Q (n : nat) : Q := inject_Z (Z.of_nat n).

Definition length_Z {A} (l : list A) : Z := Z.of_nat (length l).

(** [s.replace('-', '_')] *)
Definition replace_hyphens (s : pystr) : pystr :=
  map (fun c => if (c =? 45)%N then 95%N else c) s.

(** [f"user_{user_id.replace('-', '_')}"] as [process_document] computes
    it. *)
Definition process_document_collection_name (user_id : pystr) : pystr :=
  lit "user_" ++ replace_hyphens user_id.

(** [f"user_{user_id.replace('-', '_')}"] as [search] computes it. *)
Definition search_collection_name (user_id : pystr) : pystr :=
  lit "user_" ++ replace_hyphens user_id.

Definition build_where (file_ids : option (list pystr)) : option Where :=
  match file_ids with
  | Some [fid] => Some (WhereEq fid)
  | Some (fid :: fids) => Some (WhereIn (fid :: fids))
  | Some [] | None => None
  end.

Section VectorService.

(** pythainlp: whether it was imported, its sentence tokenizer and
    [word_tokenize(s, keep_whitespace=False)]; and [str.lower]. *)
Variable HAS_PYTHAINLP : bool.
Variable sent_tokenize : pystr -> list pystr.
Variable word_tokenize : pystr -> list pystr.
Variable lower : pystr -> pystr.

(** ChromaDB: the state of a collection; [get_or_create_collection] on
    a name, given the collection of that name when there is one, with the
    user id of the metadata: the collection as the call leaves it, or the
    exception of the call; and the operations [query], [get] and [add] on
    a collection. *)
Variable Collection : Type.
Variable chroma_get_or_create :
  option Collection -> pystr -> pystr -> exn Collection.
Variable chroma_query :
  Collection -> pystr -> Z -> option Where -> exn QueryResult.
Variable chroma_get : Collection -> option Where -> Z -> exn GetResult.
Variable chroma_add :
  Collection -> list pystr -> list pystr -> list Metadata -> exn Collection.

(** The text extraction of [_extract_with_metadata], which reads the file. *)
Variable _extract_with_metadata : pystr -> list ContentObject.

(** The client: the collections by name. *)
Abbreviation Client := (gmap (list N) Collection).

Definition get_collection (client : Client) (name : pystr) : exn Collection :=
  match client !! name with
  | Some collection => Ok collection
  | None => Raise (lit "Collection does not exist")
  end.

Definition get_or_create_collection (client : Client) (name user_id : pystr)
    : exn (Client * Collection) :=
  collection <- chroma_get_or_create (client !! name) name user_id;;
  Ok (<[name := collection]> client, collection).

(** *** Stage 1.5: keyword boosting *)

(** [{w for w in set(word_tokenize(query.lower())) if len(w) > 1}] *)
Definition target_words (query : pystr) : gset (list N) :=
  filter (fun w => (1 < length w)%nat)
    (list_to_set (word_tokenize (lower query)) : gset (list N)).

Definition matches (query doc : pystr) : gset (list N) :=
  target_words query ∩ list_to_set (word_tokenize (lower doc)).

Definition match_ratio (query doc : pystr) : Q :=
  (to_Q (size (matches query doc)) / to_Q (size (target_words query)))%Q.

Definition thai_boost (dist : Q) (query doc : pystr) : Q :=
  if decide (target_words query = ∅) then dist
  else
    if Qlt_le_dec 0 (match_ratio query doc) then
      let boost := Qmin dist (match_ratio query doc * 0.9)%Q in
      Qmax 0.01 (dist - boost)%Q
    else dist.

(** [[w for w in query.lower().split() if len(w) > 1]] *)
Definition query_words (query : pystr) : list pystr :=
  List.filter (fun w => (1 <? length w)%nat) (split (lower query)).

Definition foundCount (query doc : pystr) : nat :=
  length (List.filter (fun w => contains w (lower doc)) (query_words query)).

Definition found_ratio (query doc : pystr) : Q :=
  (to_Q (foundCount query doc) / to_Q (length (query_words query)))%Q.

Definition simple_boost (dist : Q) (query doc : pystr) : Q :=
  if (0 <? foundCount query doc)%nat then
    let boost :=
      if nonempty (query_words query)
      then Qmin 0.5 (found_ratio query doc * 0.6)%Q else 0%Q in
    Qmax 0.01 (dist - boost)%Q
  else dist.

(** The keyword-overlap ratio of the branch that runs. *)
Definition keyword_ratio (query doc : pystr) : Q :=
  if HAS_PYTHAINLP
  then (if decide (target_words query = ∅) then 0%Q
        else match_ratio query doc)
  else found_ratio query doc.

Definition rescore (dist : Q) (query doc : pystr) : Q :=
  if HAS_PYTHAINLP then thai_boost dist query doc
  else simple_boost dist query doc.

(** *** Stage 1: the loop over [results["documents"][0]] *)

Definition result_metadata (results : QueryResult) (i : nat) : exn Metadata :=
  match qr_metadatas results with
  | Some (m :: ms) => m0 <- index (m :: ms) 0;; index m0 i
  | Some [] | None => Ok empty_metadata
  end.

Fixpoint stage1_loop (results : QueryResult) (query : pystr) (i : nat)
    (docs : list pystr) (documents : list Document) : exn (list Document) :=
  match docs with
  | [] => Ok documents
  | doc :: rest =>
      dists0 <- index (qr_distances results) 0;;
      dist0 <- index dists0 i;;
      let dist := rescore dist0 query doc in
      if Qlt_le_dec dist 1.8%Q then
        md <- result_metadata results i;;
        stage1_loop results query (S i) rest
          (documents ++ [{| content := doc; metadata := md;
                            distance := dist |}])
      else stage1_loop results query (S i) rest documents
  end.

Definition stage1 (results : QueryResult) (query : pystr)
    : exn (list Document) :=
  match qr_documents results with
  | docs0 :: _ => stage1_loop results query 0 docs0 []
  | [] => Ok []
  end.

(** *** Stage 2: the keyword fallback *)

(** [any(word in doc_lower for word in query_words if len(word) > 2)] with
    [query_words = set(query.lower().split())] *)
Definition keyword_hit (query doc : pystr) : bool :=
  let doc_lower := lower doc in
  let query_words : gset (list N) := list_to_set (split (lower query)) in
  existsb (fun word => contains word doc_lower)
    (List.filter (fun word => (2 <? length word)%nat) (elements query_words)).

Fixpoint stage2_loop (all_chunks : GetResult) (query : pystr) (n_results : Z)
    (i : nat) (docs : list pystr) (documents : list Document)
    : exn (list Document) :=
  match docs with
  | [] => Ok documents
  | doc :: rest =>
      if keyword_hit query doc then
        md <- index (gr_metadatas all_chunks) i;;
        let documents :=
          documents ++ [{| content := doc; metadata := md;
                           distance := 0.4%Q |}] in
        if length_Z documents >=? n_results then Ok documents
        else stage2_loop all_chunks query n_results (S i) rest documents
      else stage2_loop all_chunks query n_results (S i) rest documents
  end.

Definition stage2 (all_chunks : GetResult) (query : pystr) (n_results : Z)
    (documents : list Document) : exn (list Document) :=
  stage2_loop all_chunks query n_results 0 (gr_documents all_chunks)
    documents.

(** *** Stage 3: the absolute fallback *)

Fixpoint stage3_loop (intro_chunks : GetResult) (i : nat)
    (docs : list pystr) (documents : list Document) : exn (list Document) :=
  match docs with
  | [] => Ok documents
  | doc :: rest =>
      md <- index (gr_metadatas intro_chunks) i;;
      stage3_loop intro_chunks (S i) rest
        (documents ++ [{| content := doc; metadata := md;
                          distance := 0.6%Q |}])
  end.

Definition stage3 (intro_chunks : GetResult) (documents : list Document)
    : exn (list Document) :=
  stage3_loop intro_chunks 0 (gr_documents intro_chunks) documents.

(** *** [search] *)

(** The body of the second [try]. *)
Definition search_body (collection : Collection) (query : pystr)
    (n_results : Z) (where_filter : option Where) : exn (list Document) :=
  results <- chroma_query collection query n_results where_filter;;
  documents <- stage1 results query;;
  documents <-
    (if negb (nonempty documents) && nonempty query then
       all_chunks <- chroma_get collection where_filter 50;;
       stage2 all_chunks query n_results documents
     else Ok documents);;
  documents <-
    (if negb (nonempty documents) then
       intro_chunks <- chroma_get collection where_filter 5;;
       stage3 intro_chunks documents
     else Ok documents);;
  Ok documents.

Definition search (client : option Client) (user_id query : pystr)
    (n_results : Z) (file_ids : option (list pystr)) : exn (list Document) :=
  match client with
  | None => Ok []
  | Some client =>
      let collection_name := search_collection_name user_id in
      match get_collection client collection_name with
      | Raise _ => Ok []
      | Ok collection =>
          let where_filter := build_where file_ids in
          try_except
            (search_body collection query n_results where_filter)
            (fun _ => Ok [])
      end
  end.

(** *** [process_document] *)

(** [_split_text(text_part)]: the default parameters, with the fuel that
    always suffices for them. *)
Definition split_text_part (text_part : pystr) : list pystr :=
  default [] (Chunker._split_text HAS_PYTHAINLP sent_tokenize
                (Chunker.enough_fuel text_part) text_part 600 120).

Definition page_of (obj : ContentObject) : pystr :=
  match co_page_label obj with
  | Some (c :: l) => c :: l
  | Some [] | None =>
      match co_page obj with
      | Some page_no =>
          if page_no =? 0 then lit "General"
          else lit "Page " ++ lit (pretty page_no)
      | None => lit "General"
      end
  end.

(** The inner loop over the chunks of one unit. *)
Fixpoint add_sub_chunks (file_id user_id page : pystr)
    (sub_chunks : list pystr) (chunks : list pystr)
    (metadatas : list Metadata) : list pystr * list Metadata :=
  match sub_chunks with
  | [] => (chunks, metadatas)
  | chunk :: rest =>
      let chunks := chunks ++ [chunk] in
      add_sub_chunks file_id user_id page rest chunks
        (metadatas ++ [{| md_file_id := Some file_id;
                          md_page := Some page;
                          md_user_id := Some user_id;
                          md_chunk_index := Some (length_Z chunks - 1) |}])
  end.

(** The outer loop over the extracted units. *)
Fixpoint add_objects (file_id user_id : pystr)
    (content_objects : list ContentObject) (chunks : list pystr)
    (metadatas : list Metadata) : list pystr * list Metadata :=
  match content_objects with
  | [] => (chunks, metadatas)
  | obj :: rest =>
      let '(chunks, metadatas) :=
        add_sub_chunks file_id user_id (page_of obj)
          (split_text_part (co_text obj)) chunks metadatas in
      add_objects file_id user_id rest chunks metadatas
  end.

(** [[f"{file_id}_chunk_{i}" for i in range(len(chunks))]] *)
Definition chunk_ids (file_id : pystr) (chunks : list pystr) : list pystr :=
  map (fun i : nat => file_id ++ lit "_chunk_" ++ lit (pretty (Z.of_nat i)))
    (seq 0 (length chunks)).

(** [process_document] returns the client as it leaves it together with
    its result: the vector id, [None] when no text was extracted, or the
    [ValueError] it raises. *)
Definition process_document (client : option Client)
    (file_path file_id user_id : pystr)
    : option Client * exn (option pystr) :=
  match client with
  | None => (None, Raise (lit "ChromaDB is not available"))
  | Some client =>
      let content_objects := _extract_with_metadata file_path in
      if nonempty content_objects then
        let '(chunks, metadatas) :=
          add_objects file_id user_id content_objects [] [] in
        let collection_name := process_document_collection_name user_id in
        match get_or_create_collection client collection_name user_id with
        | Ok (client, collection) =>
            let ids := chunk_ids file_id chunks in
            match chroma_add collection chunks ids metadatas with
            | Ok collection =>
                (Some (<[collection_name := collection]> client),
                 Ok (Some (collection_name ++ lit ":" ++ file_id)))
            | Raise e =>
                (Some client,
                 Raise (lit "Failed to process document: " ++ e))
            end
        | Raise e =>
            (Some client, Raise (lit "Failed to process document: " ++ e))
        end
      else (Some client, Ok None)
  end.

End VectorService.

(** A row of [get] as an entry of the result, at distance [d]. *)
Definition keyword_row (d : Q) (row : pystr * Metadata) : Document :=
  {| content := fst row; metadata := snd row; distance := d |}.

(** A list-backed collection for the examples: [query] answers the first
    [n] stored chunks that pass the filter, each at distance 1; [get]
    answers the first [limit] chunks that pass the filter; [add] appends. *)
Module ListStore.

Definition Collection : Type := list (pystr * Metadata).

Definition passes (w : option Where) (row : pystr * Metadata) : bool :=
  match w, md_file_id (snd row) with
  | None, _ => true
  | Some (WhereEq f), Some g => bool_decide (f = g)
  | Some (WhereIn fs), Some g => bool_decide (g ∈ fs)
  | Some _, None => false
  end.

Definition rows (c : Collection) (w : option Where) (n : Z)
    : list (pystr * Metadata) :=
  take (Z.to_nat n) (List.filter (passes w) c).

Definition get_or_create (existing : option Collection)
    (name user_id : pystr) : exn Collection :=
  Ok (default [] existing).

Definition query (c : Collection) (q : pystr) (n : Z) (w : option Where)
    : exn QueryResult :=
  Ok {| qr_documents := [map fst (rows c w n)];
        qr_distances := [map (fun _ => 1%Q) (rows c w n)];
        qr_metadatas := Some [map snd (rows c w n)] |}.

Definition get (c : Collection) (w : option Where) (limit : Z)
    : exn GetResult :=
  Ok {| gr_documents := map fst (rows c w limit);
        gr_metadatas := map snd (rows c w limit) |}.

Definition add (c : Collection) (documents ids : list pystr)
    (metadatas : list Metadata) : exn Collection :=
  Ok (c ++ zip documents metadatas).

(** A collection whose [query] raises. *)
Definition failing_query (c : Collection) (q : pystr) (n : Z)
    (w : option Where) : exn QueryResult :=
  Raise (lit "store timeout").

(** A collection whose [query] finds nothing. *)
Definition empty_query (c : Collection) (q : pystr) (n : Z)
    (w : option Where) : exn QueryResult :=
  Ok {| qr_documents := [[]]; qr_distances := [[]];
        qr_metadatas := Some [[]] |}.

(** Every text file holds the one unit ["invoice total"]. *)
Definition extract (file_path : pystr) : list ContentObject :=
  [{| co_text := lit "invoice total"; co_page := None;
      co_page_label := None |}].

(** The Stage-2 pool of the example: two chunks of the file ["F1"]. *)
Definition pool_F1 : Collection :=
  [(lit "Invoice TOTAL 500",
    {| md_file_id := Some (lit "F1"); md_page := Some (lit "Page 1");
       md_user_id := Some (lit "u"); md_chunk_index := Some 0 |});
   (lit "payment due",
    {| md_file_id := Some (lit "F1"); md_page := Some (lit "Page 2");
       md_user_id := Some (lit "u"); md_chunk_index := Some 1 |})].

End ListStore.

End VectorService.

(** ** The citation ranker: the loop over [search_results] in [chat] *)

Module CitationRanker.

Import VectorService.

Record Citation := {
  source : pystr;
  file_id : pystr;
  page : pystr;
  preview : pystr;
  relevance_score : Q
}.

(** [["summarize", "summary", "overview", "สรุป", "ภาพรวม"]] *)
Definition broad_words : list pystr :=
  [lit "summarize"; lit "summary"; lit "overview";
   [3626; 3619; 3640; 3611]%N;
   [3616; 3634; 3614; 3619; 3623; 3617]%N].

(** The nearest integer, ties to the even one. *)
Definition round_half_even (x : Q) : Z :=
  let f := Qfloor x in
  match (x - inject_Z f ?= 1 # 2)%Q with
  | Lt => f
  | Gt => f + 1
  | Eq => if Z.even f then f else f + 1
  end.

(** [round(score, 3)] *)
Definition round3 (score : Q) : Q := round_half_even (score * 1000) # 1000.

(** The relevance score of a result at distance [dist]; the division
    raises when [1.0 + dist * 0.35] is zero. *)
Definition relevance (is_broad_query : bool) (dist : Q) : exn Q :=
  if Qeq_bool (1.0 + dist * 0.35) 0
  then Raise (lit "float division by zero")
  else
    let score := (1.0 / (1.0 + dist * 0.35))%Q in
    let score :=
      if is_broad_query then Qmax 0.70 (score + 0.1)%Q
      else Qmax 0.45 score in
    let score :=
      if Qlt_le_dec dist 0.4 then Qmin 0.99 (score * 1.1)%Q else score in
    Ok (round3 score).

(** [unique_citations]: a dictionary in insertion order. *)
Fixpoint dict_get (fid : pystr) (d : list (pystr * Citation))
    : option Citation :=
  match d with
  | [] => None
  | (k, c) :: d' => if decide (k = fid) then Some c else dict_get fid d'
  end.

Fixpoint dict_set (fid : pystr) (c : Citation) (d : list (pystr * Citation))
    : list (pystr * Citation) :=
  match d with
  | [] => [(fid, c)]
  | (k, c') :: d' =>
      if decide (k = fid) then (k, c) :: d'
      else (k, c') :: dict_set fid c d'
  end.

(** [l.sort(key=lambda x: x.relevance_score, reverse=True)]: descending,
    and stable. *)
Fixpoint insert_desc (c : Citation) (l : list Citation) : list Citation :=
  match l with
  | [] => [c]
  | x :: l' =>
      if Qlt_le_dec (relevance_score c) (relevance_score x)
      then x :: insert_desc c l'
      else c :: x :: l'
  end.

Definition sort_desc (l : list Citation) : list Citation :=
  foldr insert_desc [] l.

(** [str(meta.get("file_id", "unknown"))] *)
Definition fid_of (result : Document) : pystr :=
  default (lit "unknown") (md_file_id (metadata result)).

Section CitationRanker.

Variable lower : pystr -> pystr.

Definition is_broad_query (clean_query : pystr) : bool :=
  existsb (fun word => contains word (lower clean_query)) broad_words.

(** One iteration of [for result in search_results]: the new
    [rag_context], and the new [unique_citations] or the exception. *)
Definition rank_step (clean_query : pystr) (file_names : gmap (list N) pystr)
    (rag_context : list pystr) (unique_citations : list (pystr * Citation))
    (result : Document)
    : list pystr * exn (list (pystr * Citation)) :=
  let chunk := content result in
  if nonempty (strip chunk) then
    let meta := metadata result in
    let fid := fid_of result in
    let fname := default fid (file_names !! fid) in
    let page := default (lit "Unknown") (md_page meta) in
    let rag_context :=
      rag_context ++ [lit "[SOURCE: " ++ fname ++ lit ", PAGE: " ++ page
                      ++ lit "]" ++ [10%N] ++ chunk] in
    let dist := distance result in
    (rag_context,
     current_score <- relevance (is_broad_query clean_query) dist;;
     if match dict_get fid unique_citations with
        | None => true
        | Some c =>
            if Qlt_le_dec (relevance_score c) current_score
            then true else false
        end
     then Ok (dict_set fid
                {| source := fname; file_id := fid; page := page;
                   preview := slice chunk 0 200 ++ lit "...";
                   relevance_score := current_score |}
                unique_citations)
     else Ok unique_citations)
  else (rag_context, Ok unique_citations).

Fixpoint rank_loop (clean_query : pystr) (file_names : gmap (list N) pystr)
    (search_results : list Document) (rag_context : list pystr)
    (unique_citations : list (pystr * Citation))
    : list pystr * exn (list (pystr * Citation)) :=
  match search_results with
  | [] => (rag_context, Ok unique_citations)
  | result :: rest =>
      match rank_step clean_query file_names rag_context unique_citations
              result with
      | (rag_context, Ok unique_citations) =>
          rank_loop clean_query file_names rest rag_context unique_citations
      | (rag_context, Raise e) => (rag_context, Raise e)
      end
  end.

(** The citations of a chat turn: [[]] when the loop raised (the enclosing
    [try] of [chat] catches it), the sorted values of [unique_citations]
    otherwise. *)
Definition citations (clean_query : pystr) (file_names : gmap (list N) pystr)
    (search_results : list Document) : list Citation :=
  match snd (rank_loop clean_query file_names search_results [] []) with
  | Ok unique_citations => sort_desc (map snd unique_citations)
  | Raise _ => []
  end.

End CitationRanker.

(** [n] is the integer nearest to [x], and the even one when [x] lies
    halfway between two integers: what [round] has to answer. *)
Definition nearest_even (x : Q) (n : Z) : Prop :=
  (Qabs (x - inject_Z n) <= 1 # 2)%Q /\
  ((Qabs (x - inject_Z n) == 1 # 2)%Q -> Z.even n = true).

(** [c1] may come before [c2] in a list in descending order of score. *)
Definition desc (c1 c2 : Citation) : Prop :=
  (relevance_score c2 <= relevance_score c1)%Q.

(** The results that take part in the ranking: those whose content is not
    blank. *)
Definition live (search_results : list Document) : list Document :=
  List.filter (fun r => nonempty (strip (content r))) search_results.

(** The citation [c] kept under the key [k] is the best of the results
    [P] of that file: it carries the score of one of them, and none of them
    scores higher. *)
Definition best_of (score : Document -> exn Q) (P : list Document)
    (k : pystr) (c : Citation) : Prop :=
  file_id c = k /\
  (exists r, r ∈ P /\ fid_of r = k /\ score r = Ok (relevance_score c)) /\
  (forall r s, r ∈ P -> fid_of r = k -> score r = Ok s ->
               (s <= relevance_score c)%Q).

(** What the loop keeps true of [unique_citations] after the results [P]:
    one entry per file of [P], each the best of its file. *)
Definition rank_inv (score : Document -> exn Q) (P : list Document)
    (d : list (pystr * Citation)) : Prop :=
  NoDup (map fst d) /\
  (forall k c, (k, c) ∈ d -> best_of score P k c) /\
  (forall r, r ∈ P -> fid_of r ∈ map fst d) /\
  (forall k, k ∈ map fst d -> exists r, r ∈ P /\ fid_of r = k).

(** Three results over two files; the only result of ["F2"] is blank. *)
Definition three_results : list Document :=
  [{| content := lit "invoice total";
      metadata := {| md_file_id := Some (lit "F1"); md_page := None;
                     md_user_id := None; md_chunk_index := None |};
      distance := 0.5 |};
   {| content := lit "payment due";
      metadata := {| md_file_id := Some (lit "F1"); md_page := None;
                     md_user_id := None; md_chunk_index := None |};
      distance := 1 |};
   {| content := lit "   ";
      metadata := {| md_file_id := Some (lit "F2"); md_page := None;
                     md_user_id := None; md_chunk_index := None |};
      distance := 0.2 |}].

End CitationRanker.

(** ** The completion orchestrator: [LLMService.generate_response] *)

Module LLMService.

Inductive ProviderType :=
| OPENAI | ANTHROPIC | GOOGLE | GROQ | COHERE | MISTRAL | TOGETHER | CUSTOM
| ZAI.

#[global] Instance ProviderType_eq_dec : EqDecision ProviderType.
Proof. solve_decision. Defined.

(** The fields of an [LLMProvider] that [generate_response] reads. *)
Record Provider := {
  provider_type : ProviderType;
  api_key : pystr;
  api_base_url : option pystr
}.

(** The response dictionary; [error_type] is [None] when the key is
    absent. *)
Record Response := {
  content : pystr;
  model : pystr;
  prompt_tokens : Z;
  completion_tokens : Z;
  total_tokens : Z;
  error_type : option pystr
}.

Record Image := { data : list N; mime_type : pystr }.

Record Message := { role : pystr; message_content : pystr }.

(** What an HTTP completion call yields once the body is read: the text
    and the [usage] counts that are present. *)
Record Completion := {
  text : pystr;
  usage_prompt_tokens : option Z;
  usage_completion_tokens : option Z;
  usage_total_tokens : option Z
}.

Definition nl : pystr := [10%N].

Definition _get_default_base_url (t : ProviderType) : pystr :=
  match t with
  | OPENAI => lit "https://api.openai.com/v1"
  | GROQ => lit "https://api.groq.com/openai/v1"
  | TOGETHER => lit "https://api.together.xyz/v1"
  | MISTRAL => lit "https://api.mistral.ai/v1"
  | ZAI => lit "https://api.z.ai/api/paas/v4"
  | _ => []
  end.

(** The content of the quota response of [_generate_google]. *)
Definition quota_message : pystr :=
  ([
     9888; 65039; 32; 42; 42; 81; 117; 111; 116; 97; 32; 69; 120; 99; 101;
     101; 100; 101; 100; 32; 40; 71; 111; 111; 103; 108; 101; 32; 65; 73;
     41; 42; 42; 58; 32; 3586; 3629; 3629; 3616; 3633; 3618; 3588; 3619;
     3633; 3610; 32; 3650; 3588; 3623; 3605; 3634; 3585; 3634; 3619; 3651;
     3594; 3657; 3591; 3634; 3609; 3615; 3619; 3637; 3586; 3629; 3591; 32;
     71; 111; 111; 103; 108; 101; 32; 65; 73; 32; 3586; 3629; 3591; 3588;
     3640; 3603; 3648; 3605; 3655; 3617; 3649; 3621; 3657; 3623; 3651;
     3609; 3586; 3603; 3632; 3609; 3637; 3657; 32; 3650; 3611; 3619; 3604;
     3619; 3629; 3626; 3633; 3585; 3588; 3619; 3641; 3656; 32; 40; 3611;
     3619; 3632; 3617; 3634; 3603; 32; 49; 32; 3609; 3634; 3607; 3637; 41;
     32; 3627; 3619; 3639; 3629; 3621; 3629; 3591; 3648; 3611; 3621; 3637;
     3656; 3618; 3609; 3652; 3611; 3651; 3594; 3657; 32; 80; 114; 111;
     118; 105; 100; 101; 114; 32; 3619; 3634; 3618; 3629; 3639; 3656;
     3609; 3651; 3609; 3648; 3617; 3609; 3641; 3648; 3621; 3639; 3629;
     3585; 32; 77; 111; 100; 101; 108; 32; 3604; 3657; 3634; 3609; 3610;
     3609; 3588; 3619; 3633; 3610
   ])%N.

Section LLMService.

(** The persona text that opens every prompt, and how an f-string renders
    a provider type. *)
Variable system_prompt : pystr.
Variable provider_type_str : ProviderType -> pystr.

(** The calls that leave the process: the Google SDK ([generate_content],
    then [response.text]), and the HTTP posts with the reading of their
    bodies; arguments: key, (base URL,) model, prompt, images. *)
Variable google_generate_content :
  pystr -> pystr -> pystr -> option (list Image) -> exn pystr.
Variable post_chat_completions :
  pystr -> pystr -> pystr -> pystr -> option (list Image) -> exn Completion.
Variable post_messages :
  pystr -> pystr -> pystr -> option (list Image) -> exn Completion.

Definition _generate_google (api_key model prompt : pystr)
    (prompt_tokens : Z) (images : option (list Image)) : exn Response :=
  try_except
    (response_text <- google_generate_content api_key model prompt images;;
     let completion_tokens := len response_text / 4 in
     Ok {| content := response_text; model := model;
           prompt_tokens := prompt_tokens;
           completion_tokens := completion_tokens;
           total_tokens := prompt_tokens + completion_tokens;
           error_type := None |})
    (fun error_msg =>
       if contains (lit "429") error_msg
          || contains (lit "RESOURCE_EXHAUSTED") error_msg
       then Ok {| content := quota_message; model := model;
                  prompt_tokens := prompt_tokens;
                  completion_tokens := 0;
                  total_tokens := prompt_tokens;
                  error_type := Some (lit "quota_exceeded") |}
       else Raise error_msg).

Definition _generate_openai_compatible (api_key base_url model prompt : pystr)
    (prompt_tokens : Z) (images : option (list Image)) : exn Response :=
  data <- post_chat_completions api_key base_url model prompt images;;
  Ok {| content := text data; model := model;
        prompt_tokens := default prompt_tokens (usage_prompt_tokens data);
        completion_tokens :=
          default (len (text data) / 4) (usage_completion_tokens data);
        total_tokens :=
          default (prompt_tokens + len (text data) / 4)
            (usage_total_tokens data);
        error_type := None |}.

Definition _generate_anthropic (api_key model prompt : pystr)
    (prompt_tokens : Z) (images : option (list Image)) : exn Response :=
  data <- post_messages api_key model prompt images;;
  Ok {| content := text data; model := model;
        prompt_tokens := default prompt_tokens (usage_prompt_tokens data);
        completion_tokens :=
          default (len (text data) / 4) (usage_completion_tokens data);
        total_tokens :=
          default 0 (usage_prompt_tokens data)
          + default 0 (usage_completion_tokens data);
        error_type := None |}.

Definition context_section (context : option (list pystr)) : pystr :=
  match context with
  | Some (c :: cs) =>
      nl ++ nl ++ lit "=== DOCUMENT CONTEXT ===" ++ nl
      ++ join (nl ++ lit "---" ++ nl) (c :: cs)
      ++ nl ++ lit "========================" ++ nl
  | Some [] | None => []
  end.

Definition history_line (msg : Message) : pystr :=
  (if bool_decide (role msg = lit "user") then lit "User"
   else lit "Assistant") ++ lit ": " ++ message_content msg ++ nl.

Definition history_section (history : option (list Message)) : pystr :=
  match history with
  | Some (m :: ms) =>
      nl ++ nl ++ lit "=== RECENT CONVERSATION HISTORY ===" ++ nl
      ++ concat (map history_line
                   (drop (length (m :: ms) - 8) (m :: ms)))
      ++ lit "==================================" ++ nl
  | Some [] | None => []
  end.

Definition full_prompt (message : pystr) (context : option (list pystr))
    (history : option (list Message)) : pystr :=
  system_prompt ++ context_section context ++ history_section history
  ++ nl ++ nl ++ lit "USER QUESTION: " ++ message ++ nl ++ nl
  ++ lit "SYNAI ASSISTANT:".

(** The body of the [try] of [generate_response]: the delegated call. *)
Definition delegate (provider : Provider) (model full_prompt : pystr)
    (prompt_tokens : Z) (images : option (list Image)) : exn Response :=
  match provider_type provider with
  | GOOGLE =>
      _generate_google (api_key provider) model full_prompt prompt_tokens
        images
  | OPENAI | GROQ | TOGETHER | MISTRAL | CUSTOM | ZAI =>
      let base_url :=
        match api_base_url provider with
        | Some (c :: u) => c :: u
        | Some [] | None => _get_default_base_url (provider_type provider)
        end in
      if negb (nonempty base_url)
         && bool_decide (provider_type provider = CUSTOM)
      then Raise (lit "Custom provider requires a Base URL")
      else _generate_openai_compatible (api_key provider) base_url model
             full_prompt prompt_tokens images
  | ANTHROPIC =>
      _generate_anthropic (api_key provider) model full_prompt prompt_tokens
        images
  | COHERE =>
      Raise (lit "Provider " ++ provider_type_str (provider_type provider)
             ++ lit " is not yet implemented in LLMService")
  end.

(** The response of the [except] branch: U+274C, then [" **Error**: "] and
    the text of the exception. *)
Definition error_response (model : pystr) (prompt_tokens : Z)
    (error_text : pystr) : Response :=
  {| content := [10060%N] ++ lit " **Error**: " ++ error_text;
     model := model;
     prompt_tokens := prompt_tokens;
     completion_tokens := 0;
     total_tokens := prompt_tokens;
     error_type := None |}.

Definition generate_response (message : pystr) (provider : Provider)
    (model : pystr) (context : option (list pystr))
    (history : option (list Message)) (images : option (list Image))
    : exn Response :=
  let full_prompt := full_prompt message context history in
  let prompt_tokens := len full_prompt / 4 in
  try_except
    (delegate provider model full_prompt prompt_tokens images)
    (fun error_text => Ok (error_response model prompt_tokens error_text)).

End LLMService.

(** Providers and remote calls for the examples. *)
Definition openai_provider : Provider :=
  {| provider_type := OPENAI; api_key := lit "sk-test";
     api_base_url := None |}.

Definition google_provider : Provider :=
  {| provider_type := GOOGLE; api_key := lit "g-test";
     api_base_url := None |}.

Definition post_fails (api_key base_url model prompt : pystr)
    (images : option (list Image)) : exn Completion :=
  Raise (lit "Server error '500 Internal Server Error'").

Definition messages_fail (api_key model prompt : pystr)
    (images : option (list Image)) : exn Completion :=
  Raise (lit "timed out").

Definition google_quota (api_key model prompt : pystr)
    (images : option (list Image)) : exn pystr :=
  Raise (lit "429 RESOURCE_EXHAUSTED").

Definition google_down (api_key model prompt : pystr)
    (images : option (list Image)) : exn pystr :=
  Raise (lit "503 UNAVAILABLE").

Definition provider_type_name (t : ProviderType) : pystr :=
  lit "ProviderType." ++
  match t with
  | OPENAI => lit "OPENAI" | ANTHROPIC => lit "ANTHROPIC"
  | GOOGLE => lit "GOOGLE" | GROQ => lit "GROQ" | COHERE => lit "COHERE"
  | MISTRAL => lit "MISTRAL" | TOGETHER => lit "TOGETHER"
  | CUSTOM => lit "CUSTOM" | ZAI => lit "ZAI"
  end.

End LLMService.

(** ** More about the chunker *)

Module ChunkerMore.

(** The chunks put back together: the first chunk, then every later chunk
    without its first [overlap] characters. *)
Definition reassemble (overlap : Z) (chunks : list pystr) : pystr :=
  match chunks with
  | [] => []
  | c :: rest => c ++ concat (map (drop (Z.to_nat overlap)) rest)
  end.

(** Every whitespace character is followed by a character that is not
    whitespace. *)
Fixpoint well_spaced (l : pystr) : bool :=
  match l with
  | [] => true
  | c :: l' =>
      (if is_space c
       then match l' with
            | c' :: _ => negb (is_space c')
            | [] => false
            end
       else true)
      && well_spaced l'
  end.

(** Some character is not whitespace. *)
Definition has_text (l : pystr) : bool :=
  existsb (fun c => negb (is_space c)) l.

(** A word of [split]: not empty, and without whitespace. *)
Definition is_word (w : pystr) : Prop :=
  w <> [] /\ Forall (fun c => is_space c = false) w.

(** What the loop keeps true: the chunks so far reassemble to the text up
    to the right edge of the last window. *)
Definition covers (t : pystr) (overlap start : Z) (acc : list pystr) : Prop :=
  (acc = [] /\ start = 0) \/
  (acc <> [] /\
   reassemble overlap acc
   = take (Z.to_nat (Z.min (start + overlap) (len t))) t).

End ChunkerMore.

Import ChunkerMore.

(** ** More of the vector service: text extraction and
    [VectorService.delete_document] *)

Module VectorServiceMore.

Import VectorService.

(** [s.split(c, 1)] when [c] occurs in [s]: what is before and what is
    after its first occurrence; [None] when [c] does not occur. *)
Fixpoint split_once (c : N) (s : pystr) : option (pystr * pystr) :=
  match s with
  | [] => None
  | x :: s' =>
      if (x =? c)%N then Some ([], s')
      else match split_once c s' with
           | Some (a, b) => Some (x :: a, b)
           | None => None
           end
  end.

(** What follows the last occurrence of [c] in [s], when there is one. *)
Fixpoint after_last (c : N) (s : pystr) : option pystr :=
  match s with
  | [] => None
  | x :: s' =>
      match after_last c s' with
      | Some r => Some r
      | None => if (x =? c)%N then Some s' else None
      end
  end.

(** [s.rsplit(c, 1)[-1]] *)
Definition rsplit_last (c : N) (s : pystr) : pystr :=
  default s (after_last c s).

(** The encodings that [_extract_with_metadata] tries, in order. *)
Definition encodings : list pystr :=
  [lit "utf-8"; lit "latin-1"; lit "cp1252"].

Definition text_unit (content : pystr) : ContentObject :=
  {| co_text := content; co_page := None; co_page_label := None |}.

Section Extraction.

Variable lower : pystr -> pystr.

(** The file system and the document readers: [open(path, "r",
    encoding=enc).read()]; [PdfReader(path).pages], each page with the
    outcome of its [extract_text()]; the texts of the paragraphs of
    [Document(path)]. *)
Variable read_text : pystr -> pystr -> exn pystr.
Variable pdf_pages : pystr -> exn (list (exn (option pystr))).
Variable docx_paragraphs : pystr -> exn (list pystr).

(** The loop of [_extract_pdf_pages] over [enumerate(reader.pages)]. *)
Fixpoint pdf_loop (i : nat) (ps : list (exn (option pystr)))
    (pages : list ContentObject) : exn (list ContentObject) :=
  match ps with
  | [] => Ok pages
  | p :: rest =>
      text <- p;;
      match text with
      | Some t =>
          if nonempty t && nonempty (strip t) then
            pdf_loop (S i) rest
              (pages ++ [{| co_text := t;
                            co_page := Some (Z.of_nat i + 1);
                            co_page_label :=
                              Some (lit "Page "
                                    ++ lit (pretty (Z.of_nat i + 1))) |}])
          else pdf_loop (S i) rest pages
      | None => pdf_loop (S i) rest pages
      end
  end.

Definition _extract_pdf_pages (file_path : pystr) : list ContentObject :=
  match (ps <- pdf_pages file_path;; pdf_loop 0 ps []) with
  | Ok pages => pages
  | Raise _ => []
  end.

Definition _extract_docx (file_path : pystr) : pystr :=
  match docx_paragraphs file_path with
  | Ok paragraphs => concat (map (fun para => para ++ [10%N]) paragraphs)
  | Raise _ => []
  end.

(** The loop over the encodings of the plain text branch. *)
Fixpoint read_as_text (file_path : pystr) (encs : list pystr)
    : list ContentObject :=
  match encs with
  | [] => []
  | encoding :: rest =>
      match read_text file_path encoding with
      | Ok content =>
          if contains [0%N] (slice content 0 1024)
          then read_as_text file_path rest
          else [text_unit content]
      | Raise _ => read_as_text file_path rest
      end
  end.

Definition _extract_with_metadata (file_path : pystr) : list ContentObject :=
  let ext := lower (rsplit_last 46 file_path) in
  if bool_decide (ext = lit "pdf") then _extract_pdf_pages file_path
  else if bool_decide (ext = lit "docx")
  then [text_unit (_extract_docx file_path)]
  else read_as_text file_path encodings.

End Extraction.

Section Delete.

Variable Collection : Type.

(** [collection.delete(where=...)] *)
Variable chroma_delete : Collection -> Where -> exn Collection.

(** [delete_document] returns nothing; this is the client as it leaves
    it. *)
Definition delete_document (client : option (gmap (list N) Collection))
    (vector_id : option pystr) : option (gmap (list N) Collection) :=
  match vector_id with
  | None => client
  | Some vector_id =>
      match split_once 58 vector_id with
      | None => client
      | Some (collection_name, file_id) =>
          match client with
          | None => None
          | Some client =>
              match get_collection Collection client collection_name with
              | Ok collection =>
                  match chroma_delete collection (WhereEq file_id) with
                  | Ok collection =>
                      Some (<[collection_name := collection]> client)
                  | Raise _ => Some client
                  end
              | Raise _ => Some client
              end
          end
      end
  end.

End Delete.

(** The units of a PDF whose pages all gave their text: one per page with
    text that is not blank, numbered from 1. *)
Fixpoint pdf_units (i : nat) (ps : list (exn (option pystr)))
    : list ContentObject :=
  match ps with
  | [] => []
  | p :: rest =>
      match p with
      | Ok (Some t) =>
          if nonempty (strip t)
          then {| co_text := t; co_page := Some (Z.of_nat i + 1);
                  co_page_label :=
                    Some (lit "Page " ++ lit (pretty (Z.of_nat i + 1))) |}
               :: pdf_units (S i) rest
          else pdf_units (S i) rest
      | _ => pdf_units (S i) rest
      end
  end.

Definition is_ok {A} (x : exn A) : Prop :=
  match x with Ok _ => True | Raise _ => False end.

(** What holds of a unit of a PDF with the pages [ps]: its page number is
    beyond [lo], its label and text are those of that page. *)
Definition pdf_unit_ok (ps : list (exn (option pystr))) (lo : Z)
    (u : ContentObject) : Prop :=
  exists page_no : Z,
    co_page u = Some page_no /\ lo < page_no <= length_Z ps /\
    co_page_label u = Some (lit "Page " ++ lit (pretty page_no)) /\
    page_of u = lit "Page " ++ lit (pretty page_no) /\
    ps !! Z.to_nat (page_no - 1) = Some (Ok (Some (co_text u))) /\
    has_text (co_text u) = true.

(** The page of [u] comes before the page of [v]. *)
Definition page_before (u v : ContentObject) : Prop :=
  match co_page u, co_page v with
  | Some a, Some b => a < b
  | _, _ => False
  end.

(** The encoding gives no text: the read fails, or what it reads has a NUL
    among its first 1024 characters. *)
Definition rejected (read_text : pystr -> pystr -> exn pystr)
    (file_path encoding : pystr) : Prop :=
  match read_text file_path encoding with
  | Ok content => contains [0%N] (slice content 0 1024) = true
  | Raise _ => True
  end.


(** A store for the examples: a file that cannot be read as text, and a
    PDF of three pages, the second one blank. *)
Definition unreadable (file_path encoding : pystr) : exn pystr :=
  if bool_decide (encoding = lit "utf-8")
  then Raise (lit "invalid start byte")
  else Ok (lit "PK" ++ [0%N; 3%N; 4%N]).

Definition three_pages (file_path : pystr)
    : exn (list (exn (option pystr))) :=
  Ok [Ok (Some (lit "invoice total $500")); Ok (Some (lit "  "));
      Ok (Some (lit "payment due March 1"))].

Definition no_paragraphs (file_path : pystr) : exn (list pystr) :=
  Raise (lit "not a docx").

(** [add] with the validation of ChromaDB, which refuses an empty list
    of ids. *)
Definition strict_add (c : ListStore.Collection) (documents ids : list pystr)
    (metadatas : list Metadata) : exn ListStore.Collection :=
  if nonempty ids then ListStore.add c documents ids metadatas
  else Raise (lit "Expected IDs to be a non-empty list, got 0 IDs").

(** A store that cannot be reached. *)
Definition unreachable_store (existing : option ListStore.Collection)
    (name user_id : pystr) : exn ListStore.Collection :=
  Raise (lit "Could not connect to a Chroma server").

(** A list-backed [delete]: the rows of the file go. *)
Definition list_delete (c : ListStore.Collection) (w : Where)
    : exn ListStore.Collection :=
  Ok (List.filter (fun row => negb (ListStore.passes (Some w) row)) c).

End VectorServiceMore.

(** ** More of the chat endpoints: the query, the fan-out over the files
    and the merge of [chat], the citations of [chat_with_file] *)

Module ChatMore.

Import VectorService CitationRanker.

(** ["\n\n📎 Attached:"] and ["\n\n📤 Uploaded:"] *)
Definition attached_marker : pystr :=
  [10; 10; 128206]%N ++ lit " Attached:".

Definition uploaded_marker : pystr :=
  [10; 10; 128228]%N ++ lit " Uploaded:".

(** [s.split(sep)[0]] for a separator that is not empty: what comes
    before the first occurrence of [sep], all of [s] when there is none. *)
Fixpoint before (sep s : pystr) : pystr :=
  match s with
  | [] => []
  | c :: s' => if startswith sep (c :: s') then [] else c :: before sep s'
  end.

(** [message.split(attached)[0].split(uploaded)[0].strip() or message] *)
Definition clean_query (message : pystr) : pystr :=
  let core :=
    strip (before uploaded_marker (before attached_marker message)) in
  if nonempty core then core else message.

(** [l.sort(key=lambda x: x.get("distance", 1.0))]: ascending, and
    stable. *)
Fixpoint insert_asc (r : Document) (l : list Document) : list Document :=
  match l with
  | [] => [r]
  | x :: l' =>
      if Qlt_le_dec (distance x) (distance r)
      then x :: insert_asc r l'
      else r :: x :: l'
  end.

Definition sort_asc (l : list Document) : list Document :=
  foldr insert_asc [] l.

(** [r1] may come before [r2] in a list in ascending order of distance. *)
Definition closer (r1 r2 : Document) : Prop :=
  (distance r1 <= distance r2)%Q.

(** [max(5, 20 // len(file_ids_str))]; the division raises for no file. *)
Definition results_per_file (file_ids_str : list pystr) : exn Z :=
  match file_ids_str with
  | [] => Raise (lit "integer division or modulo by zero")
  | _ :: _ => Ok (Z.max 5 (20 / length_Z file_ids_str))
  end.

(** [asyncio.gather]: the results in the order of the tasks. *)
Fixpoint gather {A} (tasks : list (exn A)) : exn (list A) :=
  match tasks with
  | [] => Ok []
  | task :: rest => a <- task;; l <- gather rest;; Ok (a :: l)
  end.

(** The sort by distance and the cut to the 20 first. *)
Definition top_results (all_search_results : list (list Document))
    : list Document :=
  take 20 (sort_asc (concat all_search_results)).

(** A new upload of [chat_with_file]: [str(f_obj.id)], the original file
    name and the extracted text. *)
Record Upload := {
  up_id : pystr;
  up_original_filename : pystr;
  up_txt : pystr
}.

(** [max(0.65, round(1.0 / (1.0 + (dist * 0.35)), 3))] *)
Definition upload_score (dist : Q) : exn Q :=
  if Qeq_bool (1.0 + dist * 0.35) 0
  then Raise (lit "float division by zero")
  else Ok (Qmax 0.65 (round3 (1.0 / (1.0 + dist * 0.35)))).

(** The loop over the new uploads: each one enters the context and is
    cited at 0.99. *)
Fixpoint seed_uploads (results : list Upload) (rag_context : list pystr)
    (unique_citations : list (pystr * Citation))
    : list pystr * list (pystr * Citation) :=
  match results with
  | [] => (rag_context, unique_citations)
  | f_obj :: rest =>
      seed_uploads rest
        (rag_context
         ++ [lit "[SOURCE: " ++ up_original_filename f_obj
             ++ lit ", PAGE: 1]" ++ [10%N] ++ slice (up_txt f_obj) 0 10000])
        (dict_set (up_id f_obj)
           {| source := up_original_filename f_obj;
              file_id := up_id f_obj;
              page := lit "1";
              preview := slice (up_txt f_obj) 0 200 ++ lit "...";
              relevance_score := 0.99 |}
           unique_citations)
  end.

(** The loop over the results of one other file. *)
Fixpoint file_results (fname fid : pystr) (r_list : list Document)
    (rag_context : list pystr) (unique_citations : list (pystr * Citation))
    : exn (list pystr * list (pystr * Citation)) :=
  match r_list with
  | [] => Ok (rag_context, unique_citations)
  | res :: rest =>
      let chunk := strip (content res) in
      if nonempty chunk then
        let p := default (lit "1") (md_page (metadata res)) in
        let rag_context :=
          rag_context ++ [lit "[SOURCE: " ++ fname ++ lit ", PAGE: " ++ p
                          ++ lit "]" ++ [10%N] ++ chunk] in
        score <- upload_score (distance res);;
        if match dict_get fid unique_citations with
           | None => true
           | Some c =>
               if Qlt_le_dec (relevance_score c) score then true else false
           end
        then file_results fname fid rest rag_context
               (dict_set fid
                  {| source := fname; file_id := fid; page := p;
                     preview := slice chunk 0 200 ++ lit "...";
                     relevance_score := score |}
                  unique_citations)
        else file_results fname fid rest rag_context unique_citations
      else file_results fname fid rest rag_context unique_citations
  end.

(** The loop over [enumerate(s_results)]: [other] is what is left of
    [other_list] from the current index on. *)
Fixpoint other_files (file_map : gmap (list N) pystr) (other : list pystr)
    (s_results : list (list Document)) (rag_context : list pystr)
    (unique_citations : list (pystr * Citation)) {struct s_results}
    : exn (list pystr * list (pystr * Citation)) :=
  match s_results with
  | [] => Ok (rag_context, unique_citations)
  | r_list :: s_rest =>
      match other with
      | [] => Raise (lit "list index out of range")
      | fid :: o_rest =>
          match file_map !! fid with
          | None =>
              other_files file_map o_rest s_rest rag_context unique_citations
          | Some fname =>
              st <- file_results fname fid r_list rag_context
                      unique_citations;;
              other_files file_map o_rest s_rest (fst st) (snd st)
          end
      end
  end.

Section Chat.

Variable HAS_PYTHAINLP : bool.
Variable word_tokenize : pystr -> list pystr.
Variable lower : pystr -> pystr.
Variable Collection : Type.
Variable chroma_query :
  Collection -> pystr -> Z -> option Where -> exn QueryResult.
Variable chroma_get : Collection -> option Where -> Z -> exn GetResult.

Local Abbreviation search :=
  (search HAS_PYTHAINLP word_tokenize lower Collection chroma_query
     chroma_get).

(** The searches of [chat], one per indexed file, and their merge. *)
Definition retrieve (client : option (gmap (list N) Collection))
    (user_id clean_query : pystr) (file_ids_str : list pystr)
    : exn (list Document) :=
  results_per_file <- results_per_file file_ids_str;;
  all_search_results <-
    gather (map (fun fid => search client user_id clean_query
                              results_per_file (Some [fid]))
              file_ids_str);;
  Ok (top_results all_search_results).

(** The retrieval part of [chat], from the cleaning of the query to the
    sorted citations: the context and the citations with which the turn
    goes on. An exception leaves the citations empty and the context as it
    was when it was raised. *)
Definition chat_rag (file_names : gmap (list N) pystr)
    (client : option (gmap (list N) Collection))
    (user_id message : pystr) (file_ids_str : list pystr)
    : list pystr * list Citation :=
  let clean_query := clean_query message in
  match retrieve client user_id clean_query file_ids_str with
  | Raise _ => ([], [])
  | Ok search_results =>
      match rank_loop lower clean_query file_names search_results [] [] with
      | (rag_context, Ok unique_citations) =>
          (rag_context, sort_desc (map snd unique_citations))
      | (rag_context, Raise _) => (rag_context, [])
      end
  end.

(** The context and the citations of [chat_with_file]: [final_fids] is
    [set(file_map.keys())] in the order in which it is iterated. *)
Definition upload_citations (file_map : gmap (list N) pystr)
    (final_fids : list pystr)
    (client : option (gmap (list N) Collection))
    (user_id message : pystr) (results : list Upload)
    : exn (list pystr * list Citation) :=
  let new_fids_set := map up_id results in
  let clean_query := clean_query message in
  let '(rag_context, unique_citations) := seed_uploads results [] [] in
  let other_list :=
    List.filter (fun fid => negb (bool_decide (fid ∈ new_fids_set)))
      final_fids in
  s_results <-
    gather (map (fun fid => search client user_id clean_query 5
                              (Some [fid])) other_list);;
  st <- other_files file_map other_list s_results rag_context
          unique_citations;;
  Ok (fst st, sort_desc (map snd (snd st))).

End Chat.

(** The citation kept for an upload: under its id, at 0.99, page 1. *)
Definition seeded (id : pystr) (d : list (pystr * Citation)) : Prop :=
  exists c, dict_get id d = Some c /\ file_id c = id
            /\ relevance_score c = 0.99%Q /\ page c = lit "1".

(** Every entry of the dictionary is filed under the id it names and
    scores at least 0.65; no id occurs twice. *)
Definition well_keyed (d : list (pystr * Citation)) : Prop :=
  NoDup (map fst d) /\
  forall k c, (k, c) ∈ d -> file_id c = k /\ (0.65 <= relevance_score c)%Q.


(** The files and the upload of the examples. *)
Definition two_files : gmap (list N) pystr :=
  {[ lit "F1" := lit "old.txt"; lit "N1" := lit "new.txt" ]}.

Definition one_upload : list Upload :=
  [{| up_id := lit "N1"; up_original_filename := lit "new.txt";
      up_txt := lit "fresh text" |}].

End ChatMore.

Import ChatMore.

(** ** More about the completion orchestrator *)

Module LLMServiceMore.

Import LLMService.

(** A custom provider without base URL, and ten messages of history. *)
Definition custom_provider : Provider :=
  {| provider_type := CUSTOM; api_key := lit "k"; api_base_url := None |}.

Definition anthropic_provider : Provider :=
  {| provider_type := ANTHROPIC; api_key := lit "k";
     api_base_url := None |}.

Definition turn (n : nat) : Message :=
  {| role := if Nat.even n then lit "user" else lit "assistant";
     message_content := lit "turn " ++ lit (pretty (Z.of_nat n)) |}.

Definition google_answers (api_key model prompt : pystr)
    (images : option (list Image)) : exn pystr :=
  Ok (lit "The total is $500.").

(** An HTTP answer without [usage]. *)
Definition messages_without_usage (api_key model prompt : pystr)
    (images : option (list Image)) : exn Completion :=
  Ok {| text := lit "The total is $500.";
        usage_prompt_tokens := None;
        usage_completion_tokens := None;
        usage_total_tokens := None |}.

End LLMServiceMore.

(** ** Facts about Python strings *)

Section PyStrFacts.

Lemma len_nonneg (s : pystr) : 0 <= len s.
Proof. unfold len. lia. Qed.

Lemma len_app (s t : pystr) : len (s ++ t) = len s + len t.
Proof. unfold len. rewrite length_app. lia. Qed.

Lemma clamp_range (n i : Z) : 0 <= n -> 0 <= clamp n i <= n.
Proof. intros Hn. unfold clamp. destruct (i <? 0) eqn:E; lia. Qed.

Lemma clamp_nonneg (n i : Z) : 0 <= i -> clamp n i = Z.min i n.
Proof.
  intros Hi. unfold clamp.
  destruct (i <? 0) eqn:E; [apply Z.ltb_lt in E; lia | reflexivity].
Qed.

(** A slice with bounds [0 <= start <= stop] has at most [stop - start]
    characters. *)
Lemma slice_len (s : pystr) (start stop : Z) :
  0 <= start -> start <= stop -> len (slice s start stop) <= stop - start.
Proof.
  intros H0 H1. unfold slice, len.
  rewrite length_take, length_drop.
  rewrite !clamp_nonneg by lia. fold (len s).
  pose proof (len_nonneg s). unfold len in *. lia.
Qed.

Lemma lstrip_length (s : pystr) : (length (lstrip s) <= length s)%nat.
Proof.
  induction s as [|c s IH]; simpl; [lia|].
  destruct (is_space c); simpl; lia.
Qed.

Lemma rstrip_length (s : pystr) : (length (rstrip s) <= length s)%nat.
Proof.
  unfold rstrip. rewrite length_rev.
  etransitivity; [apply lstrip_length|]. by rewrite length_rev.
Qed.

Lemma lstrip_snoc_space (s : pystr) :
  lstrip (s ++ [space]) = [] \/
  exists s', lstrip (s ++ [space]) = s' ++ [space]
             /\ (length s' <= length s)%nat.
Proof.
  induction s as [|c s IH]; simpl.
  - by left.
  - destruct (is_space c) eqn:E.
    + destruct IH as [IH | (s' & Hs' & Hl)]; [by left|].
      right. exists s'. split; [done | lia].
    + right. exists (c :: s). split; [done | simpl; lia].
Qed.

Lemma rstrip_snoc_space (s : pystr) : rstrip (s ++ [space]) = rstrip s.
Proof. unfold rstrip. by rewrite rev_app_distr. Qed.

(** Stripping a string that ends with the space the packing loop adds
    gives at most the characters before that space. *)
Lemma strip_snoc_space_len (s : pystr) : len (strip (s ++ [space])) <= len s.
Proof.
  unfold strip, len.
  destruct (lstrip_snoc_space s) as [-> | (s' & -> & Hl)].
  - simpl. lia.
  - rewrite rstrip_snoc_space. pose proof (rstrip_length s'). lia.
Qed.

(** [rfind_down] answers [-1] or an index of the range. *)
Lemma rfind_down_range (c : N) (s : pystr) (a k : nat) :
  rfind_down c s a k = -1 \/
  Z.of_nat a <= rfind_down c s a k < Z.of_nat a + Z.of_nat k.
Proof.
  induction k as [|k IH]; simpl; [by left|].
  destruct (s !! (a + k)%nat) as [c'|] eqn:E.
  - destruct (c' =? c)%N; [right; lia | destruct IH; [by left | right; lia]].
  - destruct IH; [by left | right; lia].
Qed.

(** The index it answers holds [c], and no later index of the range does. *)
Lemma rfind_down_found (c : N) (s : pystr) (a k : nat) :
  rfind_down c s a k <> -1 ->
  s !! Z.to_nat (rfind_down c s a k) = Some c /\
  forall j : nat, rfind_down c s a k < Z.of_nat j < Z.of_nat a + Z.of_nat k ->
                  s !! j <> Some c.
Proof.
  induction k as [|k IH]; simpl; [done|].
  destruct (s !! (a + k)%nat) as [c'|] eqn:E.
  - destruct (c' =? c)%N eqn:Ec.
    + intros _. apply N.eqb_eq in Ec. subst c'.
      rewrite Nat2Z.id. split; [done | intros j Hj; lia].
    + intros Hne. destruct (IH Hne) as [Hs Hl]. split; [done|].
      intros j Hj. destruct (decide (j = (a + k)%nat)) as [-> | Hjk].
      * rewrite E. intros [= ->]. by rewrite N.eqb_refl in Ec.
      * apply Hl. lia.
  - intros Hne. destruct (IH Hne) as [Hs Hl]. split; [done|].
    intros j Hj. destruct (decide (j = (a + k)%nat)) as [-> | Hjk].
    + by rewrite E.
    + apply Hl. lia.
Qed.

(** When it answers [-1] the range holds no [c]. *)
Lemma rfind_down_none (c : N) (s : pystr) (a k : nat) :
  rfind_down c s a k = -1 ->
  forall j : nat, (a <= j < a + k)%nat -> s !! j <> Some c.
Proof.
  induction k as [|k IH]; simpl; [intros _ j Hj; lia|].
  destruct (s !! (a + k)%nat) as [c'|] eqn:E.
  - destruct (c' =? c)%N eqn:Ec; [lia|].
    intros Hm j Hj. destruct (decide (j = (a + k)%nat)) as [-> | Hjk].
    + rewrite E. intros [= ->]. by rewrite N.eqb_refl in Ec.
    + apply IH; [done | lia].
  - intros Hm j Hj. destruct (decide (j = (a + k)%nat)) as [-> | Hjk].
    + by rewrite E.
    + apply IH; [done | lia].
Qed.

Lemma rfind_range (c : N) (s : pystr) (start stop : Z) :
  rfind c s start stop = -1 \/
  clamp (len s) start <= rfind c s start stop < clamp (len s) stop.
Proof.
  unfold rfind.
  pose proof (clamp_range (len s) start (len_nonneg s)).
  pose proof (clamp_range (len s) stop (len_nonneg s)).
  destruct (rfind_down_range c s (Z.to_nat (clamp (len s) start))
              (Z.to_nat (clamp (len s) stop - clamp (len s) start)))
    as [E | E]; [by left | right; lia].
Qed.

Lemma join_cons_length (sep w : pystr) (l : list pystr) :
  (length (join sep (w :: l)) <= length w + length sep + length (join sep l))%nat.
Proof.
  destruct l as [|w' l]; simpl; [lia|].
  rewrite !length_app. lia.
Qed.

Lemma split_from_join_length (cur s : pystr) :
  (length (join [space] (split_from cur s)) <= length cur + length s)%nat.
Proof.
  revert cur. induction s as [|c s IH]; intros cur; simpl.
  - destruct cur; simpl; [lia|]. rewrite length_app, length_rev. simpl. lia.
  - destruct (is_space c).
    + destruct cur as [|x cur]; simpl nonempty; cbv iota.
      * specialize (IH []). simpl in *. lia.
      * etransitivity; [apply join_cons_length|].
        specialize (IH []). rewrite length_rev. simpl in *. lia.
    + specialize (IH (c :: cur)). simpl in *. lia.
Qed.

End PyStrFacts.
(** ** Facts about the chunker *)

Section ChunkerFacts.

Import Chunker.

Lemma window_end_cases (text : pystr) (chunk_size start : Z) :
  (backs_off text chunk_size start /\
   window_end text chunk_size start
   = rfind space text start (start + chunk_size)) \/
  (~ backs_off text chunk_size start /\
   window_end text chunk_size start = start + chunk_size).
Proof.
  unfold backs_off, window_end. cbv zeta.
  destruct (start + chunk_size <? len text) eqn:E1.
  - apply Z.ltb_lt in E1.
    destruct (rfind space text start (start + chunk_size) =? -1) eqn:E2;
      simpl.
    + apply Z.eqb_eq in E2. right. split; [tauto | done].
    + apply Z.eqb_neq in E2.
      destruct (start + chunk_size / 2
                <? rfind space text start (start + chunk_size)) eqn:E3.
      * apply Z.ltb_lt in E3. by left.
      * apply Z.ltb_ge in E3. right. split; [lia | done].
  - apply Z.ltb_ge in E1. right. split; [lia | done].
Qed.

Lemma window_end_lower (text : pystr) (chunk_size start : Z) :
  0 < chunk_size ->
  start + chunk_size / 2 < window_end text chunk_size start.
Proof.
  intros Hcs.
  assert (chunk_size / 2 < chunk_size) by (apply Z.div_lt; lia).
  destruct (window_end_cases text chunk_size start)
    as [[(_ & _ & H3) ->] | [_ ->]]; lia.
Qed.

Lemma window_end_upper (text : pystr) (chunk_size start : Z) :
  0 <= start -> 0 <= chunk_size ->
  window_end text chunk_size start <= start + chunk_size.
Proof.
  intros Hs Hcs.
  destruct (window_end_cases text chunk_size start)
    as [[(_ & Hne & _) ->] | [_ ->]]; [|lia].
  destruct (rfind_range space text start (start + chunk_size)) as [E | E];
    [done|].
  rewrite (clamp_nonneg _ (start + chunk_size)) in E by lia. lia.
Qed.

(** Every step moves the window start forward when the overlap is at most
    half of the chunk size. *)
Lemma next_start_progress (text : pystr) (chunk_size overlap start : Z) :
  0 < chunk_size -> overlap <= chunk_size / 2 ->
  start < next_start text chunk_size overlap start.
Proof.
  intros Hcs Hov. unfold next_start.
  pose proof (window_end_lower text chunk_size start Hcs). lia.
Qed.

(** With such parameters the loop returns, with any fuel above the distance
    of [start] to the end of the text. *)
Lemma split_loop_terminates (text : pystr) (chunk_size overlap : Z) :
  0 < chunk_size -> overlap <= chunk_size / 2 ->
  forall (n : nat) (start : Z) (chunks : list pystr),
    len text - start <= Z.of_nat n ->
    exists r, forall k : nat,
      split_loop (S n + k) text chunk_size overlap start chunks = Some r.
Proof.
  intros Hcs Hov. induction n as [|n IH]; intros start chunks Hn.
  - exists chunks. intros k. simpl.
    destruct (start <? len text) eqn:E; [apply Z.ltb_lt in E; lia | done].
  - destruct (start <? len text) eqn:E.
    + pose proof (next_start_progress text chunk_size overlap start Hcs Hov).
      destruct (IH (next_start text chunk_size overlap start)
                  (if nonempty (strip (slice text start
                                         (window_end text chunk_size start)))
                   then chunks ++ [slice text start
                                     (window_end text chunk_size start)]
                   else chunks)) as [r Hr]; [lia|].
      exists r. intros k.
      change (S (S n) + k)%nat with (S (S n + k)).
      cbn [split_loop]. rewrite E. cbv zeta. apply Hr.
    + exists chunks. intros k. simpl. by rewrite E.
Qed.

(** No chunk the loop adds is longer than the chunk size. *)
Lemma split_loop_bounded (text : pystr) (chunk_size overlap : Z) :
  0 < chunk_size -> overlap <= chunk_size / 2 ->
  forall (fuel : nat) (start : Z) (chunks r : list pystr),
    0 <= start ->
    Forall (fun c => len c <= chunk_size) chunks ->
    split_loop fuel text chunk_size overlap start chunks = Some r ->
    Forall (fun c => len c <= chunk_size) r.
Proof.
  intros Hcs Hov. induction fuel as [|fuel IH];
    intros start chunks r Hs Hall; simpl; [done|].
  destruct (start <? len text) eqn:E; [|by intros [= <-]].
  apply IH.
  - pose proof (next_start_progress text chunk_size overlap start Hcs Hov).
    lia.
  - destruct (nonempty _); [|done].
    apply Forall_app. split; [done|]. apply Forall_singleton.
    pose proof (window_end_lower text chunk_size start Hcs).
    pose proof (window_end_upper text chunk_size start Hs ltac:(lia)).
    assert (0 <= chunk_size / 2) by (apply Z.div_pos; lia).
    pose proof (slice_len text start (window_end text chunk_size start)
                  Hs ltac:(lia)).
    lia.
Qed.

Lemma normalize_length (text : pystr) :
  (length (normalize text) <= length text)%nat.
Proof.
  unfold normalize, split.
  etransitivity; [apply split_from_join_length | simpl; lia].
Qed.

(** The default mode returns with [enough_fuel]. *)
Lemma split_default_terminates (text : pystr) (chunk_size overlap : Z) :
  0 < chunk_size -> overlap <= chunk_size / 2 ->
  exists r, forall k : nat,
    split_default (enough_fuel text + k) text chunk_size overlap = Some r.
Proof.
  intros Hcs Hov. unfold split_default, enough_fuel.
  destruct (split_loop_terminates (normalize text) chunk_size overlap Hcs Hov
              (length (normalize text)) 0 []) as [r Hr].
  { unfold len. lia. }
  exists r. intros k.
  pose proof (normalize_length text) as Hl.
  replace (S (length text) + k)%nat
    with (S (length (normalize text))
          + (length text - length (normalize text) + k))%nat by lia.
  apply Hr.
Qed.

Lemma pack_sentences_ok (chunk_size : Z) (all : list pystr) :
  forall (sentences : list pystr) (current_chunk : pystr)
         (chunks : list pystr),
    sentences ⊆ all ->
    Forall (thai_chunk_ok chunk_size all) chunks ->
    current_chunk = [] \/ thai_chunk_ok chunk_size all (strip current_chunk) ->
    let '(chunks', current') :=
      pack_sentences chunk_size sentences current_chunk chunks in
    Forall (thai_chunk_ok chunk_size all) chunks' /\
    (current' = [] \/ thai_chunk_ok chunk_size all (strip current')).
Proof.
  induction sentences as [|sent rest IH]; intros cur chunks Hsub Hall Hcur;
    simpl; [done|].
  assert (Hrest : rest ⊆ all).
  { intros x Hx. apply Hsub. by apply list_elem_of_further. }
  assert (Hin : sent ∈ all).
  { apply Hsub. by apply list_elem_of_here. }
  destruct (len cur + len sent <=? chunk_size) eqn:E.
  - apply Z.leb_le in E. apply IH; [done | done |].
    right. left. rewrite app_assoc.
    pose proof (strip_snoc_space_len (cur ++ sent)).
    rewrite len_app in *. lia.
  - apply Z.leb_gt in E. apply IH; [done | |].
    + destruct cur as [|x cur]; simpl nonempty; cbv iota; [done|].
      apply Forall_app. split; [done|]. apply Forall_singleton.
      by destruct Hcur.
    + right. destruct (Z_le_gt_dec (len sent) chunk_size) as [Hle | Hgt].
      * left. pose proof (strip_snoc_space_len sent). lia.
      * right. exists sent. repeat split; [done | lia].
Qed.

Lemma split_thai_ok (sent_tokenize : pystr -> list pystr) (text : pystr)
    (chunk_size : Z) :
  Forall (thai_chunk_ok chunk_size (sent_tokenize text))
    (split_thai sent_tokenize text chunk_size).
Proof.
  unfold split_thai.
  pose proof (pack_sentences_ok chunk_size (sent_tokenize text)
                (sent_tokenize text) [] []) as H.
  destruct (pack_sentences chunk_size (sent_tokenize text) [] [])
    as [chunks cur].
  destruct H as [Hall Hcur]; [done | done | by left |].
  destruct cur as [|x cur]; simpl nonempty; cbv iota; [done|].
  apply Forall_app. split; [done|]. apply Forall_singleton.
  by destruct Hcur.
Qed.

End ChunkerFacts.
(** ** Facts about the retrieval engine *)

Section VectorFacts.

Import VectorService.

Context (HAS_PYTHAINLP : bool) (sent_tokenize word_tokenize : pystr -> list pystr)
  (lower : pystr -> pystr) (Collection : Type)
  (chroma_get_or_create :
     option Collection -> pystr -> pystr -> exn Collection)
  (chroma_query : Collection -> pystr -> Z -> option Where -> exn QueryResult)
  (chroma_get : Collection -> option Where -> Z -> exn GetResult)
  (chroma_add : Collection -> list pystr -> list pystr -> list Metadata
                -> exn Collection)
  (_extract_with_metadata : pystr -> list ContentObject).

Local Abbreviation search :=
  (search HAS_PYTHAINLP word_tokenize lower Collection chroma_query chroma_get).
Local Abbreviation process_document :=
  (process_document HAS_PYTHAINLP sent_tokenize Collection chroma_get_or_create
     chroma_add _extract_with_metadata).

(** Replacing hyphens by underscores loses nothing on names that hold no
    underscore. *)
Lemma replace_hyphens_inj (a b : pystr) :
  95%N ∉ a -> 95%N ∉ b -> replace_hyphens a = replace_hyphens b -> a = b.
Proof.
  revert b. induction a as [|x a IH]; intros [|y b] Ha Hb; simpl; try done.
  intros [= Hxy Hab].
  apply not_elem_of_cons in Ha as [Hx Ha].
  apply not_elem_of_cons in Hb as [Hy Hb].
  f_equal; [|by apply IH].
  destruct (x =? 45)%N eqn:Ex, (y =? 45)%N eqn:Ey;
    try apply N.eqb_eq in Ex; try apply N.eqb_eq in Ey; congruence.
Qed.

(** [search] looks at the client only through the collection of the user. *)
Lemma search_lookup (c1 c2 : gmap (list N) Collection) (user_id query : pystr)
    (n_results : Z) (file_ids : option (list pystr)) :
  c1 !! search_collection_name user_id = c2 !! search_collection_name user_id ->
  search (Some c1) user_id query n_results file_ids
  = search (Some c2) user_id query n_results file_ids.
Proof.
  intros H. unfold VectorService.search, get_collection. cbv zeta.
  by rewrite H.
Qed.

(** [process_document] leaves on a client, and changes on it only the
    collection of the user it works for. *)
Lemma process_document_lookup (c : gmap (list N) Collection)
    (file_path file_id user_id name : pystr) :
  name <> process_document_collection_name user_id ->
  exists c' : gmap (list N) Collection,
    fst (process_document (Some c) file_path file_id user_id) = Some c'
    /\ c' !! name = c !! name.
Proof.
  intros Hne. unfold VectorService.process_document.
  destruct (nonempty (_extract_with_metadata file_path)); [|by exists c].
  destruct (add_objects _ _ _ _ _ _ _) as [chunks metadatas].
  unfold get_or_create_collection.
  destruct (chroma_get_or_create _ _ _) as [col|e]; cbn [bind];
    [|by exists c].
  destruct (chroma_add col _ _ _) as [col'|e]; simpl.
  - eexists. split; [done|]. by rewrite !lookup_insert_ne.
  - eexists. split; [done|]. by rewrite lookup_insert_ne.
Qed.

(** *** Rescoring *)

Lemma to_Q_zero_div (y : Q) : ~ (0 < to_Q 0 / y)%Q.
Proof.
  unfold to_Q. simpl. unfold Qdiv. intros H.
  assert (E : (inject_Z 0 * / y == 0)%Q) by ring.
  rewrite E in H. by apply Qlt_irrefl in H.
Qed.

Lemma boosted_bounds (dist boost : Q) :
  (0 <= boost \/ dist - boost <= 0.01)%Q ->
  (0.01 <= Qmax 0.01 (dist - boost))%Q /\
  (Qmax 0.01 (dist - boost) <= Qmax 0.01 dist)%Q /\
  ((0.01 <= dist)%Q -> (Qmax 0.01 (dist - boost) <= dist)%Q).
Proof.
  intros Hb.
  pose proof (Q.max_spec 0.01 (dist - boost)) as H1.
  pose proof (Q.max_spec 0.01 dist) as H2.
  revert H1 H2.
  generalize (Qmax 0.01 (dist - boost)), (Qmax 0.01 dist).
  intros m1 m2 [[H1 E1] | [H1 E1]] [[H2 E2] | [H2 E2]];
    (split; [|split; [|intros ?]]); destruct Hb; lra.
Qed.

(** *** The fallback loops *)

Lemma drop_cons_lookup {A} (l : list A) (i : nat) (x : A) (rest : list A) :
  drop i l = x :: rest -> l !! i = Some x /\ drop (S i) l = rest.
Proof.
  intros H. split.
  - pose proof (lookup_drop l i 0) as E. rewrite H, Nat.add_0_r in E.
    by rewrite <- E.
  - replace (S i) with (i + 1)%nat by lia. rewrite <- drop_drop.
    by rewrite H.
Qed.

Lemma stage2_loop_spec (all_chunks : GetResult) (query : pystr)
    (n_results : Z) :
  forall (docs : list pystr) (i : nat) (mds : list Metadata)
         (documents : list Document),
    drop i (gr_metadatas all_chunks) = mds ->
    length mds = length docs ->
    documents = [] \/ length_Z documents < n_results ->
    stage2_loop lower all_chunks query n_results i docs documents
    = Ok (documents ++
          map (keyword_row 0.4)
            (take (Z.to_nat (Z.max 1 (n_results - length_Z documents)))
               (List.filter (fun row => keyword_hit lower query (fst row))
                  (zip docs mds)))).
Proof.
  induction docs as [|doc rest IH]; intros i mds acc Hd Hl Hacc.
  - simpl. by rewrite take_nil, app_nil_r.
  - destruct mds as [|md mds]; [done|].
    destruct (drop_cons_lookup _ _ _ _ Hd) as [Hi Hd'].
    simpl in Hl. injection Hl as Hl.
    cbn [stage2_loop zip zip_with List.filter fst].
    destruct (keyword_hit lower query doc) eqn:Ehit.
    + unfold index. rewrite Hi. cbn [bind].
      assert (Hlen : length_Z (acc ++ [{| content := doc; metadata := md;
                                          distance := 0.4 |}])
                     = length_Z acc + 1).
      { unfold length_Z. rewrite length_app. simpl. lia. }
      destruct (length_Z (acc ++ _) >=? n_results) eqn:Ege.
      * apply Z.geb_le in Ege. rewrite Hlen in Ege.
        replace (Z.to_nat (Z.max 1 (n_results - length_Z acc))) with 1%nat
          by lia.
        by simpl.
      * rewrite Z.geb_leb in Ege. apply Z.leb_gt in Ege. rewrite Hlen in Ege.
        rewrite (IH (S i) mds _ Hd' Hl) by (right; lia).
        rewrite Hlen.
        replace (Z.to_nat (Z.max 1 (n_results - length_Z acc)))
          with (S (Z.to_nat (Z.max 1 (n_results - (length_Z acc + 1)))))
          by lia.
        simpl. by rewrite <- app_assoc.
    + by apply IH.
Qed.

Lemma stage3_loop_spec (intro_chunks : GetResult) :
  forall (docs : list pystr) (i : nat) (mds : list Metadata)
         (documents : list Document),
    drop i (gr_metadatas intro_chunks) = mds ->
    length mds = length docs ->
    stage3_loop intro_chunks i docs documents
    = Ok (documents ++ map (keyword_row 0.6) (zip docs mds)).
Proof.
  induction docs as [|doc rest IH]; intros i mds acc Hd Hl.
  - simpl. by rewrite app_nil_r.
  - destruct mds as [|md mds]; [done|].
    destruct (drop_cons_lookup _ _ _ _ Hd) as [Hi Hd'].
    simpl in Hl. injection Hl as Hl.
    cbn [stage3_loop zip zip_with]. unfold index. rewrite Hi. cbn [bind].
    rewrite (IH (S i) mds _ Hd' Hl). simpl. by rewrite <- app_assoc.
Qed.

(** A chunk is a keyword hit when its lowercased text contains a token of
    the lowercased query that is longer than two characters. *)
Lemma keyword_hit_iff (query doc : pystr) :
  keyword_hit lower query doc = true <->
  exists word : pystr,
    word ∈ split (lower query) /\ (2 < length word)%nat
    /\ contains word (lower doc) = true.
Proof.
  unfold keyword_hit. rewrite existsb_exists. split.
  - intros (w & Hin & Hc). apply filter_In in Hin as [Hin Hlen].
    exists w. apply list_elem_of_In, elem_of_elements in Hin.
    apply elem_of_list_to_set in Hin. apply Nat.ltb_lt in Hlen. done.
  - intros (w & Hin & Hlen & Hc). exists w. split; [|done].
    apply filter_In. split; [|by apply Nat.ltb_lt].
    by apply list_elem_of_In, elem_of_elements, elem_of_list_to_set.
Qed.

End VectorFacts.
(** ** Facts about the citation ranker *)

Section ScoreFacts.

Import VectorService CitationRanker.





Lemma nearest_even_unique (x : Q) (n m : Z) :
  nearest_even x n -> nearest_even x m -> n = m.
Proof.
  intros [Hn Hn'] [Hm Hm'].
  apply Qabs_Qle_condition in Hn as Hn2. apply Qabs_Qle_condition in Hm as Hm2.
  destruct Hn2 as [Hn1 Hn2], Hm2 as [Hm1 Hm2].
  assert (Hd : (-1 <= inject_Z n - inject_Z m <= 1)%Q) by (split; lra).
  assert (Hz : -1 <= n - m <= 1).
  { destruct Hd as [Hd1 Hd2]. unfold Qminus in Hd1, Hd2.
    rewrite <- inject_Z_opp, <- inject_Z_plus in Hd1, Hd2.
    change (-1)%Q with (inject_Z (-1)) in Hd1.
    change 1%Q with (inject_Z 1) in Hd2.
    rewrite <- Zle_Qle in Hd1, Hd2. lia. }
  destruct (Z.eq_dec n m) as [|Hne]; [done|]. exfalso.
  assert (Hcase : n = m + 1 \/ m = n + 1) by lia.
  destruct Hcase as [-> | ->].
  - rewrite inject_Z_plus in *. change (inject_Z 1) with 1%Q in *.
    assert (Ex : (x - inject_Z m == 1 # 2)%Q) by lra.
    assert (E1 : (Qabs (x - inject_Z m) == 1 # 2)%Q)
      by (rewrite Qabs_pos; lra).
    assert (E2 : (Qabs (x - (inject_Z m + 1)) == 1 # 2)%Q)
      by (rewrite Qabs_neg; lra).
    specialize (Hm' E1). specialize (Hn' E2).
    rewrite Z.add_1_r, Z.even_succ, <- Z.negb_even, Hm' in Hn'. done.
  - rewrite inject_Z_plus in *. change (inject_Z 1) with 1%Q in *.
    assert (Ex : (x - inject_Z n == 1 # 2)%Q) by lra.
    assert (E1 : (Qabs (x - inject_Z n) == 1 # 2)%Q)
      by (rewrite Qabs_pos; lra).
    assert (E2 : (Qabs (x - (inject_Z n + 1)) == 1 # 2)%Q)
      by (rewrite Qabs_neg; lra).
    specialize (Hn' E1). specialize (Hm' E2).
    rewrite Z.add_1_r, Z.even_succ, <- Z.negb_even, Hn' in Hm'. done.
Qed.


(** For a distance that is not negative the score is defined, and is the
    rounding of a value [v] that we can bound through the reciprocal. *)
Lemma reciprocal_facts (d : Q) :
  (0 <= d)%Q ->
  let s := (1.0 / (1.0 + d * 0.35))%Q in
  Qeq_bool (1.0 + d * 0.35) 0 = false /\
  (0 < s)%Q /\ (s <= 1)%Q /\
  ((d < 0.4)%Q -> (0.877 <= s)%Q) /\
  ((0.4 <= d)%Q -> (s <= 0.878)%Q).
Proof.
  intros Hd s. subst s.
  assert (Hden : (0 < 1.0 + d * 0.35)%Q) by lra.
  split; [|split; [|split; [|split]]].
  - destruct (Qeq_bool (1.0 + d * 0.35) 0) eqn:E; [|done].
    apply Qeq_bool_iff in E. lra.
  - apply Qlt_shift_div_l; [done | lra].
  - apply Qle_shift_div_r; [done | lra].
  - intros H. apply Qle_shift_div_l; [done | lra].
  - intros H. apply Qle_shift_div_r; [done | lra].
Qed.


(** The score of a distance that is not negative is defined. *)
Lemma citation_score_defined (is_broad : bool) (d : Q) :
  (0 <= d)%Q -> exists s, relevance is_broad d = Ok s.
Proof.
  intros Hd. unfold relevance.
  destruct (reciprocal_facts d Hd) as (E & _). rewrite E. by eexists.
Qed.

End ScoreFacts.


Section DictFacts.

Import VectorService CitationRanker.

Lemma elem_of_map {A B} (f : A -> B) (l : list A) (y : B) :
  y ∈ map f l <-> exists x, y = f x /\ x ∈ l.
Proof.
  rewrite list_elem_of_In, in_map_iff. split.
  - intros (x & <- & Hx). exists x. by rewrite list_elem_of_In.
  - intros (x & -> & Hx). exists x. by rewrite <- list_elem_of_In.
Qed.

Lemma dict_get_None (k : pystr) (d : list (pystr * Citation)) :
  dict_get k d = None <-> k ∉ map fst d.
Proof.
  induction d as [|[k' c'] d IH]; simpl.
  - split; [intros _; apply not_elem_of_nil | done].
  - rewrite not_elem_of_cons. destruct (decide (k' = k)) as [-> | Hne].
    + split; [done | by intros [? _]].
    + rewrite IH. split; [by intros ?; split | by intros [_ ?]].
Qed.

Lemma dict_get_Some (k : pystr) (c : Citation) (d : list (pystr * Citation)) :
  dict_get k d = Some c -> (k, c) ∈ d.
Proof.
  induction d as [|[k' c'] d IH]; simpl; [done|].
  destruct (decide (k' = k)) as [-> | Hne].
  - intros [= ->]. apply list_elem_of_here.
  - intros H. apply list_elem_of_further. by apply IH.
Qed.

Lemma dict_set_fresh (k : pystr) (c : Citation) (d : list (pystr * Citation)) :
  k ∉ map fst d -> dict_set k c d = d ++ [(k, c)].
Proof.
  induction d as [|[k' c'] d IH]; simpl; [done|].
  rewrite not_elem_of_cons. intros [Hne Hd].
  destruct (decide (k' = k)) as [-> | _]; [done|]. by rewrite IH.
Qed.

Lemma dict_set_keys (k : pystr) (c : Citation) (d : list (pystr * Citation)) :
  k ∈ map fst d -> map fst (dict_set k c d) = map fst d.
Proof.
  induction d as [|[k' c'] d IH]; simpl.
  - by intros ?%elem_of_nil.
  - destruct (decide (k' = k)) as [-> | Hne]; [done|].
    rewrite elem_of_cons. intros [-> | Hd]; [done|]. simpl. by rewrite IH.
Qed.

Lemma dict_set_elem (k : pystr) (c : Citation) (d : list (pystr * Citation))
    (k' : pystr) (c' : Citation) :
  NoDup (map fst d) ->
  (k', c') ∈ dict_set k c d ->
  (k' = k /\ c' = c) \/ (k' <> k /\ (k', c') ∈ d).
Proof.
  induction d as [|[k0 c0] d IH]; simpl.
  - intros _ [= -> ->]%list_elem_of_singleton. by left.
  - rewrite NoDup_cons. intros [Hk0 Hnd].
    destruct (decide (k0 = k)) as [-> | Hne].
    + rewrite elem_of_cons. intros [[= -> ->] | Hin]; [by left|].
      right. split; [|by apply list_elem_of_further].
      intros ->. apply Hk0. apply elem_of_map. by exists (k, c').
    + rewrite elem_of_cons. intros [[= -> ->] | Hin].
      * right. split; [done | apply list_elem_of_here].
      * destruct (IH Hnd Hin) as [? | [? ?]]; [by left|].
        right. split; [done | by apply list_elem_of_further].
Qed.

Lemma dict_functional (d : list (pystr * Citation)) (k : pystr)
    (c1 c2 : Citation) :
  NoDup (map fst d) -> (k, c1) ∈ d -> (k, c2) ∈ d -> c1 = c2.
Proof.
  induction d as [|[k0 c0] d IH]; simpl; [by intros _ ?%elem_of_nil|].
  rewrite NoDup_cons, !elem_of_cons. intros [Hk0 Hnd] [E1 | H1] [E2 | H2].
  - congruence.
  - exfalso. injection E1 as <- <-. apply Hk0, elem_of_map. by exists (k, c2).
  - exfalso. injection E2 as <- <-. apply Hk0, elem_of_map. by exists (k, c1).
  - by apply IH.
Qed.

(** *** The stable descending sort *)

Lemma insert_desc_perm (c : Citation) (l : list Citation) :
  insert_desc c l ≡ₚ c :: l.
Proof.
  induction l as [|x l IH]; simpl; [done|].
  destruct (Qlt_le_dec _ _); [|done].
  rewrite IH. apply Permutation_swap.
Qed.

Lemma sort_desc_perm (l : list Citation) : sort_desc l ≡ₚ l.
Proof.
  induction l as [|c l IH]; simpl; [done|].
  rewrite insert_desc_perm. by rewrite IH.
Qed.

Lemma insert_desc_sorted (c : Citation) (l : list Citation) :
  StronglySorted desc l -> StronglySorted desc (insert_desc c l).
Proof.
  induction l as [|x l IH]; simpl; intros Hs.
  - repeat constructor.
  - apply StronglySorted_inv in Hs as [Hs Hall].
    destruct (Qlt_le_dec (relevance_score c) (relevance_score x))
      as [Hlt | Hle].
    + constructor; [by apply IH|].
      rewrite insert_desc_perm. constructor; [|done].
      unfold desc. lra.
    + constructor; [by constructor|].
      constructor; [done|].
      eapply Forall_impl; [exact Hall|].
      intros y Hy. unfold desc in *. lra.
Qed.

Lemma sort_desc_sorted (l : list Citation) : StronglySorted desc (sort_desc l).
Proof.
  induction l as [|c l IH]; simpl; [constructor|].
  by apply insert_desc_sorted.
Qed.

End DictFacts.

Section RankFacts.

Import VectorService CitationRanker.

Context (lower : pystr -> pystr) (clean_query : pystr)
  (file_names : gmap (list N) pystr).

Local Abbreviation score :=
  (fun r : Document =>
     relevance (is_broad_query lower clean_query) (distance r)).

Lemma best_of_weaken (P : list Document) (r0 : Document) (k : pystr)
    (c : Citation) :
  best_of score P k c ->
  (fid_of r0 = k -> forall s, score r0 = Ok s -> (s <= relevance_score c)%Q) ->
  best_of score (P ++ [r0]) k c.
Proof.
  intros (Hk & (r & Hr & Hf & Hs) & Hmax) H0. split; [done|]. split.
  - exists r. split; [apply elem_of_app; by left | done].
  - intros r' s' [Hin | ->%list_elem_of_singleton]%elem_of_app Hf' Hs'.
    + by eapply Hmax.
    + by apply H0.
Qed.

(** A result whose content is blank changes nothing. *)
Lemma rank_step_blank (rag : list pystr) (d : list (pystr * Citation))
    (r : Document) :
  nonempty (strip (content r)) = false ->
  rank_step lower clean_query file_names rag d r = (rag, Ok d).
Proof. intros H. unfold rank_step. by rewrite H. Qed.

(** A result with content and a distance that is not negative keeps the
    invariant. *)
Lemma rank_step_live (P : list Document) (rag : list pystr)
    (d : list (pystr * Citation)) (r : Document) :
  nonempty (strip (content r)) = true ->
  (0 <= distance r)%Q ->
  rank_inv score P d ->
  exists d',
    snd (rank_step lower clean_query file_names rag d r) = Ok d'
    /\ rank_inv score (P ++ [r]) d'.
Proof.
  intros Hlive Hdist (Hnd & Hbest & Hkeys & Hback).
  unfold rank_step. rewrite Hlive. cbv zeta. cbn [snd].
  destruct (citation_score_defined (is_broad_query lower clean_query)
              (distance r) Hdist) as [s Hs].
  rewrite Hs. cbn [bind].
  assert (Hown : forall k, k ∈ map fst d ->
                           exists r', r' ∈ P ++ [r] /\ fid_of r' = k).
  { intros k Hk. destruct (Hback k Hk) as (r' & Hr' & Hf).
    exists r'. split; [apply elem_of_app; by left | done]. }
  destruct (dict_get (fid_of r) d) as [c0|] eqn:Eget.
  - apply dict_get_Some in Eget as Hin0.
    assert (Hkin : fid_of r ∈ map fst d).
    { apply elem_of_map. by exists (fid_of r, c0). }
    destruct (Qlt_le_dec (relevance_score c0) s) as [Hlt | Hle].
    + eexists. split; [done|]. split; [|split; [|split]].
      * by rewrite dict_set_keys.
      * intros k c Hin. apply dict_set_elem in Hin; [|done].
        destruct Hin as [[-> ->] | [Hne Hin]].
        -- split; [done|]. split.
           ++ exists r. split; [apply elem_of_app; right;
                                 by apply list_elem_of_singleton | done].
           ++ simpl. intros r' s' [Hin | ->%list_elem_of_singleton]%elem_of_app
                Hf' Hs'.
              ** destruct (Hbest _ _ Hin0) as (_ & _ & Hmax).
                 specialize (Hmax r' s' Hin Hf' Hs'). lra.
              ** rewrite Hs in Hs'. injection Hs' as <-. lra.
        -- apply best_of_weaken; [by apply Hbest|]. by intros ?.
      * rewrite dict_set_keys by done.
        intros r' [Hin | ->%list_elem_of_singleton]%elem_of_app;
          [by apply Hkeys | done].
      * by rewrite dict_set_keys.
    + exists d. split; [done|]. split; [done|]. split; [|split; [|done]].
      * intros k c Hin. apply best_of_weaken; [by apply Hbest|].
        intros Hf s' Hs'. rewrite Hs in Hs'. injection Hs' as <-.
        assert (c = c0) as ->.
        { subst k. by eapply dict_functional. }
        done.
      * intros r' [Hin | ->%list_elem_of_singleton]%elem_of_app;
          [by apply Hkeys | done].
  - apply dict_get_None in Eget.
    eexists. split; [done|]. rewrite dict_set_fresh by done.
    split; [|split; [|split]].
    + rewrite map_app. simpl. apply NoDup_app. split; [done|].
      split; [|apply NoDup_singleton].
      intros k Hk ->%list_elem_of_singleton. done.
    + intros k c [Hin | [= -> ->]%list_elem_of_singleton]%elem_of_app.
      * apply best_of_weaken; [by apply Hbest|].
        intros <-. exfalso. apply Eget. apply elem_of_map. by exists (fid_of r, c).
      * split; [done|]. split.
        -- exists r. split; [apply elem_of_app; right;
                              by apply list_elem_of_singleton | done].
        -- simpl. intros r' s' [Hin | ->%list_elem_of_singleton]%elem_of_app
             Hf' Hs'.
           ++ exfalso. apply Eget. rewrite <- Hf'. by apply Hkeys.
           ++ rewrite Hs in Hs'. injection Hs' as <-. lra.
    + rewrite map_app. simpl.
      intros r' [Hin | ->%list_elem_of_singleton]%elem_of_app.
      * apply elem_of_app. left. by apply Hkeys.
      * apply elem_of_app. right. by apply list_elem_of_singleton.
    + rewrite map_app. simpl.
      intros k [Hk | ->%list_elem_of_singleton]%elem_of_app; [by apply Hown|].
      exists r. split; [|done]. apply elem_of_app. right.
      by apply list_elem_of_singleton.
Qed.

(** The loop ends without an exception and keeps the invariant. *)
Lemma rank_loop_inv (search_results : list Document) :
  Forall (fun r => (0 <= distance r)%Q) search_results ->
  forall (P : list Document) (rag : list pystr)
         (d : list (pystr * Citation)),
    rank_inv score P d ->
    exists d',
      snd (rank_loop lower clean_query file_names search_results rag d)
      = Ok d'
      /\ rank_inv score (P ++ live search_results) d'.
Proof.
  induction 1 as [|r rest Hr Hrest IH]; intros P rag d Hinv.
  - exists d. split; [done|]. unfold live. simpl. by rewrite app_nil_r.
  - cbn [rank_loop]. unfold live. cbn [List.filter]. fold (live rest).
    destruct (nonempty (strip (content r))) eqn:Hlive.
    + destruct (rank_step_live P rag d r Hlive Hr Hinv) as (d1 & E1 & Hinv1).
      destruct (rank_step lower clean_query file_names rag d r)
        as [rag1 res1]. simpl in E1. subst res1.
      destruct (IH (P ++ [r]) rag1 d1 Hinv1) as (d' & E' & Hinv').
      exists d'. split; [done|]. by rewrite <- app_assoc in Hinv'.
    + rewrite rank_step_blank by done. by apply IH.
Qed.

End RankFacts.
(** ** More facts about the chunker *)

Section ChunkerMoreFacts.

Import Chunker.

Lemma lstrip_has_text (l : pystr) : has_text l = true -> has_text (lstrip l) = true.
Proof.
  unfold has_text. induction l as [|c l IH]; simpl; [done|].
  destruct (is_space c) eqn:E; simpl; [done|]. by rewrite E.
Qed.

Lemma has_text_rev (l : pystr) : has_text (rev l) = has_text l.
Proof.
  unfold has_text. induction l as [|c l IH]; simpl; [done|].
  rewrite existsb_app, IH. simpl. rewrite orb_false_r. apply orb_comm.
Qed.

(** A string with a character that is not whitespace is not blank. *)
Lemma strip_has_text (l : pystr) :
  has_text l = true -> nonempty (strip l) = true.
Proof.
  intros H. unfold strip, rstrip.
  assert (H' : has_text (rev (lstrip (rev (lstrip l)))) = true).
  { rewrite has_text_rev. apply lstrip_has_text.
    rewrite has_text_rev. by apply lstrip_has_text. }
  by destruct (rev (lstrip (rev (lstrip l)))).
Qed.

Lemma strip_no_text (l : pystr) :
  has_text l = false -> strip l = [].
Proof.
  intros H. unfold strip.
  assert (E : lstrip l = []).
  { unfold has_text in H. induction l as [|c l IH]; simpl in *; [done|].
    apply orb_false_iff in H as [Hc Hl]. apply negb_false_iff in Hc.
    rewrite Hc. by apply IH. }
  by rewrite E.
Qed.

Lemma well_spaced_drop (n : nat) (l : pystr) :
  well_spaced l = true -> well_spaced (drop n l) = true.
Proof.
  revert l. induction n as [|n IH]; intros [|c l]; simpl; try done.
  intros [_ H]%andb_true_iff. by apply IH.
Qed.

(** Two characters of a well spaced string, or all of it, hold text. *)
Lemma well_spaced_take (n : nat) (l : pystr) :
  well_spaced l = true -> l <> [] ->
  (2 <= n)%nat \/ (length l <= n)%nat ->
  has_text (take n l) = true.
Proof.
  unfold has_text. destruct l as [|c l]; [done|]. intros Hw _ Hn.
  simpl in Hw. apply andb_true_iff in Hw as [Hc Hw].
  destruct n as [|n]; [simpl in Hn; lia|]. simpl.
  destruct (is_space c) eqn:Ec; simpl; [|done].
  destruct l as [|c' l]; [done|].
  destruct n as [|n]; [simpl in Hn; lia|]. simpl. by rewrite Hc.
Qed.

Lemma well_spaced_app (w l : pystr) :
  has_text w = true ->
  Forall (fun c => is_space c = false) w ->
  well_spaced (w ++ l) = well_spaced l.
Proof.
  intros _ Hw. induction Hw as [|c w Hc Hw IH]; simpl; [done|].
  by rewrite Hc, IH.
Qed.

Lemma is_word_has_text (w : pystr) : is_word w -> has_text w = true.
Proof.
  intros [Hne Hw]. destruct Hw as [|c w Hc Hw]; [done|].
  unfold has_text. simpl. by rewrite Hc.
Qed.

Lemma split_from_words (cur s : pystr) :
  Forall (fun c => is_space c = false) cur ->
  Forall is_word (split_from cur s).
Proof.
  revert cur. induction s as [|c s IH]; intros cur Hcur; simpl.
  - destruct cur as [|x cur]; simpl; [constructor|].
    constructor; [|constructor]. split.
    + intros E. apply (f_equal (@length N)) in E.
      rewrite length_app in E. simpl in E. lia.
    + apply Forall_rev in Hcur. exact Hcur.
  - destruct (is_space c) eqn:Ec.
    + destruct cur as [|x cur]; simpl nonempty; cbv iota.
      * apply IH. constructor.
      * constructor; [|apply IH; constructor]. split.
        -- intros E. apply (f_equal (@length N)) in E.
           rewrite length_rev in E. simpl in E. lia.
        -- by apply Forall_rev.
    + apply IH. by constructor.
Qed.

Lemma join_words_spaced (words : list pystr) :
  Forall is_word words ->
  well_spaced (join [space] words) = true /\
  (words <> [] -> has_text (take 1 (join [space] words)) = true).
Proof.
  induction 1 as [|w words Hw Hws IH].
  - split; [done | done].
  - destruct IH as [IHs IHh]. destruct Hw as [Hne Hw].
    assert (Hhead : forall l, has_text (take 1 (w ++ l)) = true).
    { intros l. destruct Hw as [|c w Hc Hw]; [done|].
      unfold has_text. simpl. by rewrite Hc. }
    destruct words as [|w2 rest].
    + simpl. split; [|intros _; rewrite <- (app_nil_r w); apply Hhead].
      rewrite <- (app_nil_r w). rewrite well_spaced_app; [done | | done].
      by apply is_word_has_text.
    + change (join [space] (w :: w2 :: rest))
        with (w ++ [space] ++ join [space] (w2 :: rest)).
      split; [|intros _; apply Hhead].
      rewrite well_spaced_app; [| by apply is_word_has_text | done].
      specialize (IHh ltac:(done)).
      destruct (join [space] (w2 :: rest)) as [|c j]; [done|].
      change ([space] ++ c :: j) with (space :: c :: j).
      cbn [well_spaced]. change (is_space space) with true. cbv iota.
      unfold has_text in IHh. simpl in IHh. rewrite orb_false_r in IHh.
      rewrite IHh. exact IHs.
Qed.

(** The normalized text is well spaced. *)
Lemma normalize_well_spaced (text : pystr) :
  well_spaced (normalize text) = true.
Proof.
  unfold normalize, split.
  apply join_words_spaced, split_from_words. constructor.
Qed.

(** A text of whitespace only normalizes to the empty string. *)
Lemma normalize_blank (text : pystr) :
  has_text text = false -> normalize text = [].
Proof.
  unfold normalize, split, has_text. intros H.
  assert (E : split_from [] text = []); [|by rewrite E].
  induction text as [|c text IH]; simpl in *; [done|].
  apply orb_false_iff in H as [Hc Hl]. apply negb_false_iff in Hc.
  rewrite Hc. by apply IH.
Qed.

(** A slice with bounds that are not negative, as [take] and [drop]. *)
Lemma slice_nonneg (s : pystr) (start stop : Z) :
  0 <= start -> 0 <= stop ->
  slice s start stop
  = take (Z.to_nat (Z.min stop (len s)) - Z.to_nat (Z.min start (len s)))
      (drop (Z.to_nat (Z.min start (len s))) s).
Proof.
  intros H1 H2. unfold slice. rewrite !clamp_nonneg by done.
  f_equal. pose proof (len_nonneg s). lia.
Qed.

(** Every window of a well spaced text holds text. *)
Lemma window_has_text (t : pystr) (chunk_size start : Z) :
  well_spaced t = true -> 2 <= chunk_size -> 0 <= start -> start < len t ->
  has_text (slice t start (window_end t chunk_size start)) = true.
Proof.
  intros Hw Hcs Hs Hlt.
  pose proof (window_end_lower t chunk_size start ltac:(lia)) as Hlo.
  assert (0 < chunk_size / 2) by (apply Z.div_str_pos; lia).
  rewrite slice_nonneg by lia.
  unfold len in *.
  apply well_spaced_take.
  - by apply well_spaced_drop.
  - intros E. apply (f_equal (@length N)) in E.
    rewrite length_drop in E. simpl in E. lia.
  - rewrite length_drop. lia.
Qed.

Lemma take_glue {A} (t : list A) (s o b : nat) :
  (s + o <= b <= length t)%nat \/ (length t < s + o /\ b = length t)%nat ->
  take ((s + o) `min` length t) t ++ drop o (take (b - s) (drop s t))
  = take b t.
Proof.
  intros [[H1 H2] | [H1 ->]].
  - rewrite Nat.min_l by lia.
    rewrite skipn_firstn_comm, drop_drop.
    rewrite take_take_drop. f_equal. lia.
  - rewrite Nat.min_r by lia. rewrite !firstn_all.
    rewrite drop_ge; [by rewrite app_nil_r|].
    rewrite length_take, length_drop. lia.
Qed.

Lemma reassemble_snoc (overlap : Z) (acc : list pystr) (c : pystr) :
  acc <> [] ->
  reassemble overlap (acc ++ [c])
  = reassemble overlap acc ++ drop (Z.to_nat overlap) c.
Proof.
  destruct acc as [|c0 acc]; [done|]. intros _. simpl.
  rewrite map_app, concat_app. simpl. by rewrite app_nil_r, app_assoc.
Qed.

Lemma split_loop_covers (t : pystr) (chunk_size overlap : Z) :
  well_spaced t = true -> 2 <= chunk_size ->
  0 <= overlap -> overlap <= chunk_size / 2 ->
  forall (fuel : nat) (start : Z) (acc r : list pystr),
    0 <= start -> covers t overlap start acc ->
    split_loop fuel t chunk_size overlap start acc = Some r ->
    reassemble overlap r = t.
Proof.
  intros Hw Hcs Hov0 Hov.
  induction fuel as [|fuel IH]; intros start acc r Hs Hcov; simpl; [done|].
  destruct (start <? len t) eqn:Elt.
  - apply Z.ltb_lt in Elt.
    pose proof (window_has_text t chunk_size start Hw Hcs Hs Elt) as Htxt.
    rewrite (strip_has_text _ Htxt).
    pose proof (window_end_lower t chunk_size start ltac:(lia)) as Hlo.
    pose proof (window_end_upper t chunk_size start Hs ltac:(lia)) as Hup.
    set (e := window_end t chunk_size start) in *.
    apply IH.
    + unfold next_start. fold e. lia.
    + right. split; [by destruct acc|].
      unfold next_start. fold e.
      replace (e - overlap + overlap) with e by lia.
      rewrite slice_nonneg by lia. unfold len in *.
      destruct Hcov as [[-> ->] | [Hne Hre]].
      * simpl. rewrite app_nil_r.
        replace (Z.to_nat (0 `min` Z.of_nat (length t))) with 0%nat by lia.
        simpl. f_equal. lia.
      * rewrite reassemble_snoc by done. rewrite Hre. unfold len.
        replace (Z.to_nat ((start + overlap) `min` Z.of_nat (length t)))
          with ((Z.to_nat start + Z.to_nat overlap) `min` length t)%nat
          by lia.
        replace (Z.to_nat (start `min` Z.of_nat (length t)))
          with (Z.to_nat start) by lia.
        apply take_glue. lia.
  - apply Z.ltb_ge in Elt. intros [= <-].
    destruct Hcov as [[-> ->] | [Hne Hre]].
    + simpl. unfold len in Elt. destruct t; [done | simpl in Elt; lia].
    + rewrite Hre. apply firstn_all2. unfold len in *. lia.
Qed.

End ChunkerMoreFacts.
(** ** More facts about the vector service *)

Section VectorMoreFacts.

Import VectorService VectorServiceMore.

Lemma split_once_app (c : N) (a b : pystr) :
  c ∉ a -> split_once c (a ++ c :: b) = Some (a, b).
Proof.
  induction a as [|x a IH]; simpl; intros Ha.
  - by rewrite N.eqb_refl.
  - apply not_elem_of_cons in Ha as [Hx Ha].
    destruct (x =? c)%N eqn:E; [apply N.eqb_eq in E; congruence|].
    by rewrite IH.
Qed.

Lemma split_once_none (c : N) (s : pystr) :
  c ∉ s -> split_once c s = None.
Proof.
  induction s as [|x s IH]; simpl; [done|]. intros Hs.
  apply not_elem_of_cons in Hs as [Hx Hs].
  destruct (x =? c)%N eqn:E; [apply N.eqb_eq in E; congruence|].
  by rewrite IH.
Qed.

Lemma replace_hyphens_notin (c : N) (s : pystr) :
  c <> 95%N -> c ∉ s -> c ∉ replace_hyphens s.
Proof.
  intros Hc. induction s as [|x s IH]; simpl; [done|].
  rewrite !not_elem_of_cons. intros [Hx Hs]. split; [|by apply IH].
  destruct (x =? 45)%N; congruence.
Qed.

Lemma collection_name_no_colon (user_id : pystr) :
  58%N ∉ user_id -> 58%N ∉ process_document_collection_name user_id.
Proof.
  intros H. unfold process_document_collection_name.
  apply not_elem_of_app. split.
  - apply (bool_decide_unpack _). by vm_compute.
  - by apply replace_hyphens_notin.
Qed.

(** *** The pages of a PDF *)

Lemma strip_nonempty (t : pystr) :
  nonempty (strip t) = true -> nonempty t = true /\ has_text t = true.
Proof.
  intros H. split; [by destruct t|].
  destruct (has_text t) eqn:E; [done|].
  by rewrite (strip_no_text t E) in H.
Qed.

Lemma pdf_loop_units (ps : list (exn (option pystr))) :
  forall (i : nat) (pages r : list ContentObject),
    pdf_loop i ps pages = Ok r -> r = pages ++ pdf_units i ps.
Proof.
  induction ps as [|p ps IH]; intros i pages r; simpl.
  - intros [= <-]. by rewrite app_nil_r.
  - destruct p as [[t|]|e]; simpl; [| by apply IH | done].
    destruct (nonempty (strip t)) eqn:E.
    + destruct (strip_nonempty t E) as [-> _]. simpl.
      intros H. apply IH in H. by rewrite <- app_assoc in H.
    + rewrite andb_false_r. by apply IH.
Qed.

Lemma pdf_loop_ok (ps : list (exn (option pystr))) :
  Forall is_ok ps ->
  forall (i : nat) (pages : list ContentObject),
    pdf_loop i ps pages = Ok (pages ++ pdf_units i ps).
Proof.
  induction 1 as [|p ps Hp Hps IH]; intros i pages; simpl.
  - by rewrite app_nil_r.
  - destruct p as [[t|]|e]; simpl; [| by apply IH | done].
    destruct (nonempty (strip t)) eqn:E.
    + destruct (strip_nonempty t E) as [-> _]. simpl.
      rewrite IH. by rewrite <- app_assoc.
    + rewrite andb_false_r. by apply IH.
Qed.

Lemma pdf_loop_fail (ps : list (exn (option pystr))) :
  Exists (fun p => ~ is_ok p) ps ->
  forall (i : nat) (pages : list ContentObject),
    exists e, pdf_loop i ps pages = Raise e.
Proof.
  induction 1 as [p ps Hp | p ps Hps IH]; intros i pages; simpl.
  - destruct p as [t|e]; [by destruct Hp | by exists e].
  - destruct p as [[t|]|e]; simpl; [| apply IH | by exists e].
    destruct (nonempty t && nonempty (strip t)); apply IH.
Qed.

Lemma pdf_units_ok (all : list (exn (option pystr))) :
  forall (ps : list (exn (option pystr))) (i : nat),
    drop i all = ps ->
    Forall (pdf_unit_ok all (Z.of_nat i)) (pdf_units i ps) /\
    StronglySorted page_before (pdf_units i ps).
Proof.
  induction ps as [|p ps IH]; intros i Hd; simpl.
  - split; constructor.
  - destruct (drop_cons_lookup _ _ _ _ Hd) as [Hi Hd'].
    destruct (IH (S i) Hd') as [IHf IHs].
    assert (Hweak : Forall (pdf_unit_ok all (Z.of_nat i))
                      (pdf_units (S i) ps)).
    { eapply Forall_impl; [exact IHf|].
      intros u (n & ? & ? & ?). exists n. split; [done|]. split; [lia|done]. }
    destruct p as [[t|]|e]; try done.
    destruct (nonempty (strip t)) eqn:E; [|done].
    destruct (strip_nonempty t E) as [_ Htxt].
    apply lookup_lt_Some in Hi as Hlt.
    split.
    + constructor; [|done].
      exists (Z.of_nat i + 1). simpl. split; [done|].
      split; [unfold length_Z; lia|]. split; [done|]. split; [done|].
      split; [|done].
      replace (Z.to_nat (Z.of_nat i + 1 - 1)) with i by lia. done.
    + constructor; [done|].
      eapply Forall_impl; [exact IHf|].
      intros u (n & Hn & Hr & _). unfold page_before. simpl. rewrite Hn. lia.
Qed.

(** *** The plain text branch *)

Lemma read_as_text_spec (read_text : pystr -> pystr -> exn pystr)
    (file_path : pystr) (encs : list pystr) :
  (read_as_text read_text file_path encs = []
   /\ Forall (rejected read_text file_path) encs) \/
  (exists before encoding after content,
     encs = before ++ encoding :: after /\
     Forall (rejected read_text file_path) before /\
     read_text file_path encoding = Ok content /\
     contains [0%N] (slice content 0 1024) = false /\
     read_as_text read_text file_path encs = [text_unit content]).
Proof.
  induction encs as [|enc encs IH]; simpl.
  - left. split; [done | constructor].
  - destruct (read_text file_path enc) as [content|e] eqn:E.
    + destruct (contains [0%N] (slice content 0 1024)) eqn:Enul.
      * destruct IH as [[-> Hall] | (b & en & a & c & -> & Hb & Hr & Hn & ->)].
        -- left. split; [done|]. constructor; [|done].
           unfold rejected. by rewrite E.
        -- right. exists (enc :: b), en, a, c. split; [done|].
           split; [|done]. constructor; [|done].
           unfold rejected. by rewrite E.
      * right. exists [], enc, encs, content. split; [done|].
        split; [constructor | done].
    + destruct IH as [[-> Hall] | (b & en & a & c & -> & Hb & Hr & Hn & ->)].
      * left. split; [done|]. constructor; [|done].
        unfold rejected. by rewrite E.
      * right. exists (enc :: b), en, a, c. split; [done|].
        split; [|done]. constructor; [|done].
        unfold rejected. by rewrite E.
Qed.

(** *** Blank units *)

Lemma space_not_thai (c : N) :
  is_space c = true -> ((3584 <=? c) && (c <=? 3711))%N = false.
Proof.
  unfold is_space. intros H.
  apply andb_false_iff.
  repeat (apply orb_true_iff in H as [H | H]);
    repeat (apply andb_true_iff in H as [? ?]);
    repeat match goal with
           | H : (_ <=? _)%N = true |- _ => apply N.leb_le in H
           | H : (_ =? _)%N = true |- _ => apply N.eqb_eq in H
           end;
    first [left; apply N.leb_gt; lia | right; apply N.leb_gt; lia].
Qed.

Lemma blank_no_thai (text : pystr) :
  has_text text = false -> Chunker.has_thai text = false.
Proof.
  unfold has_text, Chunker.has_thai.
  induction text as [|c text IH]; simpl; [done|].
  intros [Hc Ht]%orb_false_iff. apply negb_false_iff in Hc.
  by rewrite (space_not_thai c Hc), IH.
Qed.

(** A blank unit gives no chunk. *)
Lemma split_text_part_blank (HAS_PYTHAINLP : bool)
    (sent_tokenize : pystr -> list pystr) (text : pystr) :
  has_text text = false ->
  split_text_part HAS_PYTHAINLP sent_tokenize text = [].
Proof.
  intros H. unfold split_text_part, Chunker._split_text.
  destruct (nonempty text); [|done].
  rewrite (blank_no_thai text H). simpl.
  unfold Chunker.split_default, Chunker.enough_fuel.
  by rewrite (normalize_blank text H).
Qed.

Lemma add_objects_blank (HAS_PYTHAINLP : bool)
    (sent_tokenize : pystr -> list pystr) (file_id user_id : pystr)
    (objs : list ContentObject) (chunks : list pystr)
    (metadatas : list Metadata) :
  Forall (fun o => has_text (co_text o) = false) objs ->
  add_objects HAS_PYTHAINLP sent_tokenize file_id user_id objs chunks
    metadatas = (chunks, metadatas).
Proof.
  induction 1 as [|o objs Ho Hobjs IH]; simpl; [done|].
  by rewrite (split_text_part_blank _ _ _ Ho).
Qed.

(** *** The bookkeeping of [process_document] *)





End VectorMoreFacts.
(** ** More facts about the chat endpoints *)

Section SubstringFacts.

Lemma startswith_spec (p s : pystr) :
  startswith p s = true <-> exists b, s = p ++ b.
Proof.
  revert s. induction p as [|x p IH]; intros s; simpl.
  - split; [by exists s | done].
  - destruct s as [|y s]; [split; [done | by intros [b ?]]|].
    rewrite andb_true_iff, N.eqb_eq, IH. split.
    + intros [-> [b ->]]. by exists b.
    + intros [b [= -> ->]]. split; [done | by exists b].
Qed.

Lemma contains_spec (needle hay : pystr) :
  contains needle hay = true <-> exists a b, hay = a ++ needle ++ b.
Proof.
  induction hay as [|c hay IH]; simpl.
  - rewrite orb_false_r, startswith_spec. split.
    + intros [b ->]. by exists [], b.
    + intros (a & b & E). destruct a; [by exists b|done].
  - rewrite orb_true_iff, startswith_spec, IH. split.
    + intros [[b ->] | (a & b & ->)]; [by exists [], b|].
      by exists (c :: a), b.
    + intros ([|x a] & b & E); [left; by exists b|].
      right. injection E as -> ->. by exists a, b.
Qed.

(** A needle found in a part of a string is found in the string. *)
Lemma contains_infix (needle a hay b : pystr) :
  contains needle hay = true -> contains needle (a ++ hay ++ b) = true.
Proof.
  rewrite !contains_spec. intros (x & y & ->).
  exists (a ++ x), (y ++ b). by rewrite <- !app_assoc.
Qed.

Lemma not_contains_infix (needle a hay b : pystr) :
  contains needle (a ++ hay ++ b) = false -> contains needle hay = false.
Proof.
  intros H. destruct (contains needle hay) eqn:E; [|done].
  by rewrite (contains_infix needle a hay b E) in H.
Qed.

Lemma before_prefix (sep s : pystr) : exists r, s = before sep s ++ r.
Proof.
  induction s as [|c s IH]; simpl; [by exists []|].
  destruct (startswith sep (c :: s)); [by exists (c :: s)|].
  destruct IH as [r Hr]. exists r. simpl. by rewrite <- Hr.
Qed.

Lemma before_no_sep (sep s : pystr) :
  sep <> [] -> contains sep (before sep s) = false.
Proof.
  intros Hsep. induction s as [|c s IH]; simpl.
  - destruct sep; [done | done].
  - destruct (startswith sep (c :: s)) eqn:E.
    + destruct sep; [done | done].
    + simpl. rewrite IH, orb_false_r.
      destruct (startswith sep (c :: before sep s)) eqn:E'; [|done].
      apply startswith_spec in E' as [b Hb].
      destruct (before_prefix sep s) as [r Hr].
      assert (E2 : startswith sep (c :: s) = true); [|congruence].
      apply startswith_spec. exists (b ++ r).
      rewrite app_assoc, <- Hb. simpl. by rewrite <- Hr.
Qed.

Lemma before_id (sep s : pystr) :
  contains sep s = false -> before sep s = s.
Proof.
  induction s as [|c s IH]; simpl; [done|].
  intros [E1 E2]%orb_false_iff. rewrite E1. by rewrite IH.
Qed.

Lemma lstrip_suffix (s : pystr) : exists k, s = k ++ lstrip s.
Proof.
  induction s as [|c s IH]; simpl; [by exists []|].
  destruct (is_space c); [|by exists []].
  destruct IH as [k Hk]. exists (c :: k). simpl. by rewrite <- Hk.
Qed.

Lemma strip_infix (s : pystr) : exists a b, s = a ++ strip s ++ b.
Proof.
  unfold strip, rstrip.
  destruct (lstrip_suffix s) as [a Ha].
  destruct (lstrip_suffix (rev (lstrip s))) as [k Hk].
  exists a, (rev k). rewrite <- rev_app_distr, <- Hk, rev_involutive.
  exact Ha.
Qed.

Lemma lstrip_idem (s : pystr) : lstrip (lstrip s) = lstrip s.
Proof.
  induction s as [|c s IH]; simpl; [done|].
  destruct (is_space c) eqn:E; [done|]. simpl. by rewrite E.
Qed.

Lemma lstrip_snoc_text (x : pystr) (c : N) :
  is_space c = false -> lstrip (x ++ [c]) = lstrip x ++ [c].
Proof.
  intros Hc. induction x as [|y x IH]; simpl; [by rewrite Hc|].
  by destruct (is_space y).
Qed.

Lemma rstrip_cons_text (c : N) (r : pystr) :
  is_space c = false -> rstrip (c :: r) = c :: rstrip r.
Proof.
  intros Hc. unfold rstrip. simpl.
  rewrite lstrip_snoc_text by done. by rewrite rev_app_distr.
Qed.

Lemma rstrip_idem (s : pystr) : rstrip (rstrip s) = rstrip s.
Proof. unfold rstrip. by rewrite rev_involutive, lstrip_idem. Qed.

(** Stripping twice is stripping once. *)
Lemma strip_idem (s : pystr) : strip (strip s) = strip s.
Proof.
  unfold strip.
  assert (H : lstrip (rstrip (lstrip s)) = rstrip (lstrip s)).
  { pose proof (lstrip_idem s) as Hi.
    destruct (lstrip s) as [|c r]; [done|].
    simpl in Hi. destruct (is_space c) eqn:E.
    - exfalso. apply (f_equal (@length N)) in Hi.
      pose proof (lstrip_length r). simpl in Hi. lia.
    - rewrite rstrip_cons_text by done. simpl. by rewrite E. }
  by rewrite H, rstrip_idem.
Qed.

End SubstringFacts.

Section MergeFacts.

Import VectorService CitationRanker.

Lemma insert_asc_perm (r : Document) (l : list Document) :
  insert_asc r l ≡ₚ r :: l.
Proof.
  induction l as [|x l IH]; simpl; [done|].
  destruct (Qlt_le_dec _ _); [|done].
  rewrite IH. apply Permutation_swap.
Qed.

Lemma sort_asc_perm (l : list Document) : sort_asc l ≡ₚ l.
Proof.
  induction l as [|r l IH]; simpl; [done|].
  rewrite insert_asc_perm. by rewrite IH.
Qed.

Lemma insert_asc_sorted (r : Document) (l : list Document) :
  StronglySorted closer l -> StronglySorted closer (insert_asc r l).
Proof.
  induction l as [|x l IH]; simpl; intros Hs.
  - repeat constructor.
  - apply StronglySorted_inv in Hs as [Hs Hall].
    destruct (Qlt_le_dec (distance x) (distance r)) as [Hlt | Hle].
    + constructor; [by apply IH|].
      rewrite insert_asc_perm. constructor; [|done].
      unfold closer. lra.
    + constructor; [by constructor|].
      constructor; [done|].
      eapply Forall_impl; [exact Hall|].
      intros y Hy. unfold closer in *. lra.
Qed.

Lemma sort_asc_sorted (l : list Document) : StronglySorted closer (sort_asc l).
Proof.
  induction l as [|r l IH]; simpl; [constructor|].
  by apply insert_asc_sorted.
Qed.

Lemma sorted_app {A} (R : A -> A -> Prop) (l1 l2 : list A) :
  StronglySorted R (l1 ++ l2) ->
  StronglySorted R l1 /\ Forall (fun x => Forall (R x) l2) l1.
Proof.
  induction l1 as [|x l1 IH]; simpl; intros H.
  - split; constructor.
  - apply StronglySorted_inv in H as [H Hall].
    destruct (IH H) as [H1 H2]. apply Forall_app in Hall as [Ha Hb].
    split; [by constructor | by constructor].
Qed.

(** *** The lengths that the ranking loop keeps *)

Lemma dict_set_length (k : pystr) (c : Citation)
    (d : list (pystr * Citation)) :
  (length (dict_set k c d) <= S (length d))%nat.
Proof.
  induction d as [|[k' c'] d IH]; simpl; [lia|].
  destruct (decide (k' = k)); simpl; lia.
Qed.

Lemma sort_desc_length (l : list Citation) :
  length (sort_desc l) = length l.
Proof. apply Permutation_length, sort_desc_perm. Qed.

Lemma rank_loop_lengths (lower : pystr -> pystr) (clean_query : pystr)
    (file_names : gmap (list N) pystr) (search_results : list Document) :
  forall (rag : list pystr) (d : list (pystr * Citation)),
    let '(rag', res) :=
      rank_loop lower clean_query file_names search_results rag d in
    (length rag' <= length rag + length search_results)%nat /\
    match res with
    | Ok d' => (length d' + length rag <= length d + length rag')%nat
    | Raise _ => True
    end.
Proof.
  induction search_results as [|r rest IH]; intros rag d; simpl.
  - split; lia.
  - unfold rank_step.
    destruct (nonempty (strip (content r))).
    + cbv zeta.
      destruct (relevance _ (distance r)) as [s|e]; cbn [bind];
        [|split; [rewrite length_app; simpl; lia | done]].
      match goal with
      | |- context [rank_loop _ _ _ rest ?rag1 _] => set (rag1' := rag1)
      end.
      assert (Hrag : length rag1' = S (length rag))
        by (unfold rag1'; rewrite length_app; simpl; lia).
      destruct (match dict_get (fid_of r) d with
                | Some c => if Qlt_le_dec (relevance_score c) s
                            then true else false
                | None => true
                end).
      * match goal with
        | |- context [rank_loop _ _ _ rest rag1' ?d1] =>
            specialize (IH rag1' d1);
            pose proof (dict_set_length (fid_of r)
                          {| source := default (fid_of r)
                                         (file_names !! fid_of r);
                             file_id := fid_of r;
                             page := default (lit "Unknown")
                                       (md_page (metadata r));
                             preview := slice (content r) 0 200
                                        ++ lit "...";
                             relevance_score := s |} d) as Hset
        end.
        destruct (rank_loop _ _ _ rest rag1' _) as [rag' res].
        destruct IH as [H1 H2]. split; [lia|].
        destruct res; [lia | done].
      * specialize (IH rag1' d).
        destruct (rank_loop _ _ _ rest rag1' d) as [rag' res].
        destruct IH as [H1 H2]. split; [lia|].
        destruct res; [lia | done].
    + specialize (IH rag d).
      destruct (rank_loop _ _ _ rest rag d) as [rag' res].
      destruct IH as [H1 H2]. split; [lia | done].
Qed.

End MergeFacts.

Section UploadFacts.

Import VectorService CitationRanker.

Lemma dict_get_set_eq (k : pystr) (c : Citation)
    (d : list (pystr * Citation)) :
  dict_get k (dict_set k c d) = Some c.
Proof.
  induction d as [|[k' c'] d IH]; simpl.
  - by rewrite decide_True.
  - destruct (decide (k' = k)) as [-> | Hne]; simpl.
    + by rewrite decide_True.
    + by rewrite decide_False.
Qed.

Lemma dict_get_set_ne (k k' : pystr) (c : Citation)
    (d : list (pystr * Citation)) :
  k <> k' -> dict_get k' (dict_set k c d) = dict_get k' d.
Proof.
  intros Hne. induction d as [|[k0 c0] d IH]; simpl.
  - by rewrite decide_False.
  - destruct (decide (k0 = k)) as [-> | Hk0]; simpl.
    + by rewrite !decide_False.
    + destruct (decide (k0 = k')); [done | exact IH].
Qed.

Lemma dict_set_NoDup (k : pystr) (c : Citation)
    (d : list (pystr * Citation)) :
  NoDup (map fst d) -> NoDup (map fst (dict_set k c d)).
Proof.
  intros Hnd. destruct (dict_get k d) as [c0|] eqn:E.
  - rewrite dict_set_keys; [done|].
    apply dict_get_Some in E. apply elem_of_map. by exists (k, c0).
  - apply dict_get_None in E. rewrite dict_set_fresh by done.
    rewrite map_app. simpl. apply NoDup_app. split; [done|].
    split; [|apply NoDup_singleton].
    by intros x Hx ->%list_elem_of_singleton.
Qed.

Lemma dict_set_well_keyed (k : pystr) (c : Citation)
    (d : list (pystr * Citation)) :
  file_id c = k -> (0.65 <= relevance_score c)%Q ->
  well_keyed d -> well_keyed (dict_set k c d).
Proof.
  intros Hk Hs [Hnd Hall]. split; [by apply dict_set_NoDup|].
  intros k' c' Hin. apply dict_set_elem in Hin; [|done].
  destruct Hin as [[-> ->] | [_ Hin]]; [done | by apply Hall].
Qed.

Lemma seed_uploads_spec (results : list Upload) :
  forall (rag : list pystr) (d : list (pystr * Citation)),
    well_keyed d ->
    let d' := snd (seed_uploads results rag d) in
    well_keyed d' /\
    (forall id, seeded id d -> seeded id d') /\
    Forall (fun u => seeded (up_id u) d') results.
Proof.
  induction results as [|u rest IH]; intros rag d Hd; simpl.
  - split; [done|]. split; [done | constructor].
  - match goal with
    | |- context [seed_uploads rest ?rag1 ?d1] =>
        specialize (IH rag1 d1); set (d1' := d1) in *
    end.
    assert (Hseed : forall id, seeded id d \/ id = up_id u -> seeded id d1').
    { intros id [(c & Hc & Hf & Hs & Hp) | ->].
      - destruct (decide (up_id u = id)) as [<- | Hne].
        + eexists. split; [apply dict_get_set_eq | done].
        + exists c. split; [|done]. unfold d1'.
          by rewrite dict_get_set_ne.
      - eexists. split; [apply dict_get_set_eq | done]. }
    destruct IH as (H1 & H2 & H3).
    { apply dict_set_well_keyed; [done | by vm_compute | done]. }
    split; [done|]. split.
    + intros id Hid. apply H2, Hseed. by left.
    + constructor; [|done]. apply H2, Hseed. by right.
Qed.

Lemma upload_score_floor (dist s : Q) :
  upload_score dist = Ok s -> (0.65 <= s)%Q.
Proof.
  unfold upload_score. destruct (Qeq_bool _ 0); [done|].
  intros [= <-]. apply Q.le_max_l.
Qed.

Lemma file_results_spec (fname fid : pystr) (r_list : list Document) :
  forall (rag rag' : list pystr) (d d' : list (pystr * Citation)),
    well_keyed d ->
    file_results fname fid r_list rag d = Ok (rag', d') ->
    well_keyed d' /\
    forall k, k <> fid -> dict_get k d' = dict_get k d.
Proof.
  induction r_list as [|res rest IH]; intros rag rag' d d' Hd; simpl.
  - intros H. simplify_eq. split; [done | by intros k _].
  - destruct (nonempty (strip (content res))); [|by apply IH].
    destruct (upload_score (distance res)) as [s|e] eqn:Es; [|done].
    cbn [bind]. apply upload_score_floor in Es.
    destruct (match dict_get fid d with
              | Some c => if Qlt_le_dec (relevance_score c) s
                          then true else false
              | None => true
              end); [|by apply IH].
    intros H. apply IH in H as [H1 H2].
    + split; [done|]. intros k Hk. rewrite H2 by done.
      by apply dict_get_set_ne.
    + by apply dict_set_well_keyed.
Qed.

Lemma other_files_spec (file_map : gmap (list N) pystr)
    (s_results : list (list Document)) :
  forall (other : list pystr) (rag rag' : list pystr)
         (d d' : list (pystr * Citation)),
    well_keyed d ->
    other_files file_map other s_results rag d = Ok (rag', d') ->
    well_keyed d' /\
    forall k, k ∉ other -> dict_get k d' = dict_get k d.
Proof.
  induction s_results as [|r_list s_rest IH];
    intros other rag rag' d d' Hd; simpl.
  - intros H. simplify_eq. split; [done | by intros k _].
  - destruct other as [|fid o_rest]; [done|].
    destruct (file_map !! fid) as [fname|].
    + destruct (file_results fname fid r_list rag d) as [[rag1 d1]|e] eqn:E;
        [|done].
      cbn [bind fst snd]. intros H.
      apply file_results_spec in E as [E1 E2]; [|done].
      apply IH in H as [H1 H2]; [|done].
      split; [done|]. intros k Hk. apply not_elem_of_cons in Hk as [Hk1 Hk2].
      rewrite H2 by done. by apply E2.
    + intros H. apply IH in H as [H1 H2]; [|done].
      split; [done|]. intros k Hk. apply not_elem_of_cons in Hk as [_ Hk2].
      by apply H2.
Qed.

End UploadFacts.
(** ** The chunker: the properties of the specification *)

Section ChunkerClaims.

Import Chunker.

Lemma split_loop_stuck (fuel : nat) (chunks : list pystr) :
  split_loop fuel (lit "ab") 600 600 0 chunks = None.
Proof.
  revert chunks. induction fuel as [|fuel IH]; intros chunks; [done|].
  cbn [split_loop].
  change (0 <? len (lit "ab")) with true. cbv iota zeta.
  change (next_start (lit "ab") 600 600 0) with 0.
  apply IH.
Qed.

(** C10: with the default parameters [chunk_size = 600] and
    [overlap = 120], [_split_text] returns a list for every text, given
    fuel for at most one iteration per character; every iteration moves the
    window start forward by at least [600 / 2 - 120 > 0], because the right
    edge always stays beyond [start + 600 / 2]; with [overlap = chunk_size]
    the loop never returns. *)
Theorem split_text_default_terminates :
  (forall (HAS_PYTHAINLP : bool) (sent_tokenize : pystr -> list pystr)
          (text : pystr),
     exists chunks, forall k : nat,
       _split_text HAS_PYTHAINLP sent_tokenize (enough_fuel text + k)
         text 600 120 = Some chunks) /\
  0 < 600 / 2 - 120 /\
  (forall (text : pystr) (start : Z),
     start + 600 / 2 < window_end text 600 start /\
     start + (600 / 2 - 120) <= next_start text 600 120 start) /\
  (forall (HAS_PYTHAINLP : bool) (sent_tokenize : pystr -> list pystr)
          (fuel : nat),
     _split_text HAS_PYTHAINLP sent_tokenize fuel (lit "ab") 600 600 = None).
Proof.
  split; [|split; [|split]].
  - intros HAS st text. unfold _split_text.
    destruct (nonempty text); [|by exists []].
    destruct (has_thai text && HAS); [by eexists|].
    apply split_default_terminates; [lia | by vm_compute].
  - by vm_compute.
  - intros text start.
    pose proof (window_end_lower text 600 start ltac:(lia)) as H.
    unfold next_start. split; [done|].
    change (600 / 2) with 300 in *. lia.
  - intros HAS st fuel. unfold _split_text.
    change (nonempty (lit "ab")) with true.
    change (has_thai (lit "ab")) with false. cbv iota. simpl andb. cbv iota.
    unfold split_default.
    change (normalize (lit "ab")) with (lit "ab").
    apply split_loop_stuck.
Qed.

(** C6: with [chunk_size = 600], in both modes, every chunk that
    [_split_text] emits has at most 600 characters, unless the
    language-aware mode ran and the chunk is one sentence of more than 600
    characters (stripped). *)
Theorem chunk_size_invariant (HAS_PYTHAINLP : bool)
    (sent_tokenize : pystr -> list pystr) (text : pystr) :
  exists chunks,
    _split_text HAS_PYTHAINLP sent_tokenize (enough_fuel text) text 600 120
    = Some chunks /\
    Forall (fun c =>
              len c <= 600 \/
              (has_thai text && HAS_PYTHAINLP = true /\
               exists sent, sent ∈ sent_tokenize text /\ 600 < len sent
                            /\ c = strip (sent ++ [space])))
           chunks.
Proof.
  unfold _split_text.
  destruct (nonempty text); [|by exists []].
  destruct (has_thai text && HAS_PYTHAINLP) eqn:E.
  - eexists. split; [done|].
    eapply Forall_impl; [apply split_thai_ok|].
    intros c [Hc | Hc]; [by left | by right].
  - destruct (split_default_terminates text 600 120) as [r Hr];
      [lia | by vm_compute |].
    exists r. specialize (Hr O). rewrite Nat.add_0_r in Hr.
    split; [done|].
    eapply Forall_impl.
    + eapply (split_loop_bounded (normalize text) 600 120);
        [lia | by vm_compute | | | exact Hr]; [lia | done].
    + intros c Hc. by left.
Qed.

(** The exception of C6 occurs: one Thai sentence of 601 characters is
    emitted as one chunk of 601 characters. *)
Example thai_oversized_sentence :
  _split_text true (fun t => [t]) 1 long_thai_sentence 600 120
  = Some [long_thai_sentence]
  /\ len long_thai_sentence = 601.
Proof. by vm_compute. Qed.

(** C7 as stated fails: on two 400-letter words the first window is backed
    off to the space at index 400, and the second window starts at
    [400 - 120 = 280], not at [0 + (600 - 120) = 480]; and a space exactly
    [600 / 2] characters into the window is not used, the window is cut at
    600. *)
Lemma window_step_counterexample :
  (normalize two_words = two_words /\
   window_end two_words 600 0 = 400 /\
   next_start two_words 600 120 0 = 280 /\
   next_start two_words 600 120 0 <> spec_next_start 600 120 0 /\
   split_default 4 two_words 600 120
   = Some [slice two_words 0 400; slice two_words 280 880;
           slice two_words 760 1360]) /\
  (normalize space_at_half = space_at_half /\
   rfind space space_at_half 0 600 = 0 + 600 / 2 /\
   spec_window_end space_at_half 600 0 = 300 /\
   window_end space_at_half 600 0 = 600).
Proof. by vm_compute. Qed.

(** C7, amended: the next window start is the right edge of the window
    minus [overlap]; the right edge is the last space of the window when the
    window ends before the end of the text and that space lies strictly
    beyond [start + chunk_size // 2], and then the next start is less than
    the previous start plus [chunk_size - overlap]; otherwise the right edge
    is [start + chunk_size] (a hard cut) and the next start is the previous
    start plus [chunk_size - overlap]. *)
Theorem window_step (text : pystr) (chunk_size overlap start : Z)
    (Hstart : 0 <= start) (Hsize : 0 <= chunk_size) :
  (forall (fuel : nat) (chunks : list pystr),
     start < len text ->
     split_loop (S fuel) text chunk_size overlap start chunks
     = split_loop fuel text chunk_size overlap
         (next_start text chunk_size overlap start)
         (if nonempty (strip (slice text start
                                (window_end text chunk_size start)))
          then chunks ++ [slice text start (window_end text chunk_size start)]
          else chunks)) /\
  next_start text chunk_size overlap start
  = window_end text chunk_size start - overlap /\
  ((backs_off text chunk_size start /\
    window_end text chunk_size start
    = rfind space text start (start + chunk_size) /\
    text !! Z.to_nat (window_end text chunk_size start) = Some space /\
    (forall j : nat,
       window_end text chunk_size start < Z.of_nat j < start + chunk_size ->
       text !! j <> Some space) /\
    next_start text chunk_size overlap start
    < spec_next_start chunk_size overlap start)
   \/
   (~ backs_off text chunk_size start /\
    window_end text chunk_size start = start + chunk_size /\
    next_start text chunk_size overlap start
    = spec_next_start chunk_size overlap start)).
Proof.
  split; [|split; [done|]].
  - intros fuel chunks Hlt. cbn [split_loop].
    apply Z.ltb_lt in Hlt. by rewrite Hlt.
  - unfold next_start, spec_next_start.
    destruct (window_end_cases text chunk_size start)
      as [[Hb He] | [Hb He]]; [left | right; split; [done | split; [done | lia]]].
    destruct Hb as (Hlen & Hne & Hhalf).
    split; [done|]. split; [done|].
    rewrite He.
    pose proof (len_nonneg text) as Hl.
    destruct (rfind_range space text start (start + chunk_size)) as [E | E];
      [done|].
    rewrite !clamp_nonneg in E by lia.
    unfold rfind in *. rewrite !clamp_nonneg in * by lia.
    destruct (rfind_down_found space text (Z.to_nat (Z.min start (len text)))
                (Z.to_nat (Z.min (start + chunk_size) (len text)
                           - Z.min start (len text))) Hne) as [Hat Hlater].
    split; [done|]. split; [|lia].
    intros j Hj. apply Hlater. lia.
Qed.

Lemma window_step_witness :
  0 <= 0 /\ 0 <= 600 /\
  next_start two_words 600 120 0 = window_end two_words 600 0 - 120.
Proof.
  split; [lia | split; [lia|]].
  exact (proj1 (proj2 (window_step two_words 600 120 0
                         ltac:(lia) ltac:(lia)))).
Defined.

End ChunkerClaims.
(** ** The retrieval engine: the properties of the specification *)

Section VectorClaims.

Import VectorService.

Context (HAS_PYTHAINLP : bool)
  (sent_tokenize word_tokenize : pystr -> list pystr)
  (lower : pystr -> pystr) (Collection : Type)
  (chroma_get_or_create :
     option Collection -> pystr -> pystr -> exn Collection)
  (chroma_query : Collection -> pystr -> Z -> option Where -> exn QueryResult)
  (chroma_get : Collection -> option Where -> Z -> exn GetResult)
  (chroma_add : Collection -> list pystr -> list pystr -> list Metadata
                -> exn Collection)
  (_extract_with_metadata : pystr -> list ContentObject).

Local Abbreviation search :=
  (search HAS_PYTHAINLP word_tokenize lower Collection chroma_query chroma_get).
Local Abbreviation search_body :=
  (search_body HAS_PYTHAINLP word_tokenize lower Collection chroma_query
     chroma_get).
Local Abbreviation process_document :=
  (process_document HAS_PYTHAINLP sent_tokenize Collection chroma_get_or_create
     chroma_add _extract_with_metadata).

(** C1, amended: the collection name is ["user_"] followed by the user id
    with every hyphen replaced by an underscore (no other character is
    changed); writing and searching compute the same name for a user; for
    two distinct user ids that hold no underscore (the canonical UUID
    strings the callers pass hold none) the names differ, and what user B
    indexes never changes what a search by user A returns. *)
Theorem cross_user_isolation (A B : pystr)
    (HA : 95%N ∉ A) (HB : 95%N ∉ B) (Hne : A <> B) :
  process_document_collection_name A = search_collection_name A /\
  search_collection_name A
  = lit "user_" ++ map (fun c => if (c =? 45)%N then 95%N else c) A /\
  search_collection_name A <> process_document_collection_name B /\
  forall (client : gmap (list N) Collection)
         (file_path file_id query : pystr) (n_results : Z)
         (file_ids : option (list pystr)),
    search (fst (process_document (Some client) file_path file_id B))
      A query n_results file_ids
    = search (Some client) A query n_results file_ids.
Proof.
  assert (Hnames : search_collection_name A
                   <> process_document_collection_name B).
  { unfold search_collection_name, process_document_collection_name.
    intros E. apply app_inv_head in E.
    by apply replace_hyphens_inj in E. }
  split; [done|]. split; [done|]. split; [done|].
  intros client file_path file_id query n_results file_ids.
  destruct (process_document_lookup HAS_PYTHAINLP sent_tokenize Collection
              chroma_get_or_create chroma_add _extract_with_metadata client
              file_path file_id B (search_collection_name A) Hnames)
    as (c' & -> & Hc').
  by apply search_lookup.
Qed.

(** C2, amended: when the keyword-overlap ratio [r] of a Stage-1 candidate
    at distance [d] is positive, the rescored distance is
    [max(0.01, d - min(d, r * 0.9))] with the Thai tokenizer and
    [max(0.01, d - min(0.5, r * 0.6))] without it; it is at least [0.01],
    at most [max(0.01, d)], and at most [d] when [d >= 0.01]. *)
Theorem rescoring_bound (dist : Q) (query doc : pystr)
    (Hr : (0 < keyword_ratio HAS_PYTHAINLP word_tokenize lower query doc)%Q) :
  let r := keyword_ratio HAS_PYTHAINLP word_tokenize lower query doc in
  let d' := rescore HAS_PYTHAINLP word_tokenize lower dist query doc in
  d' = (if HAS_PYTHAINLP
        then Qmax 0.01 (dist - Qmin dist (r * 0.9))
        else Qmax 0.01 (dist - Qmin 0.5 (r * 0.6)))%Q /\
  (0.01 <= d')%Q /\
  (d' <= Qmax 0.01 dist)%Q /\
  ((0.01 <= dist)%Q -> (d' <= dist)%Q).
Proof.
  cbv zeta. unfold keyword_ratio, rescore in *.
  destruct HAS_PYTHAINLP.
  - unfold thai_boost.
    destruct (decide (target_words word_tokenize lower query = ∅));
      [by apply Qlt_irrefl in Hr|].
    destruct (Qlt_le_dec 0 (match_ratio word_tokenize lower query doc))
      as [Hpos | Hle]; [|lra].
    split; [done|]. apply boosted_bounds.
    destruct (Q.min_spec dist (match_ratio word_tokenize lower query doc
                               * 0.9)) as [[H1 H2] | [H1 H2]];
      rewrite H2; [right | left]; lra.
  - unfold simple_boost, found_ratio in *.
    destruct (foundCount lower query doc) as [|fc] eqn:Efc;
      [by apply to_Q_zero_div in Hr|].
    assert (Hne : nonempty (query_words lower query) = true).
    { unfold foundCount in Efc.
      destruct (query_words lower query); [done | done]. }
    rewrite Hne. change (0 <? S fc)%nat with true. cbv iota.
    split; [done|]. apply boosted_bounds. left.
    destruct (Q.min_spec 0.5 (to_Q (S fc)
                              / to_Q (length (query_words lower query))
                              * 0.6)) as [[H1 H2] | [H1 H2]];
      rewrite H2; lra.
Qed.

(** C3: when Stage 1 accepts a candidate its result is returned and no
    fallback runs; when it accepts none and the query is not empty, Stage 2
    reads a pool with [get(where_filter, limit=50)] and keeps, in order and
    at distance 0.4, the first [n_results] chunks of the pool whose
    lowercased text contains a query token longer than two characters;
    Stage 3 runs when Stage 2 kept nothing or did not run, and returns the
    chunks of [get(where_filter, limit=5)] at distance 0.6. *)
Theorem fallback_cascade (collection : Collection) (query : pystr)
    (n_results : Z) (where_filter : option Where) (results : QueryResult)
    (Hn : 1 <= n_results)
    (Hquery : chroma_query collection query n_results where_filter
              = Ok results) :
  (forall documents,
     stage1 HAS_PYTHAINLP word_tokenize lower results query = Ok documents ->
     documents <> [] ->
     search_body collection query n_results where_filter = Ok documents) /\
  (forall pool,
     stage1 HAS_PYTHAINLP word_tokenize lower results query = Ok [] ->
     query <> [] ->
     chroma_get collection where_filter 50 = Ok pool ->
     length (gr_metadatas pool) = length (gr_documents pool) ->
     let kept :=
       take (Z.to_nat n_results)
         (List.filter (fun row => keyword_hit lower query (fst row))
            (zip (gr_documents pool) (gr_metadatas pool))) in
     stage2 lower pool query n_results [] = Ok (map (keyword_row 0.4) kept)
     /\ Forall (fun d => distance d = 0.4%Q
                         /\ exists word : pystr,
                              word ∈ split (lower query)
                              /\ (2 < length word)%nat
                              /\ contains word (lower (content d)) = true)
          (map (keyword_row 0.4) kept)
     /\ (length kept <= Z.to_nat n_results)%nat
     /\ (length kept <= length (gr_documents pool))%nat
     /\ (kept <> [] ->
         search_body collection query n_results where_filter
         = Ok (map (keyword_row 0.4) kept))
     /\ (kept = [] ->
         forall intro_chunks,
           chroma_get collection where_filter 5 = Ok intro_chunks ->
           length (gr_metadatas intro_chunks)
           = length (gr_documents intro_chunks) ->
           search_body collection query n_results where_filter
           = Ok (map (keyword_row 0.6)
                   (zip (gr_documents intro_chunks)
                      (gr_metadatas intro_chunks))))) /\
  (forall intro_chunks,
     stage1 HAS_PYTHAINLP word_tokenize lower results query = Ok [] ->
     query = [] ->
     chroma_get collection where_filter 5 = Ok intro_chunks ->
     length (gr_metadatas intro_chunks)
     = length (gr_documents intro_chunks) ->
     search_body collection query n_results where_filter
     = Ok (map (keyword_row 0.6)
             (zip (gr_documents intro_chunks) (gr_metadatas intro_chunks)))
     /\ length (zip (gr_documents intro_chunks) (gr_metadatas intro_chunks))
        = length (gr_documents intro_chunks)).
Proof.
  split; [|split].
  - intros documents H1 Hne. unfold VectorService.search_body.
    rewrite Hquery. cbn [bind]. rewrite H1. cbn [bind].
    destruct documents; [done|]. done.
  - intros pool H1 Hq Hpool Hwf kept.
    assert (Hs2 : stage2 lower pool query n_results []
                  = Ok (map (keyword_row 0.4) kept)).
    { unfold stage2. rewrite (stage2_loop_spec lower pool query n_results
                                (gr_documents pool) 0 (gr_metadatas pool) []);
        [|done | done | by left].
      unfold length_Z. simpl.
      replace (Z.max 1 (n_results - Z.of_nat 0)) with n_results by lia.
      done. }
    split; [done|]. split; [|split; [|split; [|split]]].
    + apply Forall_map, Forall_forall. intros row Hrow. split; [done|].
      apply keyword_hit_iff. apply list_elem_of_In in Hrow.
      unfold kept in Hrow. apply list_elem_of_In in Hrow.
      apply elem_of_take in Hrow as (i & Hrow & _).
      apply list_elem_of_lookup_2, list_elem_of_In, filter_In in Hrow.
      by destruct Hrow.
    + unfold kept. rewrite length_take. lia.
    + unfold kept. rewrite length_take.
      etransitivity; [apply Nat.le_min_r|].
      etransitivity; [apply filter_length_le|].
      rewrite length_zip_with_l_eq; [lia | by rewrite Hwf].
    + intros Hkept. unfold VectorService.search_body.
      rewrite Hquery. cbn [bind]. rewrite H1. cbn [bind].
      destruct query; [done|]. simpl negb. simpl andb. cbv iota.
      rewrite Hpool. cbn [bind]. rewrite Hs2. cbn [bind].
      destruct kept; [done|]. done.
    + intros Hkept intro_chunks Hintro Hwf'.
      unfold VectorService.search_body.
      rewrite Hquery. cbn [bind]. rewrite H1. cbn [bind].
      destruct query; [done|]. simpl negb. simpl andb. cbv iota.
      rewrite Hpool. cbn [bind]. rewrite Hs2, Hkept. cbn [bind map nonempty negb].
      rewrite Hintro. cbn [bind]. unfold stage3.
      by rewrite (stage3_loop_spec intro_chunks (gr_documents intro_chunks) 0
                    (gr_metadatas intro_chunks) []).
  - intros intro_chunks H1 Hq Hintro Hwf. split.
    + unfold VectorService.search_body.
      rewrite Hquery. cbn [bind]. rewrite H1. cbn [bind]. subst query.
      cbn [nonempty negb andb bind]. rewrite Hintro. cbn [bind].
      unfold stage3.
      by rewrite (stage3_loop_spec intro_chunks (gr_documents intro_chunks) 0
                    (gr_metadatas intro_chunks) []).
    + rewrite length_zip_with_l_eq; [done | by rewrite Hwf].
Qed.

(** C8: [search] always returns a list, it raises nothing; it returns the
    empty list when there is no client, when the collection of the user
    does not exist, and when the store query, or anything after it in the
    search, raises. *)
Theorem search_never_raises (client : option (gmap (list N) Collection))
    (user_id query : pystr) (n_results : Z)
    (file_ids : option (list pystr)) :
  (exists documents,
     search client user_id query n_results file_ids = Ok documents) /\
  (match client with
  | None => search client user_id query n_results file_ids = Ok []
  | Some c =>
      match c !! search_collection_name user_id with
      | None => search client user_id query n_results file_ids = Ok []
      | Some collection =>
          match chroma_query collection query n_results
                  (build_where file_ids) with
          | Raise _ => search client user_id query n_results file_ids = Ok []
          | Ok _ =>
              match search_body collection query n_results
                      (build_where file_ids) with
              | Raise _ =>
                  search client user_id query n_results file_ids = Ok []
              | Ok documents =>
                  search client user_id query n_results file_ids
                  = Ok documents
              end
          end
      end
  end).
Proof.
  unfold VectorService.search, get_collection. split.
  - destruct client as [c|]; [|by eexists]. cbv zeta.
    destruct (c !! search_collection_name user_id) as [col|]; [|by eexists].
    destruct (VectorService.search_body _ _ _ _ _ _ _ _ _ _) as [d|e];
      by eexists.
  - destruct client as [c|]; [|done]. cbv zeta.
    destruct (c !! search_collection_name user_id) as [col|]; [|done].
    destruct (chroma_query col query n_results (build_where file_ids))
      as [r|e] eqn:Eq.
    + by destruct (VectorService.search_body _ _ _ _ _ _ _ _ _ _).
    + unfold VectorService.search_body. by rewrite Eq.
Qed.

End VectorClaims.
(** ** The retrieval engine on the list-backed store *)

Section VectorExamples.

Import VectorService.

Local Abbreviation pd :=
  (process_document true split ListStore.Collection ListStore.get_or_create
     ListStore.add ListStore.extract).
Local Abbreviation srch :=
  (search true split ascii_lower ListStore.Collection ListStore.query
     ListStore.get).

(** C1 as stated fails: the distinct user ids ["a-b"] and ["a_b"] get the
    same collection, so that a search by ["a-b"] returns the chunk that
    ["a_b"] indexed; and a character that is neither a letter, a digit nor
    a hyphen is kept as it is. *)
Lemma isolation_counterexample :
  lit "a-b" <> lit "a_b" /\
  search_collection_name (lit "a-b")
  = process_document_collection_name (lit "a_b") /\
  srch (fst (pd (Some ∅) (lit "f.txt") (lit "F1") (lit "a_b")))
    (lit "a-b") (lit "total") 5 None
  = Ok [{| content := lit "invoice total";
           metadata := {| md_file_id := Some (lit "F1");
                          md_page := Some (lit "General");
                          md_user_id := Some (lit "a_b");
                          md_chunk_index := Some 0 |};
           distance := 0.1 |}] /\
  search_collection_name (lit "a.b") = lit "user_a.b".
Proof. by vm_compute. Qed.

Lemma cross_user_isolation_witness :
  (95%N ∉ lit "123e4567-e89b-12d3-a456-426614174000") /\
  (95%N ∉ lit "9b2d8c1e-0f3a-4c5d-8e7f-6a5b4c3d2e1f") /\
  lit "123e4567-e89b-12d3-a456-426614174000"
  <> lit "9b2d8c1e-0f3a-4c5d-8e7f-6a5b4c3d2e1f" /\
  search_collection_name (lit "123e4567-e89b-12d3-a456-426614174000")
  <> process_document_collection_name
       (lit "9b2d8c1e-0f3a-4c5d-8e7f-6a5b4c3d2e1f").
Proof.
  assert (H1 : 95%N ∉ lit "123e4567-e89b-12d3-a456-426614174000")
    by (apply (bool_decide_unpack _); vm_compute; exact I).
  assert (H2 : 95%N ∉ lit "9b2d8c1e-0f3a-4c5d-8e7f-6a5b4c3d2e1f")
    by (apply (bool_decide_unpack _); vm_compute; exact I).
  assert (H3 : lit "123e4567-e89b-12d3-a456-426614174000"
               <> lit "9b2d8c1e-0f3a-4c5d-8e7f-6a5b4c3d2e1f")
    by (apply (bool_decide_unpack _); vm_compute; exact I).
  split; [exact H1|]. split; [exact H2|]. split; [exact H3|].
  exact (proj1 (proj2 (proj2
    (cross_user_isolation true split split ascii_lower ListStore.Collection
       ListStore.get_or_create ListStore.query ListStore.get ListStore.add
       ListStore.extract _ _ H1 H2 H3)))).
Defined.

(** C2 as stated fails: a candidate at distance 0.005 whose only query word
    occurs in its text is rescored to 0.01, above its distance. *)
Lemma rescoring_counterexample :
  (0 <= 0.005)%Q /\
  (0 < keyword_ratio true split ascii_lower (lit "total")
         (lit "invoice total"))%Q /\
  rescore true split ascii_lower 0.005 (lit "total") (lit "invoice total")
  = 0.01%Q /\
  ~ (rescore true split ascii_lower 0.005 (lit "total")
       (lit "invoice total") <= 0.005)%Q.
Proof. by vm_compute. Qed.

Lemma rescoring_bound_witness :
  (0 < keyword_ratio true split ascii_lower (lit "total")
         (lit "invoice total"))%Q /\
  (0.01 <= rescore true split ascii_lower 0.5 (lit "total")
             (lit "invoice total"))%Q.
Proof.
  assert (H : (0 < keyword_ratio true split ascii_lower (lit "total")
                     (lit "invoice total"))%Q) by (by vm_compute).
  split; [exact H|].
  exact (proj1 (proj2
    (rescoring_bound true split ascii_lower 0.5 (lit "total")
       (lit "invoice total") H))).
Defined.

Lemma fallback_cascade_witness :
  1 <= 5 /\
  ListStore.empty_query ListStore.pool_F1 (lit "the total") 5
    (Some (WhereEq (lit "F1")))
  = Ok {| qr_documents := [[]]; qr_distances := [[]];
          qr_metadatas := Some [[]] |} /\
  search_body true split ascii_lower ListStore.Collection
    ListStore.empty_query ListStore.get ListStore.pool_F1 (lit "the total") 5
    (Some (WhereEq (lit "F1")))
  = Ok [{| content := lit "Invoice TOTAL 500";
           metadata := {| md_file_id := Some (lit "F1");
                          md_page := Some (lit "Page 1");
                          md_user_id := Some (lit "u");
                          md_chunk_index := Some 0 |};
           distance := 0.4 |}].
Proof.
  split; [lia|]. split; [reflexivity|].
  refine (proj1 (proj2 (proj2 (proj2 (proj2
    (proj1 (proj2
      (fallback_cascade true split ascii_lower ListStore.Collection
         ListStore.empty_query ListStore.get ListStore.pool_F1 (lit "the total") 5
         (Some (WhereEq (lit "F1"))) _ ltac:(lia) eq_refl))
      {| gr_documents := map fst ListStore.pool_F1; gr_metadatas := map snd ListStore.pool_F1 |}
      eq_refl _ eq_refl eq_refl))))) _).
  - by vm_compute.
  - by vm_compute.
Defined.

(** C8 on the list-backed store: no client, no collection, and a store
    whose query raises all give the empty list. *)
Example search_degrades :
  srch None (lit "u-1") (lit "total") 5 None = Ok [] /\
  srch (Some ∅) (lit "u-1") (lit "total") 5 None = Ok [] /\
  search true split ascii_lower ListStore.Collection ListStore.failing_query
    ListStore.get (Some {[ lit "user_u_1" := ListStore.pool_F1 ]}) (lit "u-1")
    (lit "total") 5 None = Ok [].
Proof. by vm_compute. Qed.

End VectorExamples.
(** ** The completion orchestrator: the properties of the specification *)

Section LLMClaims.

Import LLMService.

Context (system_prompt : pystr) (provider_type_str : ProviderType -> pystr)
  (google_generate_content :
     pystr -> pystr -> pystr -> option (list Image) -> exn pystr)
  (post_chat_completions :
     pystr -> pystr -> pystr -> pystr -> option (list Image)
     -> exn Completion)
  (post_messages :
     pystr -> pystr -> pystr -> option (list Image) -> exn Completion).

Local Abbreviation generate_response :=
  (generate_response system_prompt provider_type_str google_generate_content
     post_chat_completions post_messages).
Local Abbreviation delegate :=
  (delegate provider_type_str google_generate_content post_chat_completions
     post_messages).

(** C9, amended: [generate_response] never raises; when the delegated
    call raises, it returns a response whose content is the error marker
    followed by the text of the exception, with [completion_tokens = 0] and
    no error classification; the classification [quota_exceeded] is set
    only by the Google delegate, when the Google call fails with a message
    that contains ["429"] or ["RESOURCE_EXHAUSTED"], and that response also
    has [completion_tokens = 0]: every response, of a success or of a
    failure, of any provider, carries no classification or
    [quota_exceeded], and it carries [quota_exceeded] exactly when the
    provider is Google and the Google call failed with such a message. *)
Theorem completion_failure_handling (message : pystr) (provider : Provider)
    (model : pystr) (context : option (list pystr))
    (history : option (list Message)) (images : option (list Image)) :
  let prompt := full_prompt system_prompt message context history in
  let prompt_tokens := len prompt / 4 in
  (exists r,
     generate_response message provider model context history images
     = Ok r) /\
  (match delegate provider model prompt prompt_tokens images with
   | Raise error_text =>
       generate_response message provider model context history images
       = Ok {| content := [10060%N] ++ lit " **Error**: " ++ error_text;
               model := model;
               prompt_tokens := prompt_tokens;
               completion_tokens := 0;
               total_tokens := prompt_tokens;
               error_type := None |}
   | Ok r =>
       generate_response message provider model context history images
       = Ok r
   end) /\
  (match provider_type provider with
   | GOOGLE =>
       match google_generate_content (api_key provider) model prompt
               images with
       | Raise error_msg =>
           generate_response message provider model context history images
           = Ok (if contains (lit "429") error_msg
                    || contains (lit "RESOURCE_EXHAUSTED") error_msg
                 then {| content := quota_message;
                         model := model;
                         prompt_tokens := prompt_tokens;
                         completion_tokens := 0;
                         total_tokens := prompt_tokens;
                         error_type := Some (lit "quota_exceeded") |}
                 else {| content :=
                           [10060%N] ++ lit " **Error**: " ++ error_msg;
                         model := model;
                         prompt_tokens := prompt_tokens;
                         completion_tokens := 0;
                         total_tokens := prompt_tokens;
                         error_type := None |})
       | Ok _ => True
       end
   | _ => True
   end) /\
  (match generate_response message provider model context history images
   with
   | Ok r =>
       (error_type r = None \/ error_type r = Some (lit "quota_exceeded")) /\
       (error_type r = Some (lit "quota_exceeded") <->
        provider_type provider = GOOGLE /\
        exists error_msg,
          google_generate_content (api_key provider) model prompt images
          = Raise error_msg /\
          contains (lit "429") error_msg
          || contains (lit "RESOURCE_EXHAUSTED") error_msg = true) /\
       (error_type r = Some (lit "quota_exceeded") ->
        content r = quota_message /\ completion_tokens r = 0)
   | Raise _ => False
   end).
Proof.
  intros prompt prompt_tokens.
  unfold LLMService.generate_response. cbv zeta.
  fold prompt. fold prompt_tokens.
  split; [|split; [|split]].
  - destruct (LLMService.delegate _ _ _ _ _ _ _ _ _); by eexists.
  - by destruct (LLMService.delegate _ _ _ _ _ _ _ _ _).
  - destruct (provider_type provider) eqn:Et; try done.
    unfold LLMService.delegate. rewrite Et. unfold _generate_google.
    destruct (google_generate_content (api_key provider) model prompt images)
      as [t | e]; [done|].
    cbn [bind try_except].
    by destruct (contains (lit "429") e
                 || contains (lit "RESOURCE_EXHAUSTED") e).
  - unfold LLMService.delegate.
    destruct (provider_type provider) eqn:Et;
      try (unfold _generate_openai_compatible;
           destruct (negb _ && bool_decide _); cbn [try_except];
           [|destruct (post_chat_completions _ _ _ _ _) as [data|e];
             cbn [bind try_except]];
           (split; [by left|]); (split; [|done]);
           (split; [done | by intros [? _]])).
    + unfold _generate_anthropic.
      destruct (post_messages _ _ _ _) as [data|e]; cbn [bind try_except];
        (split; [by left|]); (split; [|done]);
        (split; [done | by intros [? _]]).
    + unfold _generate_google.
      destruct (google_generate_content (api_key provider) model prompt
                  images) as [t | e] eqn:Eg; cbn [bind try_except].
      * split; [by left|]. split; [|done].
        split; [done | by intros [_ (? & ? & _)]].
      * destruct (contains (lit "429") e
                  || contains (lit "RESOURCE_EXHAUSTED") e) eqn:Eq;
          cbn [try_except error_type error_response].
        -- split; [by right|]. split; [|done].
           split; [intros _; split; [done | by exists e] | done].
        -- split; [by left|]. split; [|done].
           split; [done|]. intros [_ (e' & [= <-] & He')]. congruence.
    + cbn [try_except error_type error_response].
      split; [by left|]. split; [|done]. split; [done | by intros [? _]].
Qed.

End LLMClaims.

Section LLMExamples.

Import LLMService.

(** C9 as stated fails: when the HTTP call of an OpenAI-compatible
    provider raises, and when the Google call raises with a message that
    is not about the quota, the response carries no error
    classification. *)
Lemma error_classification_counterexample :
  (delegate provider_type_name google_quota post_fails messages_fail
     openai_provider (lit "gpt-4o")
     (full_prompt [] (lit "hi") None None)
     (len (full_prompt [] (lit "hi") None None) / 4) None
   = Raise (lit "Server error '500 Internal Server Error'")) /\
  (error_type
   <$> (match generate_response [] provider_type_name google_quota
                post_fails messages_fail (lit "hi") openai_provider
                (lit "gpt-4o") None None None with
        | Ok r => Some r
        | Raise _ => None
        end)) = Some None /\
  (error_type
   <$> (match generate_response [] provider_type_name google_down post_fails
                messages_fail (lit "hi") google_provider
                (lit "gemini-2.0-flash") None None None with
        | Ok r => Some r
        | Raise _ => None
        end)) = Some None.
Proof. by vm_compute. Qed.

(** The quota response of the Google delegate. *)
Example google_quota_response :
  generate_response [] provider_type_name google_quota post_fails
    messages_fail (lit "hi") google_provider (lit "gemini-2.0-flash")
    None None None
  = Ok {| content := quota_message; model := lit "gemini-2.0-flash";
          prompt_tokens := 9; completion_tokens := 0; total_tokens := 9;
          error_type := Some (lit "quota_exceeded") |}.
Proof. by vm_compute. Qed.

End LLMExamples.
(** ** The citation ranker: the properties of the specification *)

Section CitationClaims.

Import VectorService CitationRanker.




Lemma dict_keys_file_id (d : list (pystr * Citation)) :
  (forall k c, (k, c) ∈ d -> file_id c = k) ->
  map file_id (map snd d) = map fst d.
Proof.
  induction d as [|[k c] d IH]; intros H; simpl; [done|].
  rewrite (H k c) by apply list_elem_of_here.
  f_equal. apply IH. intros k' c' Hin. apply H. by apply list_elem_of_further.
Qed.

(** C5 as stated fails: of three results over two files, the only result
    of the second file is blank, and one citation is produced, not two. *)
Lemma dedup_counterexample :
  length three_results = 3%nat /\
  length (remove_dups (map fid_of three_results)) = 2%nat /\
  length (citations ascii_lower (lit "what is the total") ∅ three_results)
  = 1%nat.
Proof. by vm_compute. Qed.

(** C5, amended: of search results whose distances are not negative, the
    citation list holds exactly one citation per distinct file id among
    the results whose content is not blank (blank results are skipped);
    each carries the highest relevance score among those results of its
    file; and the list is in descending order of relevance score. *)
Theorem citation_dedup (lower : pystr -> pystr) (clean_query : pystr)
    (file_names : gmap (list N) pystr) (search_results : list Document)
    (Hdist : Forall (fun r => (0 <= distance r)%Q) search_results) :
  let cits := citations lower clean_query file_names search_results in
  let score := fun r : Document =>
    relevance (is_broad_query lower clean_query) (distance r) in
  NoDup (map file_id cits) /\
  (forall f, f ∈ map file_id cits <-> f ∈ map fid_of (live search_results)) /\
  length cits = length (remove_dups (map fid_of (live search_results))) /\
  Forall (fun c =>
            (exists r, r ∈ live search_results /\ fid_of r = file_id c
                       /\ score r = Ok (relevance_score c)) /\
            (forall r s, r ∈ live search_results -> fid_of r = file_id c ->
                         score r = Ok s -> (s <= relevance_score c)%Q))
         cits /\
  StronglySorted desc cits.
Proof.
  intros cits score.
  destruct (rank_loop_inv lower clean_query file_names search_results Hdist
              [] [] []) as (d & Ed & Hnd & Hbest & Hkeys & Hback).
  { split; [constructor|]. split; [by intros k c ?%elem_of_nil|].
    split; [by intros r ?%elem_of_nil | by intros k ?%elem_of_nil]. }
  simpl in Hbest, Hkeys, Hback.
  assert (Ecits : cits = sort_desc (map snd d)).
  { unfold cits, citations. by rewrite Ed. }
  assert (Hperm : cits ≡ₚ map snd d).
  { rewrite Ecits. apply sort_desc_perm. }
  assert (Hfid : map file_id cits ≡ₚ map fst d).
  { rewrite <- (dict_keys_file_id d); [by apply Permutation_map|].
    intros k c Hin. by destruct (Hbest k c Hin). }
  assert (Hmem : forall f, f ∈ map file_id cits
                           <-> f ∈ map fid_of (live search_results)).
  { intros f. rewrite Hfid. split.
    - intros Hf. destruct (Hback f Hf) as (r & Hr & <-).
      apply elem_of_map. by exists r.
    - intros (r & -> & Hr)%elem_of_map. by apply Hkeys. }
  assert (Hnodup : NoDup (map file_id cits)) by (by rewrite Hfid).
  split; [done|]. split; [done|]. split; [|split].
  - rewrite <- (length_map file_id cits). apply Permutation_length.
    apply NoDup_Permutation; [done | apply NoDup_remove_dups|].
    intros f. rewrite Hmem. by rewrite elem_of_remove_dups.
  - apply Forall_forall. intros c Hc.
    rewrite Hperm in Hc.
    apply elem_of_map in Hc as ([k c'] & -> & Hin). simpl.
    destruct (Hbest k c' Hin) as (Hk & (r & Hr & Hf & Hs) & Hmax).
    split.
    + exists r. by rewrite Hk.
    + intros r' s' Hr' Hf' Hs'. apply (Hmax r' s' Hr'); [by rewrite Hf' | done].
  - rewrite Ecits. apply sort_desc_sorted.
Qed.

Lemma citation_dedup_witness :
  Forall (fun r => (0 <= distance r)%Q) three_results /\
  length (citations ascii_lower (lit "what is the total") ∅ three_results)
  = length (remove_dups (map fid_of (live three_results))).
Proof.
  assert (H : Forall (fun r => (0 <= distance r)%Q) three_results)
    by (repeat constructor; by vm_compute).
  split; [exact H|].
  exact (proj1 (proj2 (proj2
    (citation_dedup ascii_lower (lit "what is the total") ∅ three_results
       H)))).
Defined.

End CitationClaims.
(** ** The chunker: further properties *)

Section ChunkerExtras.

Import Chunker.

(** X1: the default mode loses no text. When the overlap is at most half of
    the chunk size, the chunks of a text put back together (the first
    chunk, then every later chunk without its first [overlap] characters)
    are the whitespace-normalized text. *)
Theorem chunks_reassemble (HAS_PYTHAINLP : bool)
    (sent_tokenize : pystr -> list pystr) (text : pystr)
    (chunk_size overlap : Z)
    (Hsize : 2 <= chunk_size) (Hov0 : 0 <= overlap)
    (Hov : overlap <= chunk_size / 2)
    (Hmode : has_thai text && HAS_PYTHAINLP = false) :
  exists chunks,
    _split_text HAS_PYTHAINLP sent_tokenize (enough_fuel text) text
      chunk_size overlap = Some chunks /\
    reassemble overlap chunks = normalize text.
Proof.
  unfold _split_text. rewrite Hmode.
  destruct (nonempty text) eqn:Ene;
    [|destruct text; [by exists [] | done]].
  destruct (split_default_terminates text chunk_size overlap)
    as [r Hr]; [lia | done |].
  specialize (Hr O). rewrite Nat.add_0_r in Hr.
  exists r. split; [done|].
  eapply (split_loop_covers (normalize text) chunk_size overlap);
    [apply normalize_well_spaced | done | done | done | | | exact Hr].
  - lia.
  - by left.
Qed.

Lemma chunks_reassemble_witness :
  2 <= 600 /\ 0 <= 120 /\ 120 <= 600 / 2 /\
  has_thai two_words && true = false /\
  exists chunks,
    _split_text true (fun t => [t]) (enough_fuel two_words) two_words 600 120
    = Some chunks /\
    reassemble 120 chunks = normalize two_words.
Proof.
  assert (H1 : 2 <= 600) by lia.
  assert (H2 : 0 <= 120) by lia.
  assert (H3 : 120 <= 600 / 2) by (by vm_compute).
  assert (H4 : has_thai two_words && true = false) by (by vm_compute).
  split; [exact H1|]. split; [exact H2|]. split; [exact H3|].
  split; [exact H4|].
  exact (chunks_reassemble true (fun t => [t]) two_words 600 120 H1 H2 H3 H4).
Defined.

(** X2: with the default parameters, in default mode, a text whose
    normalized form has at most 600 characters gives no chunk when it is
    blank, one chunk (the normalized text) when that form has at most 480
    characters, and two chunks otherwise: the normalized text and its tail
    from character 480 on. *)
Theorem short_text_chunks (HAS_PYTHAINLP : bool)
    (sent_tokenize : pystr -> list pystr) (text : pystr)
    (Hmode : has_thai text && HAS_PYTHAINLP = false)
    (Hshort : len (normalize text) <= 600) :
  _split_text HAS_PYTHAINLP sent_tokenize (enough_fuel text) text 600 120
  = Some (if nonempty (normalize text)
          then (if len (normalize text) <=? 480 then [normalize text]
                else [normalize text; drop 480 (normalize text)])
          else []).
Proof.
  unfold _split_text. rewrite Hmode.
  destruct (nonempty text) eqn:Ene; [|by destruct text].
  destruct (split_default_terminates text 600 120) as [r Hr];
    [lia | by vm_compute |].
  rewrite <- (Nat.add_0_r (enough_fuel text)), (Hr O).
  specialize (Hr 2%nat). rewrite <- Hr. clear Hr r.
  unfold split_default, enough_fuel.
  pose proof (normalize_well_spaced text) as Hw.
  set (t := normalize text) in *.
  replace (S (length text) + 2)%nat with (S (S (S (length text)))) by lia.
  destruct t as [|c t'] eqn:Ett; [done|]. rewrite <- Ett in *.
  assert (Hpos : 0 < len t) by (rewrite Ett; unfold len; simpl; lia).
  assert (Ene' : nonempty t = true) by (by rewrite Ett).
  rewrite Ene'.
  assert (Hwe : forall s, window_end t 600 s = s + 600 \/ s + 600 < len t).
  { intros s. unfold window_end. cbv zeta.
    destruct (s + 600 <? len t) eqn:E; [right; by apply Z.ltb_lt | by left]. }
  cbn [split_loop nonempty].
  assert (E0 : (0 <? len t) = true) by (apply Z.ltb_lt; lia).
  rewrite E0.
  pose proof (window_has_text t 600 0 Hw ltac:(lia) ltac:(lia) Hpos) as Htxt0.
  rewrite (strip_has_text _ Htxt0).
  unfold next_start.
  destruct (Hwe 0) as [-> | ?]; [|lia].
  change (0 + 600 - 120) with 480.
  assert (Es0 : slice t 0 (0 + 600) = t).
  { rewrite slice_nonneg by lia. unfold len in *.
    replace (Z.to_nat (0 `min` Z.of_nat (length t))) with 0%nat by lia.
    simpl. apply firstn_all2. lia. }
  rewrite Es0. simpl ([] ++ [t]).
  destruct (len t <=? 480) eqn:E480.
  - apply Z.leb_le in E480.
    assert (E1 : (480 <? len t) = false) by (apply Z.ltb_ge; lia).
    by rewrite E1.
  - apply Z.leb_gt in E480.
    assert (E1 : (480 <? len t) = true) by (apply Z.ltb_lt; lia).
    rewrite E1.
    pose proof (window_has_text t 600 480 Hw ltac:(lia) ltac:(lia) E480)
      as Htxt1.
    rewrite (strip_has_text _ Htxt1).
    destruct (Hwe 480) as [-> | ?]; [|lia].
    change (480 + 600 - 120) with 960.
    assert (Es1 : slice t 480 (480 + 600) = drop 480 t).
    { rewrite slice_nonneg by lia. unfold len in *.
      replace (Z.to_nat (480 `min` Z.of_nat (length t))) with 480%nat by lia.
      apply firstn_all2. rewrite length_drop. lia. }
    rewrite Es1.
    assert (E2 : (960 <? len t) = false) by (apply Z.ltb_ge; lia).
    by rewrite E2.
Qed.

Lemma short_text_chunks_witness :
  has_thai (lit "hello   world") && true = false /\
  len (normalize (lit "hello   world")) <= 600 /\
  _split_text true (fun t => [t]) (enough_fuel (lit "hello   world"))
    (lit "hello   world") 600 120
  = Some [lit "hello world"].
Proof.
  assert (H1 : has_thai (lit "hello   world") && true = false)
    by (by vm_compute).
  assert (H2 : len (normalize (lit "hello   world")) <= 600)
    by (by vm_compute).
  split; [exact H1|]. split; [exact H2|].
  exact (short_text_chunks true (fun t => [t]) (lit "hello   world") H1 H2).
Defined.

End ChunkerExtras.
(** ** The vector service: further properties *)

Section VectorExtras.

Import VectorService VectorServiceMore.

Context (HAS_PYTHAINLP : bool)
  (sent_tokenize word_tokenize : pystr -> list pystr)
  (lower : pystr -> pystr) (Collection : Type)
  (chroma_get_or_create :
     option Collection -> pystr -> pystr -> exn Collection)
  (chroma_query : Collection -> pystr -> Z -> option Where -> exn QueryResult)
  (chroma_get : Collection -> option Where -> Z -> exn GetResult)
  (chroma_add : Collection -> list pystr -> list pystr -> list Metadata
                -> exn Collection)
  (chroma_delete : Collection -> Where -> exn Collection)
  (extract : pystr -> list ContentObject)
  (read_text : pystr -> pystr -> exn pystr)
  (pdf_pages : pystr -> exn (list (exn (option pystr))))
  (docx_paragraphs : pystr -> exn (list pystr)).

Local Abbreviation search :=
  (search HAS_PYTHAINLP word_tokenize lower Collection chroma_query chroma_get).
Local Abbreviation process_document :=
  (process_document HAS_PYTHAINLP sent_tokenize Collection chroma_get_or_create
     chroma_add).
Local Abbreviation delete_document :=
  (delete_document Collection chroma_delete).
Local Abbreviation _extract_with_metadata :=
  (_extract_with_metadata lower read_text pdf_pages docx_paragraphs).

(** X3: the vector id that [process_document] returns leads
    [delete_document] back to the collection that was written: for a user
    id without a colon, [delete_document] on that id calls [delete] with
    the filter [file_id] on the collection of the user, and stores what
    [delete] gives. *)
Theorem delete_after_process (client : gmap (list N) Collection)
    (file_path file_id user_id : pystr) (Hcolon : 58%N ∉ user_id) :
  match process_document extract (Some client) file_path file_id user_id with
  | (Some client', Ok (Some vector_id)) =>
      exists collection,
        client' !! process_document_collection_name user_id
        = Some collection /\
        delete_document (Some client') (Some vector_id)
        = Some (match chroma_delete collection (WhereEq file_id) with
                | Ok collection' =>
                    <[process_document_collection_name user_id
                      := collection']> client'
                | Raise _ => client'
                end)
  | (client', Ok None) => client' = Some client
  | (_, Ok (Some _)) | (_, Raise _) => True
  end.
Proof.
  unfold VectorService.process_document.
  destruct (nonempty (extract file_path)); [|done].
  destruct (add_objects _ _ _ _ _ _ _) as [chunks metadatas].
  unfold get_or_create_collection.
  destruct (chroma_get_or_create _ _ _) as [col1|e]; cbn [bind]; [|done].
  destruct (chroma_add col1 _ _ _) as [col2|e]; [|done].
  exists col2. split; [by rewrite lookup_insert_eq|].
  unfold VectorServiceMore.delete_document.
  change (lit ":" ++ file_id) with (58%N :: file_id).
  rewrite split_once_app by (by apply collection_name_no_colon).
  unfold get_collection. rewrite lookup_insert_eq.
  by destruct (chroma_delete col2 (WhereEq file_id)).
Qed.

(** X4: deleting a document of user A never changes what a search by
    another user B returns, for user ids without underscore and a user id
    A without colon; and a vector id without a colon deletes nothing. *)
Theorem delete_isolation (A B : pystr)
    (HA : 95%N ∉ A) (HB : 95%N ∉ B) (Hne : A <> B) (Hcolon : 58%N ∉ A) :
  (forall (client : gmap (list N) Collection)
          (file_id query : pystr) (n_results : Z)
          (file_ids : option (list pystr)),
     search
       (delete_document (Some client)
          (Some (process_document_collection_name A ++ lit ":" ++ file_id)))
       B query n_results file_ids
     = search (Some client) B query n_results file_ids) /\
  (forall (client : option (gmap (list N) Collection)) (vector_id : pystr),
     58%N ∉ vector_id ->
     delete_document client (Some vector_id) = client).
Proof.
  split.
  - intros client file_id query n_results file_ids.
    unfold VectorServiceMore.delete_document.
    change (lit ":" ++ file_id) with (58%N :: file_id).
    rewrite split_once_app by (by apply collection_name_no_colon).
    destruct (get_collection Collection client _) as [col|e]; [|done].
    destruct (chroma_delete col (WhereEq file_id)) as [col'|e]; [|done].
    apply search_lookup. apply lookup_insert_ne.
    unfold search_collection_name, process_document_collection_name.
    intros E. apply app_inv_head in E.
    by apply replace_hyphens_inj in E.
  - intros client vector_id Hv. unfold VectorServiceMore.delete_document.
    by rewrite split_once_none.
Qed.

(** X5: [_extract_pdf_pages] never raises. When the reader or the text
    extraction of any page fails it returns no unit at all; otherwise it
    returns, in page order, one unit per page whose text is not blank. The
    unit of page N (counted from 1) carries the text of that page and the
    label ["Page N"], which is the page label [process_document] stores. *)
Theorem pdf_page_units (file_path : pystr) :
  let units := _extract_pdf_pages pdf_pages file_path in
  match pdf_pages file_path with
  | Raise _ => units = []
  | Ok ps =>
      (units = [] \/ units = pdf_units 0 ps) /\
      (Forall is_ok ps -> units = pdf_units 0 ps) /\
      (Exists (fun p => ~ is_ok p) ps -> units = []) /\
      Forall (pdf_unit_ok ps 0) units /\
      StronglySorted page_before units
  end.
Proof.
  unfold VectorServiceMore._extract_pdf_pages. cbv zeta.
  destruct (pdf_pages file_path) as [ps|e]; [|done]. cbn [bind].
  destruct (pdf_units_ok ps ps 0 eq_refl) as [Hf Hs].
  assert (Hcases : match pdf_loop 0 ps [] with
                   | Ok pages => pages
                   | Raise _ => []
                   end = [] \/
                   match pdf_loop 0 ps [] with
                   | Ok pages => pages
                   | Raise _ => []
                   end = pdf_units 0 ps).
  { destruct (pdf_loop 0 ps []) as [r|e] eqn:E; [|by left].
    right. by apply pdf_loop_units in E. }
  split; [done|]. split; [|split; [|split]].
  - intros Hok. by rewrite (pdf_loop_ok ps Hok 0 []).
  - intros Hex. by destruct (pdf_loop_fail ps Hex 0 []) as [e ->].
  - destruct Hcases as [-> | ->]; [constructor | done].
  - destruct Hcases as [-> | ->]; [constructor | done].
Qed.

(** X6: for a path whose extension is neither [pdf] nor [docx],
    [_extract_with_metadata] returns the text read with the first of
    utf-8, latin-1 and cp1252 that can be read and has no NUL among its
    first 1024 characters, as one unit without page; it returns no unit
    when no encoding gives such a text. *)
Theorem text_encoding_fallback (file_path : pystr)
    (Hpdf : lower (rsplit_last 46 file_path) <> lit "pdf")
    (Hdocx : lower (rsplit_last 46 file_path) <> lit "docx") :
  (_extract_with_metadata file_path = []
   /\ Forall (rejected read_text file_path) encodings) \/
  (exists before encoding after content,
     encodings = before ++ encoding :: after /\
     Forall (rejected read_text file_path) before /\
     read_text file_path encoding = Ok content /\
     contains [0%N] (slice content 0 1024) = false /\
     _extract_with_metadata file_path
     = [{| co_text := content; co_page := None; co_page_label := None |}]).
Proof.
  unfold VectorServiceMore._extract_with_metadata. cbv zeta.
  rewrite !bool_decide_eq_false_2 by done.
  apply read_as_text_spec.
Qed.

(** X7: a file that no encoding can read as text without a NUL among the
    first 1024 characters is not indexed: [process_document] returns
    [None] and leaves the client as it was. *)
Theorem binary_file_not_indexed (client : gmap (list N) Collection)
    (file_path file_id user_id : pystr)
    (Hpdf : lower (rsplit_last 46 file_path) <> lit "pdf")
    (Hdocx : lower (rsplit_last 46 file_path) <> lit "docx")
    (Hbinary : Forall (rejected read_text file_path) encodings) :
  process_document _extract_with_metadata (Some client) file_path file_id
    user_id
  = (Some client, Ok None).
Proof.
  unfold VectorService.process_document.
  assert (E : _extract_with_metadata file_path = []); [|by rewrite E].
  unfold VectorServiceMore._extract_with_metadata. cbv zeta.
  rewrite !bool_decide_eq_false_2 by done.
  destruct (read_as_text_spec read_text file_path encodings)
    as [[E _] | (b & en & a & c & Eenc & Hb & Hr & Hn & _)]; [done|].
  exfalso. rewrite Eenc in Hbinary.
  apply Forall_app in Hbinary as [_ Hen].
  apply Forall_cons in Hen as [Hen _].
  unfold rejected in Hen. rewrite Hr in Hen. congruence.
Qed.

(** X8: when the extraction gives units but all of them are blank (as for
    a DOCX that could not be read, whose single unit is empty),
    [process_document] does not return [None]. It calls
    [get_or_create_collection] for the collection of the user; when that
    call raises, [add] is not called and the [ValueError] carries the text
    of the exception; otherwise [add] is called with no chunk, no id and
    no metadata, and its exception, if it raises, becomes the
    [ValueError]. *)
Theorem blank_units_reach_add (client : gmap (list N) Collection)
    (file_path file_id user_id : pystr)
    (Hunits : extract file_path <> [])
    (Hblank : Forall (fun o => has_text (co_text o) = false)
                (extract file_path)) :
  let name := process_document_collection_name user_id in
  process_document extract (Some client) file_path file_id user_id
  = match chroma_get_or_create (client !! name) name user_id with
    | Raise e =>
        (Some client, Raise (lit "Failed to process document: " ++ e))
    | Ok collection =>
        match chroma_add collection [] [] [] with
        | Ok collection' =>
            (Some (<[name := collection']> client),
             Ok (Some (name ++ lit ":" ++ file_id)))
        | Raise e =>
            (Some (<[name := collection]> client),
             Raise (lit "Failed to process document: " ++ e))
        end
    end /\
  snd (process_document extract (Some client) file_path file_id user_id)
  <> Ok None.
Proof.
  intros name.
  assert (E : process_document extract (Some client) file_path file_id
                user_id
              = match chroma_get_or_create (client !! name) name user_id with
                | Raise e =>
                    (Some client,
                     Raise (lit "Failed to process document: " ++ e))
                | Ok collection =>
                    match chroma_add collection [] [] [] with
                    | Ok collection' =>
                        (Some (<[name := collection']> client),
                         Ok (Some (name ++ lit ":" ++ file_id)))
                    | Raise e =>
                        (Some (<[name := collection]> client),
                         Raise (lit "Failed to process document: " ++ e))
                    end
                end).
  { unfold VectorService.process_document.
    destruct (extract file_path) as [|o objs] eqn:E; [done|].
    cbn [nonempty]. rewrite (add_objects_blank _ _ _ _ _ _ _ Hblank).
    unfold get_or_create_collection. fold name.
    destruct (chroma_get_or_create _ _ _) as [col|e]; cbn [bind]; [|done].
    destruct (chroma_add col _ _ _) as [col'|e]; [|done].
    by rewrite insert_insert_eq. }
  split; [exact E|]. rewrite E.
  destruct (chroma_get_or_create _ _ _) as [col|e]; [|done].
  by destruct (chroma_add col _ _ _).
Qed.


End VectorExtras.
(** ** The vector service on the list-backed store: further examples *)

Section VectorExtraExamples.

Import VectorService VectorServiceMore.

Local Abbreviation pd :=
  (process_document true split ListStore.Collection ListStore.get_or_create
     ListStore.add).
Local Abbreviation del :=
  (delete_document ListStore.Collection list_delete).
Local Abbreviation extract_file :=
  (_extract_with_metadata ascii_lower unreadable three_pages no_paragraphs).

Lemma delete_after_process_witness :
  (58%N ∉ lit "u-1") /\
  match pd ListStore.extract (Some ∅) (lit "f.txt") (lit "F1") (lit "u-1")
  with
  | (Some client', Ok (Some vector_id)) =>
      exists collection,
        client' !! process_document_collection_name (lit "u-1")
        = Some collection /\
        del (Some client') (Some vector_id)
        = Some (match list_delete collection (WhereEq (lit "F1")) with
                | Ok collection' =>
                    <[process_document_collection_name (lit "u-1")
                      := collection']> client'
                | Raise _ => client'
                end)
  | (client', Ok None) => client' = Some ∅
  | (_, Ok (Some _)) | (_, Raise _) => True
  end.
Proof.
  assert (H : 58%N ∉ lit "u-1")
    by (apply (bool_decide_unpack _); vm_compute; exact I).
  split; [exact H|].
  exact (delete_after_process true split ListStore.Collection
           ListStore.get_or_create ListStore.add list_delete ListStore.extract
           ∅ (lit "f.txt") (lit "F1") (lit "u-1") H).
Defined.

(** After indexing and deleting on the list-backed store, the collection
    of the user is there and holds no row. *)
Example process_then_delete :
  del (fst (pd ListStore.extract (Some ∅) (lit "f.txt") (lit "F1")
              (lit "u-1")))
    (Some (lit "user_u_1:F1"))
  = Some {[ lit "user_u_1" := [] ]}.
Proof. by vm_compute. Qed.

Lemma delete_isolation_witness :
  (95%N ∉ lit "u-1") /\ (95%N ∉ lit "u-2") /\ lit "u-1" <> lit "u-2" /\
  (58%N ∉ lit "u-1") /\
  del (Some ∅) (Some (lit "no colon")) = Some ∅.
Proof.
  assert (H1 : 95%N ∉ lit "u-1")
    by (apply (bool_decide_unpack _); vm_compute; exact I).
  assert (H2 : 95%N ∉ lit "u-2")
    by (apply (bool_decide_unpack _); vm_compute; exact I).
  assert (H3 : lit "u-1" <> lit "u-2")
    by (apply (bool_decide_unpack _); vm_compute; exact I).
  assert (H4 : 58%N ∉ lit "u-1")
    by (apply (bool_decide_unpack _); vm_compute; exact I).
  assert (H5 : 58%N ∉ lit "no colon")
    by (apply (bool_decide_unpack _); vm_compute; exact I).
  split; [exact H1|]. split; [exact H2|]. split; [exact H3|].
  split; [exact H4|].
  exact (proj2 (delete_isolation true split ascii_lower ListStore.Collection
                  ListStore.query ListStore.get list_delete _ _
                  H1 H2 H3 H4) (Some ∅) (lit "no colon") H5).
Defined.

(** A PDF of three pages whose second page is blank gives the units of
    pages 1 and 3. *)
Example pdf_three_pages :
  _extract_pdf_pages three_pages (lit "a.pdf")
  = [{| co_text := lit "invoice total $500"; co_page := Some 1;
        co_page_label := Some (lit "Page 1") |};
     {| co_text := lit "payment due March 1"; co_page := Some 3;
        co_page_label := Some (lit "Page 3") |}]
  /\ extract_file (lit "report.PDF")
     = _extract_pdf_pages three_pages (lit "report.PDF").
Proof. by vm_compute. Qed.

Lemma text_encoding_fallback_witness :
  ascii_lower (rsplit_last 46 (lit "notes.txt")) <> lit "pdf" /\
  ascii_lower (rsplit_last 46 (lit "notes.txt")) <> lit "docx" /\
  ((extract_file (lit "notes.txt") = []
    /\ Forall (rejected unreadable (lit "notes.txt")) encodings) \/
   (exists before encoding after content,
      encodings = before ++ encoding :: after /\
      Forall (rejected unreadable (lit "notes.txt")) before /\
      unreadable (lit "notes.txt") encoding = Ok content /\
      contains [0%N] (slice content 0 1024) = false /\
      extract_file (lit "notes.txt")
      = [{| co_text := content; co_page := None;
            co_page_label := None |}])).
Proof.
  assert (H1 : ascii_lower (rsplit_last 46 (lit "notes.txt")) <> lit "pdf")
    by (apply (bool_decide_unpack _); vm_compute; exact I).
  assert (H2 : ascii_lower (rsplit_last 46 (lit "notes.txt")) <> lit "docx")
    by (apply (bool_decide_unpack _); vm_compute; exact I).
  split; [exact H1|]. split; [exact H2|].
  exact (text_encoding_fallback ascii_lower unreadable three_pages
           no_paragraphs (lit "notes.txt") H1 H2).
Defined.

Lemma binary_file_not_indexed_witness :
  ascii_lower (rsplit_last 46 (lit "a.zip")) <> lit "pdf" /\
  ascii_lower (rsplit_last 46 (lit "a.zip")) <> lit "docx" /\
  Forall (rejected unreadable (lit "a.zip")) encodings /\
  pd extract_file (Some ∅) (lit "a.zip") (lit "F1") (lit "u-1")
  = (Some ∅, Ok None).
Proof.
  assert (H1 : ascii_lower (rsplit_last 46 (lit "a.zip")) <> lit "pdf")
    by (apply (bool_decide_unpack _); vm_compute; exact I).
  assert (H2 : ascii_lower (rsplit_last 46 (lit "a.zip")) <> lit "docx")
    by (apply (bool_decide_unpack _); vm_compute; exact I).
  assert (H3 : Forall (rejected unreadable (lit "a.zip")) encodings)
    by (repeat constructor).
  split; [exact H1|]. split; [exact H2|]. split; [exact H3|].
  exact (binary_file_not_indexed true split ascii_lower ListStore.Collection
           ListStore.get_or_create ListStore.add unreadable three_pages
           no_paragraphs ∅ (lit "a.zip") (lit "F1") (lit "u-1") H1 H2 H3).
Defined.

Lemma blank_units_reach_add_witness :
  extract_file (lit "broken.docx") <> [] /\
  Forall (fun o => has_text (co_text o) = false)
    (extract_file (lit "broken.docx")) /\
  process_document true split ListStore.Collection ListStore.get_or_create
    strict_add extract_file (Some ∅) (lit "broken.docx") (lit "F1")
    (lit "u-1")
  = (Some {[ lit "user_u_1" := [] ]},
     Raise (lit "Failed to process document: "
            ++ lit "Expected IDs to be a non-empty list, got 0 IDs")).
Proof.
  assert (H1 : extract_file (lit "broken.docx") <> []) by (by vm_compute).
  assert (H2 : Forall (fun o => has_text (co_text o) = false)
                 (extract_file (lit "broken.docx")))
    by (vm_compute; repeat constructor).
  split; [exact H1|]. split; [exact H2|].
  rewrite (proj1 (blank_units_reach_add true split ListStore.Collection
                    ListStore.get_or_create strict_add extract_file ∅
                    (lit "broken.docx") (lit "F1") (lit "u-1") H1 H2)).
  by vm_compute.
Defined.

(** When the store cannot be reached, [process_document] raises without
    a call of [add], and the client is as it was. *)
Example process_document_unreachable :
  process_document true split ListStore.Collection unreachable_store
    ListStore.add ListStore.extract (Some ∅) (lit "a.txt") (lit "F1")
    (lit "u-1")
  = (Some ∅,
     Raise (lit "Failed to process document: "
            ++ lit "Could not connect to a Chroma server")).
Proof. by vm_compute. Qed.

End VectorExtraExamples.
(** ** The chat endpoints: further properties *)

Section ChatExtras.

Import VectorService CitationRanker.

(** X10: the query that [chat] and [chat_with_file] search with is the
    message itself, or a text that is not empty, has no whitespace at its
    ends and contains neither attachment marker; cleaning a cleaned query
    changes nothing; and the query is empty only for the empty message. *)
Theorem clean_query_properties (message : pystr) :
  (clean_query message = message \/
   (nonempty (clean_query message) = true /\
    contains attached_marker (clean_query message) = false /\
    contains uploaded_marker (clean_query message) = false /\
    strip (clean_query message) = clean_query message)) /\
  clean_query (clean_query message) = clean_query message /\
  (clean_query message = [] <-> message = []).
Proof.
  set (b1 := before attached_marker message).
  set (b2 := before uploaded_marker b1).
  assert (Hcases : (nonempty (strip b2) = true
                    /\ clean_query message = strip b2) \/
                   (nonempty (strip b2) = false
                    /\ clean_query message = message)).
  { unfold clean_query. cbv zeta. fold b1. fold b2.
    destruct (nonempty (strip b2)); [by left | by right]. }
  assert (Hn1 : contains attached_marker b1 = false)
    by (by apply before_no_sep).
  assert (Hn2 : contains uploaded_marker b2 = false)
    by (by apply before_no_sep).
  destruct (before_prefix uploaded_marker b1) as [r Hr]. fold b2 in Hr.
  clearbody b2. clearbody b1.
  destruct (strip_infix b2) as (x & y & Hb2).
  destruct Hcases as [[E Ecq] | [E Ecq]]; rewrite Ecq.
  - assert (H1 : contains attached_marker (strip b2) = false).
    { apply (not_contains_infix _ x _ (y ++ r)).
      rewrite app_assoc, (app_assoc _ y r), <- (app_assoc x), <- Hb2, <- Hr.
      exact Hn1. }
    assert (H2 : contains uploaded_marker (strip b2) = false).
    { apply (not_contains_infix _ x _ y). by rewrite <- Hb2. }
    split; [right; by rewrite strip_idem|]. split.
    + unfold clean_query. cbv zeta.
      rewrite (before_id _ _ H1), (before_id _ _ H2), strip_idem.
      by rewrite E.
    + split; [intros E'; by rewrite E' in E|].
      intros Hm. subst message. by vm_compute in Ecq.
  - split; [by left|]. split; [done | done].
Qed.

(** X11: the merge of [chat] keeps the closest results: what it passes on
    is in ascending order of distance, holds 20 results or all of them
    when there are fewer, and no result it leaves out is closer than one
    it keeps. *)
Theorem top_results_closest (all_search_results : list (list Document)) :
  let kept := top_results all_search_results in
  StronglySorted closer kept /\
  length kept = (20 `min` length (concat all_search_results))%nat /\
  exists dropped,
    concat all_search_results ≡ₚ kept ++ dropped /\
    Forall (fun k => Forall (closer k) dropped) kept.
Proof.
  unfold top_results. cbv zeta.
  set (sorted := sort_asc (concat all_search_results)).
  pose proof (sort_asc_sorted (concat all_search_results)) as Hs.
  pose proof (sort_asc_perm (concat all_search_results)) as Hp.
  fold sorted in Hs, Hp.
  rewrite <- (take_drop 20 sorted) in Hs.
  apply sorted_app in Hs as [Hs1 Hs2].
  split; [done|]. split.
  - rewrite length_take. by rewrite Hp.
  - exists (drop 20 sorted). split; [|done].
    by rewrite take_drop.
Qed.

Context (HAS_PYTHAINLP : bool) (word_tokenize : pystr -> list pystr)
  (lower : pystr -> pystr) (Collection : Type)
  (chroma_query : Collection -> pystr -> Z -> option Where -> exn QueryResult)
  (chroma_get : Collection -> option Where -> Z -> exn GetResult).

(** X12: whatever the store answers and however many files a turn
    refers to, at most 20 chunks enter the context of the prompt and there
    are never more citations than context chunks; without an indexed file
    there is neither context nor citation; and every file is searched for
    between 5 and 20 results. *)
Theorem chat_rag_bounded (file_names : gmap (list N) pystr)
    (client : option (gmap (list N) Collection))
    (user_id message : pystr) (file_ids_str : list pystr) :
  (let '(rag_context, citations) :=
     chat_rag HAS_PYTHAINLP word_tokenize lower Collection chroma_query
       chroma_get file_names client user_id message file_ids_str in
   (length rag_context <= 20)%nat /\
   (length citations <= length rag_context)%nat /\
   match file_ids_str with
   | [] => rag_context = [] /\ citations = []
   | _ :: _ => True
   end) /\
  match results_per_file file_ids_str with
  | Ok budget => 5 <= budget <= 20
  | Raise _ => file_ids_str = []
  end.
Proof.
  split.
  - unfold chat_rag. cbv zeta.
    destruct (retrieve _ _ _ _ _ _ _ _ _ _) as [sr|e] eqn:Er.
    + assert (Hsr : (length sr <= 20)%nat).
      { unfold retrieve in Er.
        destruct (results_per_file file_ids_str); [|done]. cbn [bind] in Er.
        destruct (gather _); [|done]. cbn [bind] in Er.
        injection Er as <-. unfold top_results. rewrite length_take. lia. }
      pose proof (rank_loop_lengths lower (clean_query message) file_names
                    sr [] []) as H.
      destruct (rank_loop _ _ _ sr [] []) as [rag res].
      destruct H as [H1 H2]. simpl in H1, H2.
      destruct res as [d|e].
      * rewrite sort_desc_length, length_map.
        split; [lia|]. split; [lia|].
        destruct file_ids_str; [by unfold retrieve in Er | done].
      * split; [lia|]. split; [simpl; lia|].
        destruct file_ids_str; [by unfold retrieve in Er | done].
    + split; [simpl; lia|]. split; [done|]. by destruct file_ids_str.
  - destruct file_ids_str as [|f fs]; [done|]. simpl.
    assert (H : 0 < length_Z (f :: fs)) by (unfold length_Z; simpl; lia).
    assert (H20 : 20 / length_Z (f :: fs) <= 20).
    { apply Z.div_le_upper_bound; [done | lia]. }
    lia.
Qed.

(** X13: when [chat_with_file] gets through its ranking, every new upload
    is cited under its id with the score 0.99 and page 1, whatever the
    search over the other files returns; no file is cited twice; every
    score is at least 0.65; and the citations are in descending order of
    score. *)
Theorem upload_citations_properties (file_map : gmap (list N) pystr)
    (final_fids : list pystr) (client : option (gmap (list N) Collection))
    (user_id message : pystr) (results : list Upload)
    (rag_context : list pystr) (c_list : list Citation)
    (Hok : upload_citations HAS_PYTHAINLP word_tokenize lower Collection
             chroma_query chroma_get file_map final_fids client user_id
             message results = Ok (rag_context, c_list)) :
  Forall (fun u => exists c, c ∈ c_list /\ file_id c = up_id u
                             /\ relevance_score c = 0.99%Q
                             /\ page c = lit "1") results /\
  NoDup (map file_id c_list) /\
  Forall (fun c => (0.65 <= relevance_score c)%Q) c_list /\
  StronglySorted desc c_list.
Proof.
  unfold upload_citations in Hok. cbv zeta in Hok.
  pose proof (seed_uploads_spec results [] []) as Hseed.
  destruct (seed_uploads results [] []) as [rag0 d0].
  destruct Hseed as (Hk0 & _ & Hs0).
  { split; [constructor | by intros k c ?%elem_of_nil]. }
  simpl in Hk0, Hs0.
  destruct (gather _) as [s_results|e]; [|done]. cbn [bind] in Hok.
  match type of Hok with
  | context [other_files _ ?o _ _ _] => set (other := o) in *
  end.
  destruct (other_files file_map other s_results rag0 d0)
    as [[rag1 d1]|e] eqn:Eo; [|done].
  cbn [bind fst snd] in Hok. injection Hok as <- <-.
  apply other_files_spec in Eo as [[Hnd Hall] Hsame]; [|done].
  pose proof (sort_desc_perm (map snd d1)) as Hperm.
  split; [|split; [|split]].
  - apply Forall_forall. intros u Hu.
    rewrite Forall_forall in Hs0.
    destruct (Hs0 u Hu) as (c & Hc & Hf & Hs & Hp).
    exists c. split; [|done]. rewrite Hperm.
    rewrite <- Hsame in Hc.
    + apply dict_get_Some in Hc. apply elem_of_map. by exists (up_id u, c).
    + unfold other. rewrite list_elem_of_In, filter_In.
      intros [_ Hneg]. apply negb_true_iff, bool_decide_eq_false in Hneg.
      apply Hneg, elem_of_map. by exists u.
  - rewrite Hperm. rewrite dict_keys_file_id; [done|].
    intros k c Hin. by destruct (Hall k c Hin).
  - apply Forall_forall. intros c Hc. rewrite Hperm in Hc.
    apply elem_of_map in Hc as ([k c'] & -> & Hin).
    by destruct (Hall k c' Hin).
  - apply sort_desc_sorted.
Qed.

End ChatExtras.

Section ChatExtraExamples.

Import VectorService CitationRanker.

Local Abbreviation uploads_on_list_store :=
  (upload_citations true split ascii_lower ListStore.Collection
     ListStore.query ListStore.get two_files [lit "F1"; lit "N1"]
     (Some {[ lit "user_u_1" := ListStore.pool_F1 ]}) (lit "u-1")
     (lit "what is the total") one_upload).

Lemma upload_citations_witness :
  exists rag_context c_list,
    uploads_on_list_store = Ok (rag_context, c_list) /\
    Forall (fun u => exists c, c ∈ c_list /\ file_id c = up_id u
                               /\ relevance_score c = 0.99%Q
                               /\ page c = lit "1") one_upload /\
    length c_list = 2%nat.
Proof.
  destruct uploads_on_list_store as [[rag_context c_list]|e] eqn:E;
    [|by vm_compute in E].
  exists rag_context, c_list. split; [reflexivity|].
  split.
  - exact (proj1 (upload_citations_properties true split ascii_lower
                    ListStore.Collection ListStore.query ListStore.get
                    two_files [lit "F1"; lit "N1"]
                    (Some {[ lit "user_u_1" := ListStore.pool_F1 ]})
                    (lit "u-1") (lit "what is the total") one_upload
                    rag_context c_list E)).
  - vm_compute in E. by injection E as <- <-.
Defined.

(** Without an indexed file there is no context; with the file [F1] its
    two chunks enter the context. *)
Example chat_rag_on_list_store :
  chat_rag true split ascii_lower ListStore.Collection ListStore.query
    ListStore.get two_files
    (Some {[ lit "user_u_1" := ListStore.pool_F1 ]}) (lit "u-1")
    (lit "what is the total") []
  = ([], []) /\
  length (fst (chat_rag true split ascii_lower ListStore.Collection
                 ListStore.query ListStore.get two_files
                 (Some {[ lit "user_u_1" := ListStore.pool_F1 ]})
                 (lit "u-1") (lit "what is the total") [lit "F1"]))
  = 2%nat.
Proof. by vm_compute. Qed.

End ChatExtraExamples.
(** ** The completion orchestrator: further properties *)

Section LLMExtras.

Import LLMService LLMServiceMore.

Context (system_prompt : pystr) (provider_type_str : ProviderType -> pystr).

(** X14: a Cohere provider, and a custom provider without base URL, never
    reach a remote call: whatever the remote calls would do, the response
    is the error message of the orchestrator, with no completion token. *)
Theorem providers_without_remote_call
    (google1 google2 :
       pystr -> pystr -> pystr -> option (list Image) -> exn pystr)
    (post1 post2 :
       pystr -> pystr -> pystr -> pystr -> option (list Image)
       -> exn Completion)
    (messages1 messages2 :
       pystr -> pystr -> pystr -> option (list Image) -> exn Completion)
    (message : pystr) (provider : Provider) (model : pystr)
    (context : option (list pystr)) (history : option (list Message))
    (images : option (list Image))
    (Hprovider :
       provider_type provider = COHERE \/
       (provider_type provider = CUSTOM /\
        (api_base_url provider = None \/ api_base_url provider = Some []))) :
  generate_response system_prompt provider_type_str google1 post1 messages1
    message provider model context history images
  = generate_response system_prompt provider_type_str google2 post2
      messages2 message provider model context history images /\
  generate_response system_prompt provider_type_str google1 post1 messages1
    message provider model context history images
  = Ok (error_response model
          (len (full_prompt system_prompt message context history) / 4)
          (match provider_type provider with
           | COHERE =>
               lit "Provider " ++ provider_type_str COHERE
               ++ lit " is not yet implemented in LLMService"
           | _ => lit "Custom provider requires a Base URL"
           end)).
Proof.
  unfold generate_response, delegate. cbv zeta.
  destruct Hprovider as [-> | [-> [-> | ->]]]; by split.
Qed.

(** X15: only the last eight messages of the history reach the prompt:
    a history and its last eight messages give the same response. *)
Theorem history_window
    (google : pystr -> pystr -> pystr -> option (list Image) -> exn pystr)
    (post : pystr -> pystr -> pystr -> pystr -> option (list Image)
            -> exn Completion)
    (messages : pystr -> pystr -> pystr -> option (list Image)
                -> exn Completion)
    (message : pystr) (provider : Provider) (model : pystr)
    (context : option (list pystr)) (older recent : list Message)
    (images : option (list Image))
    (Hrecent : length recent = 8%nat) :
  full_prompt system_prompt message context (Some (older ++ recent))
  = full_prompt system_prompt message context (Some recent) /\
  generate_response system_prompt provider_type_str google post messages
    message provider model context (Some (older ++ recent)) images
  = generate_response system_prompt provider_type_str google post messages
      message provider model context (Some recent) images.
Proof.
  assert (E : history_section (Some (older ++ recent))
              = history_section (Some recent)).
  { assert (Hs : forall h : list Message, h <> [] ->
              history_section (Some h)
              = nl ++ nl ++ lit "=== RECENT CONVERSATION HISTORY ===" ++ nl
                ++ concat (map history_line (drop (length h - 8) h))
                ++ lit "==================================" ++ nl)
      by (by intros [|m ms]).
    rewrite !Hs.
    - rewrite length_app, Hrecent.
      replace (length older + 8 - 8)%nat with (length older) by lia.
      by rewrite drop_app_length.
    - intros ->. done.
    - intros E. apply (f_equal (@length Message)) in E.
      rewrite length_app, Hrecent in E. simpl in E. lia. }
  assert (E' : full_prompt system_prompt message context
                 (Some (older ++ recent))
               = full_prompt system_prompt message context (Some recent)).
  { unfold full_prompt. by rewrite E. }
  split; [done|]. unfold generate_response. cbv zeta. by rewrite E'.
Qed.

(** X16: with a Google provider the response always comes with consistent
    token counts: [prompt_tokens] is the estimate [len(prompt) // 4],
    [completion_tokens] is not negative, and [total_tokens] is their
    sum. *)
Theorem google_token_accounting
    (google : pystr -> pystr -> pystr -> option (list Image) -> exn pystr)
    (post : pystr -> pystr -> pystr -> pystr -> option (list Image)
            -> exn Completion)
    (messages : pystr -> pystr -> pystr -> option (list Image)
                -> exn Completion)
    (message : pystr) (provider : Provider) (model : pystr)
    (context : option (list pystr)) (history : option (list Message))
    (images : option (list Image))
    (Hgoogle : provider_type provider = GOOGLE) :
  exists r,
    generate_response system_prompt provider_type_str google post messages
      message provider model context history images = Ok r /\
    LLMService.model r = model /\
    prompt_tokens r
    = len (full_prompt system_prompt message context history) / 4 /\
    0 <= completion_tokens r /\
    total_tokens r = prompt_tokens r + completion_tokens r.
Proof.
  unfold generate_response, delegate, _generate_google. cbv zeta.
  rewrite Hgoogle.
  destruct (google (api_key provider) model _ images) as [t|e];
    cbn [bind try_except].
  - eexists. split; [done|]. simpl. split; [done|]. split; [done|].
    split; [|done]. apply Z.div_pos; [apply len_nonneg | lia].
  - destruct (contains (lit "429") e || contains (lit "RESOURCE_EXHAUSTED") e);
      cbn [try_except]; eexists; (split; [done|]); simpl;
      repeat split; lia.
Qed.

End LLMExtras.

Section LLMExtraExamples.

Import LLMService LLMServiceMore.

Lemma providers_without_remote_call_witness :
  (provider_type custom_provider = COHERE \/
   (provider_type custom_provider = CUSTOM /\
    (api_base_url custom_provider = None
     \/ api_base_url custom_provider = Some []))) /\
  generate_response [] provider_type_name google_quota post_fails
    messages_fail (lit "hi") custom_provider (lit "m") None None None
  = generate_response [] provider_type_name google_answers post_fails
      messages_without_usage (lit "hi") custom_provider (lit "m") None None
      None.
Proof.
  assert (H : provider_type custom_provider = COHERE \/
              (provider_type custom_provider = CUSTOM /\
               (api_base_url custom_provider = None
                \/ api_base_url custom_provider = Some [])))
    by (right; split; [reflexivity | left; reflexivity]).
  split; [exact H|].
  exact (proj1 (providers_without_remote_call [] provider_type_name
                  google_quota google_answers post_fails post_fails
                  messages_fail messages_without_usage (lit "hi")
                  custom_provider (lit "m") None None None H)).
Defined.

Lemma history_window_witness :
  length (map turn (seq 2 8)) = 8%nat /\
  full_prompt [] (lit "hi") None (Some (map turn (seq 0 2) ++ map turn (seq 2 8)))
  = full_prompt [] (lit "hi") None (Some (map turn (seq 2 8))).
Proof.
  assert (H : length (map turn (seq 2 8)) = 8%nat) by reflexivity.
  split; [exact H|].
  exact (proj1 (history_window [] provider_type_name google_answers
                  post_fails messages_fail (lit "hi") google_provider
                  (lit "m") None (map turn (seq 0 2)) (map turn (seq 2 8))
                  None H)).
Defined.

Lemma google_token_accounting_witness :
  provider_type google_provider = GOOGLE /\
  exists r,
    generate_response [] provider_type_name google_answers post_fails
      messages_fail (lit "hi") google_provider (lit "m") None None None
    = Ok r /\
    LLMService.model r = lit "m" /\
    prompt_tokens r = len (full_prompt [] (lit "hi") None None) / 4 /\
    0 <= completion_tokens r /\
    total_tokens r = prompt_tokens r + completion_tokens r.
Proof.
  split; [reflexivity|].
  exact (google_token_accounting [] provider_type_name google_answers
           post_fails messages_fail (lit "hi") google_provider (lit "m")
           None None None eq_refl).
Defined.

(** With an Anthropic answer that has no [usage], [total_tokens] is 0
    although the other two counts are not. *)
Example anthropic_without_usage :
  generate_response [] provider_type_name google_answers post_fails
    messages_without_usage (lit "hi") anthropic_provider (lit "m") None None
    None
  = Ok {| content := lit "The total is $500."; model := lit "m";
          prompt_tokens := 9; completion_tokens := 4; total_tokens := 0;
          error_type := None |}.
Proof. by vm_compute. Qed.

End LLMExtraExamples.
